(** * Temporal extraction and interval engine of task_yoshimura

    A shallow embedding of the routines that carry the scheduling logic of
    the bot:

    - [AiService._supplement_times] (src/ai_service.py), which repairs the
      upstream guess and scans the raw text with regular expressions, and
      [AiReply.extract_dates_and_times], which forces the task type and
      calls it;
    - [CalendarService.find_free_slots_for_day] (src/calendar_service.py),
      the free/busy sweep;
    - the per-frame body of [LineBotHandler._handle_availability_check]
      (src/line_bot_handler.py): location gate, 08:00-23:59 clamp and travel
      margin; the whole handler and [_handle_month_availability] in
      [Availability];
    - [AiReply.format_free_slots_response_by_frame] (src/ai_service.py), the
      reply text.

    Python [str] values are lists of Unicode code points, dictionaries with
    a fixed set of keys are records of optional fields, exceptions are an
    error monad, and the library calls the code relies on ([re], [datetime],
    [strptime], [strftime]) are modelled next to the code that uses them. *)

From Stdlib Require Import ZArith NArith List Bool String Ascii Lia Arith Sorted.
Import ListNotations.
Open Scope Z_scope.

(* ===================================================================== *)
(** * Text *)
(* ===================================================================== *)

(** A Python string: its sequence of code points. *)
Definition str := list N.

Module Utf8.

(** Source literals are UTF-8; [decode] yields the code points Python
    sees.  Only used to write the constants of the program readably. *)
Fixpoint decode (bs : list N) : str :=
  match bs with
  | [] => []
  | b0 :: r0 =>
    if (b0 <? 128)%N then b0 :: decode r0
    else match r0 with
    | [] => [b0]
    | b1 :: r1 =>
      if (b0 <? 224)%N then ((b0 - 192) * 64 + (b1 - 128))%N :: decode r1
      else match r1 with
      | [] => [b0]
      | b2 :: r2 =>
        if (b0 <? 240)%N
        then ((b0 - 224) * 4096 + (b1 - 128) * 64 + (b2 - 128))%N :: decode r2
        else match r2 with
        | [] => [b0]
        | b3 :: r3 =>
          ((b0 - 240) * 262144 + (b1 - 128) * 4096
           + (b2 - 128) * 64 + (b3 - 128))%N :: decode r3
        end
      end
    end
  end.

Fixpoint bytes (s : string) : list N :=
  match s with
  | EmptyString => []
  | String a r => N_of_ascii a :: bytes r
  end.

End Utf8.

Definition u (s : string) : str := Utf8.decode (Utf8.bytes s).

Definition str_eqb (a b : str) : bool :=
  if list_eq_dec N.eq_dec a b then true else false.

(** [a < b] on Python strings: lexicographic on code points. *)
Fixpoint str_ltb (a b : str) : bool :=
  match a, b with
  | _, [] => false
  | [], _ :: _ => true
  | x :: a', y :: b' =>
    if (x <? y)%N then true else if (y <? x)%N then false else str_ltb a' b'
  end.

(** Python's two-argument [max] and [min]: the first argument wins ties. *)
Definition str_max (a b : str) : str := if str_ltb a b then b else a.
Definition str_min (a b : str) : str := if str_ltb b a then b else a.

Definition opt_str_eqb (a b : option str) : bool :=
  match a, b with
  | Some x, Some y => str_eqb x y
  | None, None => true
  | _, _ => false
  end.

(** [needle in hay]. *)
Fixpoint prefixb (p s : str) : bool :=
  match p, s with
  | [], _ => true
  | _ :: _, [] => false
  | x :: p', y :: s' => N.eqb x y && prefixb p' s'
  end.

Fixpoint contains (needle hay : str) : bool :=
  prefixb needle hay ||
  match hay with
  | [] => false
  | _ :: hay' => contains needle hay'
  end.

(** ** Character classes of [re] on [str] patterns *)

(** Code points of the zero of every Unicode decimal-digit block
    (category Nd, Unicode 14); each block holds ten consecutive digits.
    [\d] and [int] accept all of them, [[0-9]] only the first. *)
Definition digit_zeros : list N :=
  [48; 1632; 1776; 1984; 2406; 2534; 2662; 2790; 2918; 3046; 3174; 3302;
   3430; 3558; 3664; 3792; 3872; 4160; 4240; 6112; 6160; 6470; 6608; 6784;
   6800; 6992; 7088; 7232; 7248; 42528; 43216; 43264; 43472; 43504; 43600;
   44016; 65296; 66720; 68912; 69734; 69872; 69942; 70096; 70384; 70736;
   70864; 71248; 71360; 71472; 71904; 72016; 72784; 73040; 73120; 92768;
   92864; 93008; 120782; 120792; 120802; 120812; 120822; 123200; 123632;
   125264; 130032]%N.

Fixpoint digit_in (zs : list N) (c : N) : option N :=
  match zs with
  | [] => None
  | z :: zs' =>
    if ((z <=? c) && (c <? z + 10))%N then Some (c - z)%N else digit_in zs' c
  end.

Definition digit_value (c : N) : option N := digit_in digit_zeros c.

(** [\d] *)
Definition is_digit (c : N) : bool :=
  match digit_value c with Some _ => true | None => false end.

(** [[0-9]] *)
Definition is_ascii_digit (c : N) : bool := ((48 <=? c) && (c <=? 57))%N.

(** [\s], which is also what [str.strip] and [str.split] cut at. *)
Definition is_space (c : N) : bool :=
  existsb (N.eqb c)
    [9; 10; 11; 12; 13; 28; 29; 30; 31; 32; 133; 160; 5760; 8192; 8193;
     8194; 8195; 8196; 8197; 8198; 8199; 8200; 8201; 8202; 8232; 8233;
     8239; 8287; 12288]%N.

(* ===================================================================== *)
(** * Exceptions *)
(* ===================================================================== *)

Inductive exn := ValueError | TypeError | KeyError.

Inductive result (A : Type) : Type :=
| Ok (a : A)
| Raise (e : exn).
Arguments Ok {A} a.
Arguments Raise {A} e.

Definition bind {A B} (r : result A) (f : A -> result B) : result B :=
  match r with
  | Ok a => f a
  | Raise e => Raise e
  end.

Declare Scope result_scope.
Delimit Scope result_scope with result.
Notation "x <- c ;; k" := (bind c (fun x => k))
  (at level 61, c at next level, right associativity) : result_scope.
Notation "' p <- c ;; k" := (bind c (fun x => let p := x in k))
  (at level 61, p pattern, c at next level, right associativity) : result_scope.
Open Scope result_scope.

(* ===================================================================== *)
(** * The fragment of [re] the program uses *)
(* ===================================================================== *)

Module Re.

(** Every repetition in the program's patterns ranges over one character
    class, so [Rep] and [Star] take the class directly. *)
Inductive re :=
| Eps
| Chr (c : N)
| Cls (p : N -> bool)
| Seq (r1 r2 : re)
| Alt (r1 r2 : re)
| Rep (p : N -> bool) (lo hi : nat)
| Star (p : N -> bool)
| Grp (r : re)
| Eos.

(** Greedy bounded repetition with backtracking: take a character when
    allowed, fall back to stopping here when the rest fails. *)
Fixpoint rep {A} (p : N -> bool) (lo hi : nat) (s : str)
    (k : str -> option A) : option A :=
  let stop := if Nat.eqb lo 0 then k s else None in
  match hi, s with
  | S hi', c :: s' =>
    if p c then
      match rep p (pred lo) hi' s' k with
      | Some x => Some x
      | None => stop
      end
    else stop
  | _, _ => stop
  end.

(** Backtracking matcher in continuation-passing style.  [caps] collects
    the text of the groups closed so far, in order. *)
Fixpoint run {A} (r : re) (s : str) (caps : list str)
    (k : str -> list str -> option A) : option A :=
  match r with
  | Eps => k s caps
  | Chr c =>
    match s with
    | x :: s' => if N.eqb x c then k s' caps else None
    | [] => None
    end
  | Cls p =>
    match s with
    | x :: s' => if p x then k s' caps else None
    | [] => None
    end
  | Seq r1 r2 => run r1 s caps (fun s' caps' => run r2 s' caps' k)
  | Alt r1 r2 =>
    match run r1 s caps k with
    | Some x => Some x
    | None => run r2 s caps k
    end
  | Rep p lo hi => rep p lo hi s (fun s' => k s' caps)
  | Star p => rep p 0 (List.length s) s (fun s' => k s' caps)
  | Grp r1 =>
    run r1 s caps (fun s' caps' =>
      k s' (caps' ++ [firstn (List.length s - List.length s') s]))
  | Eos =>
    match s with
    | [] => k s caps
    | _ :: _ => None
    end
  end.

(** [pattern.match(s)]: number of characters consumed and the groups. *)
Definition match_at (r : re) (s : str) : option (nat * list str) :=
  run r s [] (fun s' caps => Some ((List.length s - List.length s')%nat, caps)).

(** [re.search(r, s)]: groups of the leftmost match. *)
Fixpoint search (r : re) (s : str) : option (list str) :=
  match match_at r s with
  | Some (_, caps) => Some caps
  | None =>
    match s with
    | [] => None
    | _ :: s' => search r s'
    end
  end.

Definition found (r : re) (s : str) : bool :=
  match search r s with Some _ => true | None => false end.

(** [re.findall(r, s)]: groups of the successive non-overlapping matches.
    [skip] counts the characters still covered by the previous match.
    (No pattern of the program matches the empty string.) *)
Fixpoint findall_from (r : re) (s : str) (skip : nat) : list (list str) :=
  match s with
  | [] => []
  | _ :: s' =>
    match skip with
    | S n => findall_from r s' n
    | O =>
      match match_at r s with
      | Some (len, caps) => caps :: findall_from r s' (pred len)
      | None => findall_from r s' 0
      end
    end
  end.

Definition findall (r : re) (s : str) : list (list str) := findall_from r s 0.

Fixpoint lit (s : str) : re :=
  match s with
  | [] => Eps
  | [c] => Chr c
  | c :: s' => Seq (Chr c) (lit s')
  end.

Fixpoint seq (rs : list re) : re :=
  match rs with
  | [] => Eps
  | [r] => r
  | r :: rs' => Seq r (seq rs')
  end.

Definition opt (c : N) : re := Rep (N.eqb c) 0 1.

End Re.

(* ===================================================================== *)
(** * Numbers in text *)
(* ===================================================================== *)

Fixpoint uint_digits (d : Decimal.uint) : str :=
  match d with
  | Decimal.Nil => []
  | Decimal.D0 r => 48%N :: uint_digits r
  | Decimal.D1 r => 49%N :: uint_digits r
  | Decimal.D2 r => 50%N :: uint_digits r
  | Decimal.D3 r => 51%N :: uint_digits r
  | Decimal.D4 r => 52%N :: uint_digits r
  | Decimal.D5 r => 53%N :: uint_digits r
  | Decimal.D6 r => 54%N :: uint_digits r
  | Decimal.D7 r => 55%N :: uint_digits r
  | Decimal.D8 r => 56%N :: uint_digits r
  | Decimal.D9 r => 57%N :: uint_digits r
  end.

(** [f"{z:0{w}d}"] for the non-negative numbers the program formats
    (hours, minutes, days, months, years). *)
Definition fmt_d (w : nat) (z : Z) : str :=
  let ds := uint_digits (N.to_uint (Z.to_N z)) in
  repeat 48%N (w - List.length ds) ++ ds.

Fixpoint lstrip (s : str) : str :=
  match s with
  | c :: s' => if is_space c then lstrip s' else s
  | [] => []
  end.

(** [s.strip()] *)
Definition strip (s : str) : str := rev (lstrip (rev (lstrip s))).

Fixpoint digits_value (acc : Z) (s : str) : result Z :=
  match s with
  | [] => Ok acc
  | c :: s' =>
    match digit_value c with
    | Some v => digits_value (10 * acc + Z.of_N v) s'
    | None => Raise ValueError
    end
  end.

(** [int(s)] on the unsigned decimal texts the program converts. *)
Definition py_int (s : str) : result Z :=
  match strip s with
  | [] => Raise ValueError
  | ds => digits_value 0 ds
  end.

(* ===================================================================== *)
(** * [datetime] *)
(* ===================================================================== *)

(** Proleptic Gregorian ordinals, as in CPython's [datetime]. *)
Definition _is_leap (year : Z) : bool :=
  (year mod 4 =? 0) && (negb (year mod 100 =? 0) || (year mod 400 =? 0)).

Definition _DAYS_IN_MONTH (month : Z) : Z :=
  nth (Z.to_nat month) [-1; 31; 28; 31; 30; 31; 30; 31; 31; 30; 31; 30; 31] 0.

Definition _DAYS_BEFORE_MONTH (month : Z) : Z :=
  nth (Z.to_nat month)
    [-1; 0; 31; 59; 90; 120; 151; 181; 212; 243; 273; 304; 334] 0.

Definition _days_before_year (year : Z) : Z :=
  let y := year - 1 in y * 365 + y / 4 - y / 100 + y / 400.

Definition _days_in_month (year month : Z) : Z :=
  if (month =? 2) && _is_leap year then 29 else _DAYS_IN_MONTH month.

Definition _days_before_month (year month : Z) : Z :=
  _DAYS_BEFORE_MONTH month + (if (2 <? month) && _is_leap year then 1 else 0).

Definition _ymd2ord (year month day : Z) : Z :=
  _days_before_year year + _days_before_month year month + day.

Definition _ord2ymd (n0 : Z) : Z * Z * Z :=
  let n := n0 - 1 in
  let n400 := n / 146097 in
  let n := n mod 146097 in
  let year := n400 * 400 + 1 in
  let n100 := n / 36524 in
  let n := n mod 36524 in
  let n4 := n / 1461 in
  let n := n mod 1461 in
  let n1 := n / 365 in
  let n := n mod 365 in
  let year := year + n100 * 100 + n4 * 4 + n1 in
  if (n1 =? 4) || (n100 =? 4) then (year - 1, 12, 31)
  else
    let leapyear := (n1 =? 3) && (negb (n4 =? 24) || (n100 =? 3)) in
    let month := Z.shiftr (n + 50) 5 in
    let preceding :=
      _DAYS_BEFORE_MONTH month + (if (2 <? month) && leapyear then 1 else 0) in
    if n <? preceding then
      let month := month - 1 in
      let preceding :=
        preceding
        - (_DAYS_IN_MONTH month + (if (month =? 2) && leapyear then 1 else 0)) in
      (year, month, n - preceding + 1)
    else (year, month, n - preceding + 1).

(** A [datetime] value.  Seconds are not represented: nothing the program
    prints or stores depends on them.  [tzinfo] is the UTC offset in
    minutes of an aware value and [None] for a naive one. *)
Record datetime := mk_datetime {
  year : Z; month : Z; day : Z; hour : Z; minute : Z;
  tzinfo : option Z
}.

(** [datetime(year, month, day)]: naive, midnight, [ValueError] on an
    impossible date. *)
Definition datetime_new (y m d : Z) : result datetime :=
  if (1 <=? y) && (y <=? 9999) && (1 <=? m) && (m <=? 12)
     && (1 <=? d) && (d <=? _days_in_month y m)
  then Ok (mk_datetime y m d 0 0 None)
  else Raise ValueError.

Definition toordinal (t : datetime) : Z := _ymd2ord (year t) (month t) (day t).

(** Monday is 0. *)
Definition weekday (t : datetime) : Z := (toordinal t + 6) mod 7.

Definition minutes_of (t : datetime) : Z :=
  (toordinal t * 24 + hour t) * 60 + minute t.

(** [a < b].  Ordering a naive against an aware value raises
    [TypeError: can't compare offset-naive and offset-aware datetimes]. *)
Definition datetime_lt (a b : datetime) : result bool :=
  match tzinfo a, tzinfo b with
  | None, None => Ok (minutes_of a <? minutes_of b)
  | Some oa, Some ob => Ok (minutes_of a - oa <? minutes_of b - ob)
  | _, _ => Raise TypeError
  end.

(** [t + timedelta(days=n)] *)
Definition add_days (t : datetime) (n : Z) : datetime :=
  let '(y, m, d) := _ord2ymd (toordinal t + n) in
  mk_datetime y m d (hour t) (minute t) (tzinfo t).

(** [t.strftime('%Y-%m-%d')] and [t.strftime('%H:%M')] *)
Definition strftime_ymd (t : datetime) : str :=
  fmt_d 4 (year t) ++ [45%N] ++ fmt_d 2 (month t) ++ [45%N] ++ fmt_d 2 (day t).

Definition hhmm (h m : Z) : str := fmt_d 2 h ++ [58%N] ++ fmt_d 2 m.

Definition strftime_HM (t : datetime) : str := hhmm (hour t) (minute t).

Module Strptime.
Import Re.

Definition range (lo hi : N) (c : N) : bool := ((lo <=? c) && (c <=? hi))%N.

(** The regular expressions [_strptime] compiles the directives to. *)
Definition re_Y : re := Grp (seq [Cls is_digit; Cls is_digit; Cls is_digit; Cls is_digit]).
Definition re_m : re :=
  Grp (Alt (Seq (Chr 49) (Cls (range 48 50)))
      (Alt (Seq (Chr 48) (Cls (range 49 57))) (Cls (range 49 57)))).
Definition re_d : re :=
  Grp (Alt (Seq (Chr 51) (Cls (range 48 49)))
      (Alt (Seq (Cls (range 49 50)) (Cls is_digit))
      (Alt (Seq (Chr 48) (Cls (range 49 57)))
      (Alt (Cls (range 49 57)) (Seq (Chr 32) (Cls (range 49 57))))))).
Definition re_H : re :=
  Grp (Alt (Seq (Chr 50) (Cls (range 48 51)))
      (Alt (Seq (Cls (range 48 49)) (Cls is_digit)) (Cls is_digit))).
Definition re_M : re :=
  Grp (Alt (Seq (Cls (range 48 53)) (Cls is_digit)) (Cls is_digit)).

(** [_strptime]: match at the start, then refuse unconverted data. *)
Definition parse (r : re) (s : str) : result (list str) :=
  match match_at r s with
  | Some (len, caps) =>
    if Nat.eqb len (List.length s) then Ok caps else Raise ValueError
  | None => Raise ValueError
  end.

End Strptime.

(** [datetime.strptime(s, "%H:%M")], as minutes after midnight. *)
Definition strptime_HM (s : str) : result Z :=
  caps <- Strptime.parse (Re.seq [Strptime.re_H; Re.Chr 58; Strptime.re_M]) s ;;
  h <- py_int (nth 0 caps []) ;;
  m <- py_int (nth 1 caps []) ;;
  Ok (h * 60 + m).

(** [datetime.strptime(s, "%Y-%m-%d")], as a naive midnight. *)
Definition strptime_ymd (s : str) : result datetime :=
  caps <- Strptime.parse
    (Re.seq [Strptime.re_Y; Re.Chr 45; Strptime.re_m; Re.Chr 45; Strptime.re_d]) s ;;
  y <- py_int (nth 0 caps []) ;;
  m <- py_int (nth 1 caps []) ;;
  d <- py_int (nth 2 caps []) ;;
  datetime_new y m d.

(** [jst.localize(datetime.strptime(f"{date_str} {t}", "%Y-%m-%d %H:%M"))]
    as an instant, in minutes.  The format is read field by field: for a
    date and a time without blanks this is what the joined parse does. *)
Definition strptime_date_time (date_str t : str) : result Z :=
  d <- strptime_ymd date_str ;;
  hm <- strptime_HM t ;;
  Ok (toordinal d * 1440 + hm).

(** [t.strftime('%H:%M')] of an instant. *)
Definition strftime_HM_at (t : Z) : str :=
  let m := t mod 1440 in hhmm (m / 60) (m mod 60).

(** A loop body that may raise, run over a list from left to right. *)
Fixpoint foldM {A B} (f : A -> B -> result A) (l : list B) (a : A) : result A :=
  match l with
  | [] => Ok a
  | b :: l' => a' <- f a b ;; foldM f l' a'
  end.

(* ===================================================================== *)
(** * src/ai_service.py *)
(* ===================================================================== *)

Module AiService.
Import Re.

(** One element of [parsed['dates']].  [d.get(k)] is the field; a missing
    key and [None] are both [None]. *)
Record entry := mk_entry {
  date : option str;
  time : option str;
  end_time : option str;
  end_date : option str;
  title : option str;
  description : option str
}.

(** The upstream guess, [parsed]. *)
Record parsed := mk_parsed {
  task_type : option str;
  dates : option (list entry);
  location : option str;
  travel_time_minutes : option Z;
  error : option str
}.

(** Truth value of [d.get(k)]: set and not empty. *)
Definition truthy (o : option str) : bool :=
  match o with
  | Some (_ :: _) => true
  | _ => false
  end.

Definition set_date (d : entry) (v : str) : entry :=
  mk_entry (Some v) (time d) (end_time d) (end_date d) (title d) (description d).
Definition set_time (d : entry) (v : str) : entry :=
  mk_entry (date d) (Some v) (end_time d) (end_date d) (title d) (description d).
Definition set_end_time (d : entry) (v : str) : entry :=
  mk_entry (date d) (time d) (Some v) (end_date d) (title d) (description d).
Definition set_end_date (d : entry) (v : str) : entry :=
  mk_entry (date d) (time d) (end_time d) (Some v) (title d) (description d).
Definition set_title (d : entry) (v : str) : entry :=
  mk_entry (date d) (time d) (end_time d) (end_date d) (Some v) (description d).
Definition set_dates (p : parsed) (ds : list entry) : parsed :=
  mk_parsed (task_type p) (Some ds) (location p) (travel_time_minutes p) (error p).

Definition or_empty (o : option str) : str :=
  match o with Some s => s | None => [] end.

Definition is_add_event (tt : option str) : bool :=
  opt_str_eqb tt (Some (u "add_event")).

(** [any(d.get('date') == date_str and d.get('time') == start_time and
    d.get('end_time') == end_time for d in new_dates)] *)
Definition same_triple (date_str start_time end_time' : str) (d : entry) : bool :=
  opt_str_eqb (date d) (Some date_str) && opt_str_eqb (time d) (Some start_time)
  && opt_str_eqb (end_time d) (Some end_time').

(** [f"予定（{date} {t}〜{e}）"] *)
Definition default_title (date_str t e : str) : str :=
  u "予定（" ++ date_str ++ [32%N] ++ t ++ u "〜" ++ e ++ u "）".

(** ** Patterns *)

Definition digits12 : re := Grp (Rep is_digit 1 2).
Definition num12 : re := Grp (Rep is_ascii_digit 1 2).
Definition num02 : re := Grp (Rep is_ascii_digit 0 2).
(** [[\-〜~]] *)
Definition dash : re := Cls (fun c => existsb (N.eqb c) (u "-〜~")).
Definition colon_opt : re := opt 58.
Definition ji_opt : re := Rep (fun c => existsb (N.eqb c) (u "時")) 0 1.

Definition re_range : re := seq [digits12; dash; digits12; lit (u "時")].
Definition re_ikou : re := seq [digits12; lit (u "時以降")].
Definition re_allday : re := lit (u "終日").
Definition re_tomorrow : re := lit (u "明日").
Definition kyou : str := u "今日".
Definition honjitsu : str := u "本日".
Definition re_next_week : re := lit (u "来週").
Definition re_week_from_today : re := lit (u "今日から1週間").

(** [HH[:MM]-HH[:MM]] with its four groups. *)
Definition time_pattern : re :=
  seq [num12; colon_opt; num02; dash; num12; colon_opt; num02].
Definition pattern1 : re :=
  seq [digits12; Chr 47; digits12;
       Star (fun c => is_space c || N.eqb c 12288); time_pattern].
Definition pattern2 : re :=
  seq [Cls (fun c => existsb (N.eqb c) (u "・-")); Star is_space;
       digits12; Chr 47; digits12; Star is_space; num12; Chr 45; num12;
       lit (u "時")].
Definition pattern3 : re :=
  seq [digits12; Chr 47; digits12; Star is_space; num12; ji_opt; Chr 45;
       num12; ji_opt].
Definition pattern4 : re :=
  seq [digits12; lit (u "日"); Star is_space; time_pattern].
Definition pattern5 : re :=
  seq [digits12; lit (u "日"); Star is_space; time_pattern; Chr 47; time_pattern].
Definition re_day : re := seq [digits12; lit (u "日")].
(** [(本日|今日)(\d{1,2})時] *)
Definition re_today_hour : re :=
  seq [Grp (Alt (lit honjitsu) (lit kyou)); digits12; lit (u "時")].
(** [^\d{1,2}時$] *)
Definition re_hour_word : re := seq [Rep is_digit 1 2; lit (u "時"); Eos].

Definition travel_keywords : list str :=
  [u "移動"; u "移動あり"; u "移動時間"; u "移動必要"].

(** ** Formatting of times *)

(** [f"{int(h):02d}:00"] *)
Definition hh00 (h : Z) : str := fmt_d 2 h ++ u ":00".

(** [f"{int(sh):02d}:{sm if sm else '00'}"] *)
Definition hh_mm (sh sm : str) : result str :=
  h <- py_int sh ;;
  Ok (fmt_d 2 h ++ [58%N] ++ match sm with [] => u "00" | _ => sm end).

(** [(datetime.strptime(t, "%H:%M") + timedelta(hours=1)).strftime('%H:%M')] *)
Definition one_hour_later (t : option str) : result str :=
  match t with
  | Some s => hm <- strptime_HM s ;; Ok (strftime_HM_at (hm + 60))
  | None => Raise TypeError
  end.

(** ** Step 1: repair of the upstream entries *)

(** The loop state: [allday_dates] (a set, only tested and grown) and
    [new_dates]. *)
Record state := mk_state {
  allday_dates : list (option str);
  new_dates : list entry
}.

Definition push (st : state) (d : entry) : state :=
  mk_state (allday_dates st) (new_dates st ++ [d]).

(** [phrase = d.get('description', '') or original_text] *)
Definition phrase_of (d : entry) (original_text : str) : str :=
  match description d with
  | Some (c :: s) => c :: s
  | _ => original_text
  end.

Definition complete (d : entry) : bool := truthy (time d) && truthy (end_time d).

(** Range cue [H-H時]. *)
Definition fill_range (phrase : str) (d : entry) : result entry :=
  match search re_range phrase with
  | Some caps =>
    h1 <- py_int (nth 0 caps []) ;;
    h2 <- py_int (nth 1 caps []) ;;
    Ok (set_end_time (set_time d (hh00 h1)) (hh00 h2))
  | None => Ok d
  end.

(** [H時以降]. *)
Definition fill_ikou (phrase : str) (d : entry) : result entry :=
  if (negb (truthy (time d)) || negb (truthy (end_time d))) && found re_ikou phrase
  then
    match search re_ikou phrase with
    | Some caps =>
      h <- py_int (nth 0 caps []) ;;
      Ok (set_end_time (set_time d (hh00 h)) (u "23:59"))
    | None => Ok d
    end
  else Ok d.

(** The condition of the all-day branch. *)
Definition is_allday (phrase : str) (d : entry) : bool :=
  (negb (truthy (time d)) && negb (truthy (end_time d))) || found re_allday phrase.

(** 明日 *)
Definition fill_tomorrow (now : datetime) (phrase : str) (d : entry) : entry :=
  if found re_tomorrow phrase then
    let d := set_date d (strftime_ymd (add_days now 1)) in
    let d := if negb (truthy (time d)) then set_time d (u "08:00") else d in
    if negb (truthy (end_time d)) then set_end_time d (u "23:59") else d
  else d.

(** 今日 and 本日: the same block, once per word. *)
Definition fill_today (word : str) (now : datetime) (phrase : str) (d : entry)
    : result entry :=
  if found (lit word) phrase then
    let d := set_date d (strftime_ymd now) in
    d <- match search (seq [lit word; digits12; lit (u "時")]) phrase with
         | Some caps =>
           hour <- py_int (nth 0 caps []) ;;
           Ok (set_end_time (set_time d (hh00 hour)) (hh00 (hour + 1)))
         | None =>
           Ok (if negb (truthy (time d)) then set_time d (strftime_HM now) else d)
         end ;;
    if truthy (time d) then
      e <- one_hour_later (time d) ;; Ok (set_end_time d e)
    else Ok d
  else Ok d.

(** 来週: the Monday after today and the six days that follow. *)
Definition days_until_next_monday (now : datetime) : Z :=
  let n := (7 - weekday now) mod 7 in
  if n =? 0 then 7 else n.

Definition week_dates (now : datetime) : list str :=
  let next_monday := add_days now (days_until_next_monday now) in
  map (fun i => strftime_ymd (add_days next_monday i)) [0; 1; 2; 3; 4; 5; 6].

Definition week_entry (week_date : str) : entry :=
  mk_entry (Some week_date) (Some (u "08:00")) (Some (u "23:59")) None None None.

Definition add_week_entry (nd : list entry) (week_date : str) : list entry :=
  if existsb (fun existing => opt_str_eqb (date existing) (Some week_date)) nd
  then nd
  else nd ++ [week_entry week_date].

(** 今日から1週間 *)
Definition fill_week_from_today (now : datetime) (phrase : str) (d : entry) : entry :=
  if found re_week_from_today phrase then
    let d := set_date d (strftime_ymd now) in
    let d := set_end_date d (strftime_ymd (add_days now 6)) in
    set_end_time (set_time d (u "00:00")) (u "23:59")
  else d.

(** A start without an end lasts one hour. *)
Definition fill_end_time (d : entry) : result entry :=
  if truthy (time d) && negb (truthy (end_time d)) then
    e <- one_hour_later (time d) ;; Ok (set_end_time d e)
  else Ok d.

Definition fill_title (tt : option str) (d : entry) : entry :=
  if negb (truthy (title d)) then
    if truthy (description d) then set_title d (or_empty (description d))
    else if is_add_event tt then
      set_title d (default_title (or_empty (date d)) (or_empty (time d))
                     (or_empty (end_time d)))
    else d
  else d.

(** One iteration of [for d in parsed['dates']]. *)
Definition supplement_entry (now : datetime) (original_text : str)
    (tt : option str) (st : state) (d : entry) : result state :=
  let phrase := phrase_of d original_text in
  if complete d then Ok (push st d)
  else
    d <- fill_range phrase d ;;
    d <- fill_ikou phrase d ;;
    let allday := is_allday phrase d in
    let d := if allday
             then set_end_time (set_time d (u "00:00")) (u "23:59") else d in
    if allday && existsb (opt_str_eqb (date d)) (allday_dates st)
    then Ok st
    else
      let st := if allday
                then mk_state (date d :: allday_dates st) (new_dates st)
                else st in
      let d := fill_tomorrow now phrase d in
      d <- fill_today kyou now phrase d ;;
      d <- fill_today honjitsu now phrase d ;;
      if found re_next_week phrase
      then Ok (mk_state (allday_dates st)
                 (fold_left add_week_entry (week_dates now) (new_dates st)))
      else
        let d := fill_week_from_today now phrase d in
        d <- fill_end_time d ;;
        Ok (push st (fill_title tt d)).

(** ** Step 2: candidates from the raw text *)

(** The body of the [try] of the month/day patterns: this year, or the
    next when the date is already past. *)
Definition this_or_next_year (now : datetime) (month_s day_s : str)
    : result datetime :=
  m <- py_int month_s ;;
  dd <- py_int day_s ;;
  dt <- datetime_new (year now) m dd ;;
  past <- datetime_lt dt now ;;
  if past then datetime_new (year now + 1) m dd else Ok dt.

(** The same for a day without a month: this month, or the next. *)
Definition this_or_next_month (now : datetime) (dd : Z) : result datetime :=
  dt <- datetime_new (year now) (month now) dd ;;
  past <- datetime_lt dt now ;;
  if past then
    if month now =? 12 then datetime_new (year now + 1) 1 dd
    else datetime_new (year now) (month now + 1) dd
  else Ok dt.

Definition candidate (tt : option str) (date_str start_time end_time' : str)
    : entry :=
  mk_entry (Some date_str) (Some start_time) (Some end_time') None
    (if is_add_event tt
     then Some (default_title date_str start_time end_time') else None)
    (Some []).

(** Append unless the (date, start, end) triple is already there. *)
Definition add_candidate (tt : option str) (date_str start_time end_time' : str)
    (nd : list entry) : list entry :=
  if existsb (same_triple date_str start_time end_time') nd then nd
  else nd ++ [candidate tt date_str start_time end_time'].

(** Group [i] of a [findall] tuple. *)
Definition grp (m : list str) (i : nat) : str := nth i m [].

(** [except Exception: continue] *)
Definition or_continue {A B} (r : result A) (skip : result B)
    (k : A -> result B) : result B :=
  match r with
  | Ok a => k a
  | Raise _ => skip
  end.

Definition scan1 (now : datetime) (tt : option str) (nd : list entry)
    (m : list str) : result (list entry) :=
  or_continue (this_or_next_year now (grp m 0) (grp m 1)) (Ok nd) (fun dt =>
    start_time <- hh_mm (grp m 2) (grp m 3) ;;
    end_time' <- hh_mm (grp m 4) (grp m 5) ;;
    Ok (add_candidate tt (strftime_ymd dt) start_time end_time' nd)).

(** Patterns 2 and 3 share their loop body. *)
Definition scan23 (now : datetime) (tt : option str) (nd : list entry)
    (m : list str) : result (list entry) :=
  or_continue (this_or_next_year now (grp m 0) (grp m 1)) (Ok nd) (fun dt =>
    sh <- py_int (grp m 2) ;;
    eh <- py_int (grp m 3) ;;
    Ok (add_candidate tt (strftime_ymd dt) (hh00 sh) (hh00 eh) nd)).

Definition scan4 (now : datetime) (tt : option str) (nd : list entry)
    (m : list str) : result (list entry) :=
  or_continue (dd <- py_int (grp m 0) ;; this_or_next_month now dd) (Ok nd)
    (fun dt =>
    start_time <- hh_mm (grp m 1) (grp m 2) ;;
    end_time' <- hh_mm (grp m 3) (grp m 4) ;;
    Ok (add_candidate tt (strftime_ymd dt) start_time end_time' nd)).

Definition scan5 (now : datetime) (tt : option str) (nd : list entry)
    (m : list str) : result (list entry) :=
  or_continue (dd <- py_int (grp m 0) ;; this_or_next_month now dd) (Ok nd)
    (fun dt =>
    start_time1 <- hh_mm (grp m 1) (grp m 2) ;;
    end_time1 <- hh_mm (grp m 3) (grp m 4) ;;
    let nd := add_candidate tt (strftime_ymd dt) start_time1 end_time1 nd in
    start_time2 <- hh_mm (grp m 5) (grp m 6) ;;
    end_time2 <- hh_mm (grp m 7) (grp m 8) ;;
    Ok (add_candidate tt (strftime_ymd dt) start_time2 end_time2 nd)).

(** [s.split(c)] *)
Fixpoint split_on (c : N) (s : str) : list str :=
  match s with
  | [] => [[]]
  | x :: s' =>
    if N.eqb x c then [] :: split_on c s'
    else match split_on c s' with
         | l :: ls => (x :: l) :: ls
         | [] => [[x]]
         end
  end.

(** The line-by-line scan: a day, then every time range of the line. *)
Definition scan_line (now : datetime) (tt : option str) (nd : list entry)
    (line0 : str) : result (list entry) :=
  let line := strip line0 in
  match line with
  | [] => Ok nd
  | _ =>
    match search re_day line with
    | None => Ok nd
    | Some caps =>
      dd <- py_int (grp caps 0) ;;
      or_continue (this_or_next_month now dd) (Ok nd) (fun dt =>
        foldM (fun nd time_match =>
                 start_time <- hh_mm (grp time_match 0) (grp time_match 1) ;;
                 end_time' <- hh_mm (grp time_match 2) (grp time_match 3) ;;
                 Ok (add_candidate tt (strftime_ymd dt) start_time end_time' nd))
              (findall time_pattern line) nd)
    end
  end.

Definition scan_text (now : datetime) (tt : option str) (original_text : str)
    (nd : list entry) : result (list entry) :=
  nd <- foldM (scan1 now tt) (findall pattern1 original_text) nd ;;
  nd <- foldM (scan23 now tt) (findall pattern2 original_text) nd ;;
  nd <- foldM (scan23 now tt) (findall pattern3 original_text) nd ;;
  nd <- foldM (scan4 now tt) (findall pattern4 original_text) nd ;;
  nd <- foldM (scan5 now tt) (findall pattern5 original_text) nd ;;
  foldM (scan_line now tt) (split_on 10 original_text) nd.

(** ** Step 3: 本日/今日 when nothing was found *)

(** [s.split()] *)
Fixpoint split_ws_from (cur : str) (s : str) : list str :=
  match s with
  | [] => match cur with [] => [] | _ => [rev cur] end
  | c :: s' =>
    if is_space c then
      match cur with
      | [] => split_ws_from [] s'
      | _ => rev cur :: split_ws_from [] s'
      end
    else split_ws_from (c :: cur) s'
  end.

Definition split_ws (s : str) : list str := split_ws_from [] s.

Fixpoint build_title (title' : str) (parts : list str) : str :=
  match parts with
  | [] => title'
  | part :: rest =>
    if existsb (str_eqb part) travel_keywords then title'
    else if negb (match match_at re_hour_word part with Some _ => true | None => false end)
            && negb (existsb (str_eqb part) [honjitsu; kyou])
    then build_title ((match title' with [] => [] | _ => title' ++ [32%N] end) ++ part) rest
    else build_title title' rest
  end.

Definition today_fallback (now : datetime) (original_text : str)
    (nd : list entry) : result (list entry) :=
  if (contains honjitsu original_text || contains kyou original_text)
     && match nd with [] => true | _ => false end
  then
    match search re_today_hour original_text with
    | Some caps =>
      hour <- py_int (grp caps 1) ;;
      let title' := build_title [] (split_ws original_text) in
      let title' := match title' with [] => u "予定" | _ => title' end in
      Ok (nd ++ [mk_entry (Some (strftime_ymd now)) (Some (hh00 hour))
                   (Some (hh00 (hour + 1))) None (Some title') (Some [])])
    | None => Ok nd
    end
  else Ok nd.

(** ** Step 4: travel buffers ([_add_travel_time]) *)

Definition _should_add_travel_time (date_info : entry) (original_text : str) : bool :=
  existsb (fun keyword => contains keyword original_text) travel_keywords.

Definition _create_travel_events (main_event : entry) : result (list entry) :=
  match date main_event, time main_event, end_time main_event with
  | Some date_str, Some start_time, Some end_time' =>
    start_dt <- strptime_date_time date_str start_time ;;
    end_dt <- strptime_date_time date_str end_time' ;;
    Ok [mk_entry (Some date_str) (Some (strftime_HM_at (start_dt - 60)))
          (Some (strftime_HM_at start_dt)) None
          (Some (u "移動時間（往路）")) (Some (u "移動のための時間"));
        mk_entry (Some date_str) (Some (strftime_HM_at end_dt))
          (Some (strftime_HM_at (end_dt + 60))) None
          (Some (u "移動時間（復路）")) (Some (u "移動のための時間"))]
  | _, _, _ => Raise KeyError
  end.

Definition add_unless_duplicate (nd : list entry) (travel_event : entry)
    : list entry :=
  if existsb (fun existing_date =>
                opt_str_eqb (date existing_date) (date travel_event)
                && opt_str_eqb (time existing_date) (time travel_event)
                && opt_str_eqb (end_time existing_date) (end_time travel_event)) nd
  then nd
  else nd ++ [travel_event].

Definition _add_travel_time (dates' : list entry) (original_text : str)
    : result (list entry) :=
  if negb (existsb (fun keyword => contains keyword original_text) travel_keywords)
  then Ok dates'
  else
    foldM (fun nd date_info =>
             let nd := nd ++ [date_info] in
             if _should_add_travel_time date_info original_text then
               travel_events <- _create_travel_events date_info ;;
               Ok (fold_left add_unless_duplicate travel_events nd)
             else Ok nd)
          dates' [].

(** ** [_supplement_times] *)

Definition jst : Z := 540.

(** [datetime.now(jst)]: the wall clock read as an aware value. *)
Definition datetime_now (wall : datetime) : datetime :=
  mk_datetime (year wall) (month wall) (day wall) (hour wall) (minute wall)
    (Some jst).

Definition _supplement_times (wall : datetime) (parsed' : option parsed)
    (original_text : str) : result (option parsed) :=
  let now := datetime_now wall in
  match parsed' with
  | None => Ok None
  | Some p =>
    match dates p with
    | None => Ok (Some p)
    | Some ds =>
      st <- foldM (supplement_entry now original_text (task_type p)) ds
              (mk_state [] []) ;;
      nd <- scan_text now (task_type p) original_text (new_dates st) ;;
      nd <- today_fallback now original_text nd ;;
      nd <- (if is_add_event (task_type p)
             then _add_travel_time nd original_text else Ok nd) ;;
      Ok (Some (set_dates p nd))
    end
  end.

End AiService.

(* ===================================================================== *)
(** * src/calendar_service.py *)
(* ===================================================================== *)

Module CalendarService.

(** The [start]/[end] texts of a calendar event, once read: a timed event
    (['T' in start]) gives two instants, already moved to the local zone;
    a date-only event gives the local midnight its day starts at.
    Instants count minutes, as everything the bot prints. *)
Inductive span :=
| DateTime (start_ev end_ev : Z)
| AllDayDate (allday_start : Z).

(** An element of the list [get_events_for_time_range] returns. *)
Record event := mk_event {
  title : str;
  when : span;
  location : str;
  is_all_day : bool
}.

(** A free slot [{'start': 'HH:MM', 'end': 'HH:MM'}]. *)
Record slot := mk_slot { slot_start : str; slot_end : str }.

(** The busy interval an event leaves inside the frame, if any. *)
Definition clip (start_dt end_dt : Z) (ev : event) : option (Z * Z) :=
  match when ev with
  | DateTime start_ev end_ev =>
    if (end_ev <=? start_dt) || (end_dt <=? start_ev) then None
    else Some (Z.max start_ev start_dt, Z.min end_ev end_dt)
  | AllDayDate allday_start =>
    let allday_end := allday_start + 1440 in
    if (allday_end <=? start_dt) || (end_dt <=? allday_start) then None
    else Some (Z.max allday_start start_dt, Z.min allday_end end_dt)
  end.

Fixpoint busy_times (start_dt end_dt : Z) (events : list event) : list (Z * Z) :=
  match events with
  | [] => []
  | ev :: rest =>
    match clip start_dt end_dt ev with
    | Some b => b :: busy_times start_dt end_dt rest
    | None => busy_times start_dt end_dt rest
    end
  end.

(** [sorted(busy_times, key=lambda x: x[0])]: stable, by start. *)
Fixpoint insert_by_start (b : Z * Z) (l : list (Z * Z)) : list (Z * Z) :=
  match l with
  | [] => [b]
  | c :: l' => if fst b <=? fst c then b :: l else c :: insert_by_start b l'
  end.

Definition sorted_by_start (l : list (Z * Z)) : list (Z * Z) :=
  fold_right insert_by_start [] l.

(** The sweep: [current_time] runs over the sorted busy intervals. *)
Fixpoint sweep (current_time : Z) (busy : list (Z * Z)) (end_dt : Z)
    : list (Z * Z) :=
  match busy with
  | [] => if current_time <? end_dt then [(current_time, end_dt)] else []
  | (busy_start, busy_end) :: rest =>
    (if current_time <? busy_start then [(current_time, busy_start)] else [])
    ++ sweep (Z.max current_time busy_end) rest end_dt
  end.

(** The free intervals before they are printed. *)
Definition free_intervals (start_dt end_dt : Z) (events : list event)
    : list (Z * Z) :=
  match events with
  | [] => [(start_dt, end_dt)]
  | _ =>
    match busy_times start_dt end_dt events with
    | [] => [(start_dt, end_dt)]
    | busy => sweep start_dt (sorted_by_start busy) end_dt
    end
  end.

Definition render (iv : Z * Z) : slot :=
  mk_slot (strftime_HM_at (fst iv)) (strftime_HM_at (snd iv)).

Definition find_free_slots_for_day (start_dt end_dt : Z) (events : list event)
    : list slot :=
  map render (free_intervals start_dt end_dt events).

End CalendarService.

(* ===================================================================== *)
(** * src/line_bot_handler.py *)
(* ===================================================================== *)

Module LineBotHandler.
Import CalendarService.

(** An element of [free_slots_by_frame]. *)
Record frame := mk_frame {
  frame_date : str;
  frame_start_time : str;
  frame_end_time : str;
  free_slots : list slot
}.

(** [is_all_day and (location in event_location or location in event_title)] *)
Definition is_location_marker (loc : str) (ev : event) : bool :=
  is_all_day ev && (contains loc (location ev) || contains loc (title ev)).

(** The location filter: [None] is the [continue] that skips the date. *)
Definition filter_events (loc : option str) (all_events : list event)
    : option (list event) :=
  match loc with
  | Some (c :: l) =>
    let has_location_event := existsb (is_location_marker (c :: l)) all_events in
    let filtered_events :=
      filter (fun ev => negb (is_location_marker (c :: l) ev)) all_events in
    if has_location_event then Some filtered_events else None
  | _ => Some (filter (fun ev => negb (is_all_day ev)) all_events)
  end.

Definition day_start : str := u "08:00".
Definition day_end : str := u "23:59".

(** The travel margin: every free slot loses [travel] minutes at both
    ends and is dropped when nothing is left. *)
Definition travel_filter (date_str : str) (travel : Z) (slots : list slot)
    : result (list slot) :=
  foldM (fun filtered_free_slots s =>
           slot_start_parsed <- strptime_date_time date_str (slot_start s) ;;
           slot_end_parsed <- strptime_date_time date_str (slot_end s) ;;
           let available_start := slot_start_parsed + travel in
           let available_end := slot_end_parsed - travel in
           if available_start <? available_end
           then Ok (filtered_free_slots
                    ++ [mk_slot (strftime_HM_at available_start)
                                (strftime_HM_at available_end)])
           else Ok filtered_free_slots)
        slots [].

Definition travel_active (travel_time_minutes : option Z) : option Z :=
  match travel_time_minutes with
  | Some t => if (negb (t =? 0)) && (0 <? t) then Some t else None
  | None => None
  end.

(** The [try] block of one date: [Ok None] is the [continue] of the
    location gate. *)
Definition frame_body (get_events_for_time_range : Z -> Z -> list event)
    (loc : option str) (travel_time_minutes : option Z)
    (date_str start_time end_time : str) : result (option frame) :=
  start_dt <- strptime_date_time date_str start_time ;;
  end_dt <- strptime_date_time date_str end_time ;;
  let all_events := get_events_for_time_range start_dt end_dt in
  match filter_events loc all_events with
  | None => Ok None
  | Some events =>
    let slot_start := str_max start_time day_start in
    let slot_end := str_min end_time day_end in
    slot_start_dt <- strptime_date_time date_str slot_start ;;
    slot_end_dt <- strptime_date_time date_str slot_end ;;
    free <- (if str_ltb slot_start slot_end then
               let free := find_free_slots_for_day slot_start_dt slot_end_dt events in
               match travel_active travel_time_minutes with
               | Some t => travel_filter date_str t free
               | None => Ok free
               end
             else Ok []) ;;
    Ok (Some (mk_frame date_str slot_start slot_end free))
  end.

(** One iteration of [for date_info in dates_info]: the frame appended to
    [free_slots_by_frame], if any. *)
Definition handle_date (get_events_for_time_range : Z -> Z -> list event)
    (loc : option str) (travel_time_minutes : option Z)
    (date_info : AiService.entry) : option frame :=
  match AiService.date date_info, AiService.time date_info,
        AiService.end_time date_info with
  | Some (c1 :: s1), Some (c2 :: s2), Some (c3 :: s3) =>
    let date_str := c1 :: s1 in
    let start_time := c2 :: s2 in
    let end_time := c3 :: s3 in
    match frame_body get_events_for_time_range loc travel_time_minutes
            date_str start_time end_time with
    | Ok r => r
    | Raise _ => Some (mk_frame date_str start_time end_time [])
    end
  | _, _, _ => None
  end.

End LineBotHandler.

(* ===================================================================== *)
(** * src/ai_service.py: the entry point and the reply *)
(* ===================================================================== *)

Module AiReply.
Import CalendarService LineBotHandler.

(** ** [extract_dates_and_times], once the model has answered *)

(** [date_info.get('title') or date_info.get('description')] for some
    element of [parsed['dates']]. *)
Definition has_title_or_description (ds : list AiService.entry) : bool :=
  existsb (fun date_info =>
             AiService.truthy (AiService.title date_info)
             || AiService.truthy (AiService.description date_info)) ds.

Definition set_task_type (p : AiService.parsed) (v : str) : AiService.parsed :=
  AiService.mk_parsed (Some v) (AiService.dates p) (AiService.location p)
    (AiService.travel_time_minutes p) (AiService.error p).

(** The dictionary returned when anything raised. *)
Definition error_guess : AiService.parsed :=
  AiService.mk_parsed None None None None
    (Some (u "イベント情報を正しく認識できませんでした。" ++ [10%N; 10%N]
           ++ u "・日時を打つと空き時間を返します" ++ [10%N]
           ++ u "・予定を打つとカレンダーに追加します" ++ [10%N; 10%N]
           ++ u "例：" ++ [10%N]
           ++ u "『明日の午前9時から会議を追加して』" ++ [10%N]
           ++ u "『来週月曜日の14時から打ち合わせ』")).

(** The forced task type: a guess whose entries carry neither a title nor
    a description is an availability query, whatever the model said. *)
Definition force_task_type (parsed' : option AiService.parsed)
    : option AiService.parsed :=
  match parsed' with
  | Some p =>
    match AiService.dates p with
    | Some ds =>
      if has_title_or_description ds then Some p
      else Some (set_task_type p (u "availability_check"))
    | None => Some p
    end
  | None => None
  end.

(** [parsed'] is what [_parse_ai_response] made of the model's answer. *)
Definition extract_dates_and_times (wall : datetime)
    (parsed' : option AiService.parsed) (text : str) : option AiService.parsed :=
  match AiService._supplement_times wall (force_task_type parsed') text with
  | Ok r => r
  | Raise _ => Some error_guess
  end.

(** ** [format_free_slots_response_by_frame] *)

Definition no_free_time : str := u "✅空き時間はありませんでした。".
Definition free_time_header : str := u "✅以下が空き時間です！" ++ [10%N; 10%N].

(** [==] and [<] on the tuples [(start, end)]. *)
Definition pair_eqb (a b : str * str) : bool :=
  str_eqb (fst a) (fst b) && str_eqb (snd a) (snd b).

Definition pair_ltb (a b : str * str) : bool :=
  if str_eqb (fst a) (fst b) then str_ltb (snd a) (snd b)
  else str_ltb (fst a) (fst b).

(** [s.add(x)], the set kept as a list without repetition. *)
Definition set_add (s : list (str * str)) (x : str * str) : list (str * str) :=
  if existsb (pair_eqb x) s then s else s ++ [x].

(** [date_slots]: a dictionary from dates to sets, in insertion order.
    [add_frame] is one turn of the first loop. *)
Fixpoint update (date : str) (f : list (str * str) -> list (str * str))
    (date_slots : list (str * list (str * str))) : list (str * list (str * str)) :=
  match date_slots with
  | [] => [(date, f [])]
  | (k, v) :: rest =>
    if str_eqb k date then (k, f v) :: rest else (k, v) :: update date f rest
  end.

Definition add_frame (date_slots : list (str * list (str * str))) (fr : frame)
    : list (str * list (str * str)) :=
  update (frame_date fr)
    (fun s => fold_left set_add
                (map (fun slot => (slot_start slot, slot_end slot)) (free_slots fr)) s)
    date_slots.

Fixpoint get (date : str) (date_slots : list (str * list (str * str)))
    : list (str * str) :=
  match date_slots with
  | [] => []
  | (k, v) :: rest => if str_eqb k date then v else get date rest
  end.

(** [sorted(l)]: stable, by [<]. *)
Fixpoint insert_sorted {A} (ltb : A -> A -> bool) (x : A) (l : list A) : list A :=
  match l with
  | [] => [x]
  | y :: l' => if ltb y x then y :: insert_sorted ltb x l' else x :: l
  end.

Definition sorted {A} (ltb : A -> A -> bool) (l : list A) : list A :=
  fold_right (insert_sorted ltb) [] l.

(** ["月火水木金土日"[dt.weekday()]] *)
Definition weekday_char (dt : datetime) : N :=
  nth (Z.to_nat (weekday dt)) (u "月火水木金土日") 0%N.

(** [f"{dt.month}/{dt.day}（{weekday}）\n"] *)
Definition date_line (dt : datetime) : str :=
  fmt_d 0 (month dt) ++ [47%N] ++ fmt_d 0 (day dt)
  ++ u "（" ++ [weekday_char dt] ++ u "）" ++ [10%N].

(** [f"・{start}〜{end}\n"] *)
Definition slot_line (p : str * str) : str :=
  u "・" ++ fst p ++ u "〜" ++ snd p ++ [10%N].

(** One turn of the second loop. *)
Definition add_date (date_slots : list (str * list (str * str)))
    (response date : str) : result str :=
  match sorted pair_ltb (get date date_slots) with
  | [] => Ok response
  | slots =>
    dt <- strptime_ymd date ;;
    Ok (response ++ date_line dt ++ flat_map slot_line slots)
  end.

Definition format_free_slots_response_by_frame (free_slots_by_frame : list frame)
    : result str :=
  match free_slots_by_frame with
  | [] => Ok no_free_time
  | _ =>
    let date_slots := fold_left add_frame free_slots_by_frame [] in
    response <- foldM (add_date date_slots)
                  (sorted str_ltb (map fst date_slots)) free_time_header ;;
    if str_eqb response free_time_header then Ok no_free_time else Ok response
  end.

End AiReply.

(* ===================================================================== *)
(** * src/line_bot_handler.py: the availability handlers *)
(* ===================================================================== *)

Module Availability.
Import CalendarService LineBotHandler AiReply.

(** What an [except Exception as e] of a handler may catch: an exception
    of the kinds above, or the [OverflowError] of date arithmetic. *)
Inductive failure := Exception (e : exn) | OverflowError.

(** A [TextSendMessage]: a text, or [f"{context}: {str(e)}"]. *)
Inductive reply :=
| Text (text : str)
| Failed (context : str) (e : failure).

(** The first loop of [_handle_availability_check]. *)
Definition free_slots_by_frame (get_events_for_time_range : Z -> Z -> list event)
    (loc : option str) (travel_time_minutes : option Z)
    (dates_info : list AiService.entry) : list frame :=
  flat_map (fun date_info =>
              match handle_date get_events_for_time_range loc travel_time_minutes
                      date_info with
              | Some fr => [fr]
              | None => []
              end) dates_info.

(** [_handle_availability_check] for a user who has authenticated, with
    both services up. *)
Definition _handle_availability_check
    (get_events_for_time_range : Z -> Z -> list event)
    (dates_info : list AiService.entry) (loc : option str)
    (travel_time_minutes : option Z) : reply :=
  match dates_info with
  | [] =>
    Text (u "日付を正しく認識できませんでした。" ++ [10%N; 10%N]
          ++ u "例: 「明日7/7 15:00〜15:30の空き時間を教えて」")
  | _ =>
    match format_free_slots_response_by_frame
            (free_slots_by_frame get_events_for_time_range loc
               travel_time_minutes dates_info) with
    | Ok response_text => Text response_text
    | Raise e => Failed (u "空き時間確認でエラーが発生しました") (Exception e)
    end
  end.

(** ** [_handle_month_availability] *)










End Availability.

(* ===================================================================== *)
(** * Vocabulary of the properties *)
(* ===================================================================== *)

(** What a pattern matches, declaratively: [matches r g rest caps] says
    that [r] accepts [g] when [rest] follows, closing groups [caps]. *)
Inductive matches : Re.re -> str -> str -> list str -> Prop :=
| M_Eps rest : matches Re.Eps [] rest []
| M_Chr c rest : matches (Re.Chr c) [c] rest []
| M_Cls (p : N -> bool) c rest : p c = true -> matches (Re.Cls p) [c] rest []
| M_Seq r1 r2 g1 g2 rest c1 c2 :
    matches r1 g1 (g2 ++ rest) c1 -> matches r2 g2 rest c2 ->
    matches (Re.Seq r1 r2) (g1 ++ g2) rest (c1 ++ c2)
| M_AltL r1 r2 g rest c : matches r1 g rest c -> matches (Re.Alt r1 r2) g rest c
| M_AltR r1 r2 g rest c : matches r2 g rest c -> matches (Re.Alt r1 r2) g rest c
| M_Rep (p : N -> bool) lo hi g rest :
    forallb p g = true -> (lo <= List.length g <= hi)%nat ->
    matches (Re.Rep p lo hi) g rest []
| M_Star (p : N -> bool) g rest : forallb p g = true -> matches (Re.Star p) g rest []
| M_Grp r g rest c : matches r g rest c -> matches (Re.Grp r) g rest (c ++ [g])
| M_Eos : matches Re.Eos [] [] [].

(** [l1] occurs in [l2], element by element and in order. *)
Inductive subseq {A : Type} : list A -> list A -> Prop :=
| subseq_nil l : subseq [] l
| subseq_keep x l1 l2 : subseq l1 l2 -> subseq (x :: l1) (x :: l2)
| subseq_skip x l1 l2 : subseq l1 l2 -> subseq l1 (x :: l2).

(** Half-open intervals of instants. *)
Definition covers (t : Z) (iv : Z * Z) : Prop := fst iv <= t < snd iv.

Definition disjoint (a b : Z * Z) : Prop := forall t, ~ (covers t a /\ covers t b).


(** A calendar event does not end before it starts. *)
Definition well_formed (ev : CalendarService.event) : Prop :=
  match CalendarService.when ev with
  | CalendarService.DateTime start_ev end_ev => start_ev <= end_ev
  | CalendarService.AllDayDate _ => True
  end.


(** The travel margin as the specification words it: replace
    [(start, end)] by [(start + T, end - T)], drop what is not of positive
    length. *)
Definition shrink (T : Z) (free : list (Z * Z)) : list (Z * Z) :=
  flat_map (fun iv =>
              if fst iv + T <? snd iv - T then [(fst iv + T, snd iv - T)] else [])
           free.

(** An entry that takes the all-day branch of the repair: it is incomplete
    and either carries the 終日 cue or has no time at all, also after the
    range and 以降 cues. *)
Definition takes_allday (original_text : str) (d : AiService.entry) : bool :=
  let phrase := AiService.phrase_of d original_text in
  negb (AiService.complete d)
  && (Re.found AiService.re_allday phrase
      || (negb (AiService.truthy (AiService.time d))
          && negb (AiService.truthy (AiService.end_time d))
          && negb (Re.found AiService.re_range phrase)
          && negb (Re.found AiService.re_ikou phrase))).

(** An all-day entry: 00:00 to 23:59. *)
Definition all_day (d : AiService.entry) : bool :=
  opt_str_eqb (AiService.time d) (Some (u "00:00"))
  && opt_str_eqb (AiService.end_time d) (Some (u "23:59")).

(** An upstream entry with an end but no start. *)
Definition only_end (d : AiService.entry) : bool :=
  negb (AiService.truthy (AiService.time d))
  && AiService.truthy (AiService.end_time d).

(** The entry list of a result of the normalizer. *)
Definition entries_of (r : result (option AiService.parsed)) : list AiService.entry :=
  match r with
  | Ok (Some p) =>
    match AiService.dates p with
    | Some ds => ds
    | None => []
    end
  | _ => []
  end.

(** ** Data of the worked examples *)

(** Clock readings: Tuesday 2025-07-01 12:00 and Wednesday 2025-07-09
    10:00. *)
Definition wall_0701 : datetime := mk_datetime 2025 7 1 12 0 None.
Definition wall_wednesday : datetime := mk_datetime 2025 7 9 10 0 None.

(** An upstream guess for an availability query. *)
Definition availability (ds : list AiService.entry) : AiService.parsed :=
  AiService.mk_parsed (Some (u "availability_check")) (Some ds) None None None.

(** An upstream entry with a date and times. *)
Definition entry_of (date_str start_time end_time : option str) : AiService.entry :=
  AiService.mk_entry date_str start_time end_time None None None.


(** The instant [h]:[m] of 2025-07-10, and a timed calendar event. *)
Definition on_0710 (h m : Z) : Z :=
  toordinal (mk_datetime 2025 7 10 0 0 None) * 1440 + h * 60 + m.

Definition meeting (start_ev end_ev : Z) : CalendarService.event :=
  CalendarService.mk_event (u "meeting")
    (CalendarService.DateTime start_ev end_ev) [] false.

(** An all-day calendar event of 2025-07-10. *)
Definition all_day_event (name : str) : CalendarService.event :=
  CalendarService.mk_event name (CalendarService.AllDayDate (on_0710 0 0)) [] true.

(** The frame of a date between two times. *)
Definition frame_of (date_str start_time end_time : string) : AiService.entry :=
  entry_of (Some (u date_str)) (Some (u start_time)) (Some (u end_time)).

Definition slot_of (start_time end_time : string) : CalendarService.slot :=
  CalendarService.mk_slot (u start_time) (u end_time).

(** [p] holds at the [n] integers from [i] on. *)
Fixpoint all_from (n : nat) (i : Z) (p : Z -> bool) : bool :=
  match n with
  | O => true
  | S n' => p i && all_from n' (i + 1) p
  end.

(** ** Vocabulary of the free/busy sweep *)

(** The instants free in a frame: those some free interval covers. *)
Definition free_at (start_dt end_dt : Z) (events : list CalendarService.event)
    (t : Z) : Prop :=
  Exists (covers t) (CalendarService.free_intervals start_dt end_dt events).

(** An event that ends before the frame starts or starts after it ends. *)
Definition outside (start_dt end_dt : Z) (ev : CalendarService.event) : Prop :=
  match CalendarService.when ev with
  | CalendarService.DateTime start_ev end_ev =>
    end_ev <= start_dt \/ end_dt <= start_ev
  | CalendarService.AllDayDate allday_start =>
    allday_start + 1440 <= start_dt \/ end_dt <= allday_start
  end.

(** An event that starts no later than the frame and ends no earlier. *)
Definition spans (start_dt end_dt : Z) (ev : CalendarService.event) : Prop :=
  match CalendarService.when ev with
  | CalendarService.DateTime start_ev end_ev =>
    start_ev <= start_dt /\ end_dt <= end_ev
  | CalendarService.AllDayDate allday_start =>
    allday_start <= start_dt /\ end_dt <= allday_start + 1440
  end.



(** ** Vocabulary of dates *)

(** The pattern [_strptime] compiles [%Y-%m-%d] to. *)
Definition re_ymd : Re.re :=
  Re.seq [Strptime.re_Y; Re.Chr 45; Strptime.re_m; Re.Chr 45; Strptime.re_d].

(** A day of the calendar, in the years [datetime] has. *)
Definition valid_date (t : datetime) : Prop :=
  1 <= year t <= 9999 /\ 1 <= month t <= 12
  /\ 1 <= day t <= _days_in_month (year t) (month t).

(** The naive midnight of the day of [t]: what [strptime] makes of a
    date. *)
Definition midnight (t : datetime) : datetime :=
  mk_datetime (year t) (month t) (day t) 0 0 None.



(** ** Vocabulary of the reply *)

(** The dated slots of a frame list: every [(date, (start, end))] some
    frame offers. *)
Definition slot_entries (frames : list LineBotHandler.frame)
    : list (str * (str * str)) :=
  flat_map (fun fr =>
              map (fun slot => (LineBotHandler.frame_date fr,
                                (CalendarService.slot_start slot,
                                 CalendarService.slot_end slot)))
                  (LineBotHandler.free_slots fr)) frames.

(** A text without white space. *)
Definition blank_free (o : option str) : Prop :=
  match o with
  | Some s => forallb (fun c => negb (is_space c)) s = true
  | None => True
  end.

(** The days a reply lists, in order, each with its slots in order: the
    dates of [date_slots] whose set is not empty. *)
Definition listed_days (frames : list LineBotHandler.frame)
    : list (str * list (str * str)) :=
  let date_slots := fold_left AiReply.add_frame frames [] in
  flat_map (fun date =>
              match AiReply.sorted AiReply.pair_ltb (AiReply.get date date_slots) with
              | [] => []
              | slots => [(date, slots)]
              end)
           (AiReply.sorted str_ltb (map fst date_slots)).

(** The lines of one listed day. *)
Definition day_block (listed : str * list (str * str)) : result str :=
  dt <- strptime_ymd (fst listed) ;;
  Ok (AiReply.date_line dt ++ flat_map AiReply.slot_line (snd listed)).

(** The reply for the listed days. *)
Definition reply_of (days : list (str * list (str * str))) : result str :=
  response <- foldM (fun response listed =>
                       block <- day_block listed ;; Ok (response ++ block))
                days AiReply.free_time_header ;;
  if str_eqb response AiReply.free_time_header then Ok AiReply.no_free_time
  else Ok response.

(** ** Vocabulary of the cues *)

(** A phrase in which none of the cue patterns of the repair is found. *)
Definition no_cue (phrase : str) : bool :=
  negb (Re.found AiService.re_range phrase)
  && negb (Re.found AiService.re_ikou phrase)
  && negb (Re.found AiService.re_allday phrase)
  && negb (Re.found AiService.re_tomorrow phrase)
  && negb (Re.found (Re.lit AiService.kyou) phrase)
  && negb (Re.found (Re.lit AiService.honjitsu) phrase)
  && negb (Re.found AiService.re_next_week phrase)
  && negb (Re.found AiService.re_week_from_today phrase).

(** Two entries with the same date, start and end. *)
Definition same_frame (a b : AiService.entry) : Prop :=
  AiService.date a = AiService.date b /\ AiService.time a = AiService.time b
  /\ AiService.end_time a = AiService.end_time b.

(** The text mentions travel. *)
Definition mentions_travel (text : str) : bool :=
  existsb (fun keyword => contains keyword text) AiService.travel_keywords.

(** An entry the handler cannot turn into a frame with slots: a field is
    missing, or the date with the start or with the end is not read. *)
Definition unreadable (d : AiService.entry) : Prop :=
  match AiService.date d, AiService.time d, AiService.end_time d with
  | Some date_str, Some start_time, Some end_time =>
    (exists e, strptime_date_time date_str start_time = Raise e)
    \/ (exists e, strptime_date_time date_str end_time = Raise e)
  | _, _, _ => True
  end.

(* ===================================================================== *)
(** * Properties *)
(* ===================================================================== *)

(** ** The matcher is sound for [matches] *)

Section MatcherSound.
Import Re.

Lemma rep_sound {A} (p : N -> bool) hi : forall lo s (k : str -> option A) x,
  rep p lo hi s k = Some x ->
  exists g rest, s = g ++ rest /\ forallb p g = true
    /\ (lo <= List.length g <= hi)%nat /\ k rest = Some x.
Proof.
  induction hi as [|hi IH]; intros lo s k x H.
  - simpl in H. destruct (Nat.eqb lo 0) eqn:E; [|discriminate].
    apply Nat.eqb_eq in E. subst. exists [], s. simpl. repeat split; auto.
  - assert (Hstop : (if Nat.eqb lo 0 then k s else None) = Some x ->
      exists g rest, s = g ++ rest /\ forallb p g = true
        /\ (lo <= List.length g <= S hi)%nat /\ k rest = Some x).
    { intros Hs. destruct (Nat.eqb lo 0) eqn:E; [|discriminate].
      apply Nat.eqb_eq in E. subst. exists [], s. simpl.
      repeat split; auto; lia. }
    simpl in H. destruct s as [|c s']; [auto|].
    destruct (p c) eqn:Hp; [|auto].
    destruct (rep p (pred lo) hi s' k) eqn:Hr; [|auto].
    inversion H; subst. apply IH in Hr.
    destruct Hr as (g & rest & -> & Hg & Hlen & Hk).
    exists (c :: g), rest. simpl. rewrite Hp, Hg. repeat split; auto; lia.
Qed.

Lemma run_sound {A} (r : re) : forall s caps (k : str -> list str -> option A) x,
  run r s caps k = Some x ->
  exists g rest c, s = g ++ rest /\ matches r g rest c /\ k rest (caps ++ c) = Some x.
Proof.
  induction r; intros s caps k x H; simpl in H.
  - exists [], s, []. rewrite (app_nil_r caps). repeat split; auto. constructor.
  - destruct s as [|y s']; [discriminate|].
    destruct (N.eqb y c) eqn:E; [|discriminate]. apply N.eqb_eq in E. subst.
    exists [c], s', []. rewrite (app_nil_r caps). repeat split; auto. constructor.
  - destruct s as [|y s']; [discriminate|].
    destruct (p y) eqn:E; [|discriminate].
    exists [y], s', []. rewrite (app_nil_r caps). repeat split; auto.
    constructor; auto.
  - apply IHr1 in H. destruct H as (g1 & rest1 & c1 & -> & M1 & H).
    apply IHr2 in H. destruct H as (g2 & rest & c2 & -> & M2 & H).
    exists (g1 ++ g2), rest, (c1 ++ c2).
    rewrite <- app_assoc in H. rewrite <- app_assoc. repeat split; auto.
    constructor; auto.
  - destruct (run r1 s caps k) eqn:E1.
    + inversion H; subst. apply IHr1 in E1.
      destruct E1 as (g & rest & c & -> & M & Hk).
      exists g, rest, c. repeat split; auto. apply M_AltL; auto.
    + apply IHr2 in H. destruct H as (g & rest & c & -> & M & Hk).
      exists g, rest, c. repeat split; auto. apply M_AltR; auto.
  - apply rep_sound in H. destruct H as (g & rest & -> & Hg & Hlen & Hk).
    exists g, rest, []. rewrite (app_nil_r caps). repeat split; auto.
    constructor; auto.
  - apply rep_sound in H. destruct H as (g & rest & -> & Hg & Hlen & Hk).
    exists g, rest, []. rewrite (app_nil_r caps). repeat split; auto.
    constructor; auto.
  - apply IHr in H. destruct H as (g & rest & c & -> & M & Hk).
    exists g, rest, (c ++ [g]).
    replace (firstn (List.length (g ++ rest) - List.length rest) (g ++ rest))
      with g in Hk.
    + rewrite app_assoc. repeat split; auto. constructor; auto.
    + rewrite length_app, Nat.add_sub.
      rewrite firstn_app, Nat.sub_diag, firstn_all. simpl.
      now rewrite app_nil_r.
  - destruct s; [|discriminate].
    exists [], [], []. rewrite (app_nil_r caps). repeat split; auto. constructor.
Qed.

Lemma match_at_sound r s n caps :
  match_at r s = Some (n, caps) ->
  exists g rest, s = g ++ rest /\ matches r g rest caps /\ n = List.length g.
Proof.
  unfold match_at. intros H. apply run_sound in H.
  destruct H as (g & rest & c & -> & M & Hk). simpl in Hk.
  inversion Hk; subst. exists g, rest. repeat split; auto.
  rewrite length_app. lia.
Qed.

Lemma search_sound r : forall s caps,
  search r s = Some caps ->
  exists pre g rest, s = pre ++ g ++ rest /\ matches r g rest caps.
Proof.
  induction s as [|c s IH]; intros caps H; simpl in H.
  - destruct (match_at r []) as [[n cs]|] eqn:E; [|discriminate].
    inversion H; subst. apply match_at_sound in E.
    destruct E as (g & rest & Hs & M & _). exists [], g, rest. auto.
  - destruct (match_at r (c :: s)) as [[n cs]|] eqn:E.
    + inversion H; subst. apply match_at_sound in E.
      destruct E as (g & rest & Hs & M & _). exists [], g, rest. auto.
    + apply IH in H. destruct H as (pre & g & rest & -> & M).
      exists (c :: pre), g, rest. auto.
Qed.

End MatcherSound.

(** ** Digits and [int] *)

Lemma space_not_digit c : is_space c = true -> is_digit c = false.
Proof.
  unfold is_space. simpl. rewrite !orb_true_iff. intros H.
  repeat (destruct H as [H|H]; [apply N.eqb_eq in H; subst; reflexivity|]).
  discriminate.
Qed.

Lemma lstrip_digit c s : is_digit c = true -> lstrip (c :: s) = c :: s.
Proof.
  intros H. simpl. destruct (is_space c) eqn:E; auto.
  apply space_not_digit in E. congruence.
Qed.

Lemma forallb_rev {A} (p : A -> bool) l : forallb p l = true -> forallb p (rev l) = true.
Proof.
  rewrite !forallb_forall. intros H x Hx. apply H. now apply in_rev.
Qed.

Lemma lstrip_digits g : forallb is_digit g = true -> lstrip g = g.
Proof.
  destruct g as [|c g]; auto. intros H. simpl in H.
  apply andb_true_iff in H. now apply lstrip_digit.
Qed.

Lemma strip_digits g : forallb is_digit g = true -> strip g = g.
Proof.
  intros H. unfold strip. rewrite (lstrip_digits g H).
  rewrite lstrip_digits by now apply forallb_rev. apply rev_involutive.
Qed.

Lemma digits_value_ok g : forallb is_digit g = true ->
  forall acc, exists v, digits_value acc g = Ok v.
Proof.
  induction g as [|c g IH]; intros H acc; simpl.
  - eauto.
  - simpl in H. apply andb_true_iff in H. destruct H as [Hc Hg].
    unfold is_digit in Hc. destruct (digit_value c); [|discriminate]. auto.
Qed.

Lemma py_int_digits g : forallb is_digit g = true -> g <> [] ->
  exists v, py_int g = Ok v.
Proof.
  intros H Hne. unfold py_int. rewrite (strip_digits g H).
  destruct g; [congruence|]. now apply digits_value_ok.
Qed.

(** ** Groups of the cue patterns *)

Lemma matches_lit w : forall g rest c, matches (Re.lit w) g rest c -> c = [].
Proof.
  induction w as [|a w IH]; intros g rest c M.
  - inversion M; auto.
  - destruct w as [|b w].
    + inversion M; auto.
    + change (Re.lit (a :: b :: w)) with (Re.Seq (Re.Chr a) (Re.lit (b :: w))) in M.
      inversion M as [| | |r1 r2 g1 g2 rest' c1 c2 M1 M2| | | | | |]; subst.
      inversion M1; subst. apply IH in M2. now subst.
Qed.

Lemma matches_digits12 g rest c :
  matches AiService.digits12 g rest c ->
  c = [g] /\ exists v, py_int g = Ok v.
Proof.
  intros M. inversion M; subst.
  match goal with H : matches (Re.Rep _ _ _) _ _ _ |- _ => inversion H; subst end.
  split; auto. apply py_int_digits; auto.
  destruct g; simpl in *; [lia|congruence].
Qed.

Lemma search_range phrase caps :
  Re.search AiService.re_range phrase = Some caps ->
  exists h1 h2, py_int (nth 0 caps []) = Ok h1 /\ py_int (nth 1 caps []) = Ok h2.
Proof.
  intros H. apply search_sound in H. destruct H as (pre & g & rest & _ & M).
  unfold AiService.re_range in M. cbv [Re.seq] in M.
  inversion M; subst; clear M.
  repeat match goal with
  | H : matches (Re.Seq _ _) _ _ _ |- _ => inversion H; subst; clear H
  | H : matches AiService.dash _ _ _ |- _ => inversion H; subst; clear H
  | H : matches (Re.lit _) _ _ _ |- _ => apply matches_lit in H; subst
  | H : matches AiService.digits12 _ _ _ |- _ =>
    apply matches_digits12 in H; destruct H as [-> [? ?]]
  end.
  simpl. eauto.
Qed.


Lemma search_hour_suffix suffix phrase caps :
  Re.search (Re.seq [AiService.digits12; Re.lit suffix]) phrase = Some caps ->
  exists h, py_int (nth 0 caps []) = Ok h.
Proof.
  intros H. apply search_sound in H. destruct H as (pre & g & rest & _ & M).
  cbv [Re.seq] in M.
  inversion M; subst; clear M.
  repeat match goal with
  | H : matches (Re.lit _) _ _ _ |- _ => apply matches_lit in H; subst
  | H : matches AiService.digits12 _ _ _ |- _ =>
    apply matches_digits12 in H; destruct H as [-> [? ?]]
  end.
  simpl. eauto.
Qed.

Lemma search_today_hour text caps :
  Re.search AiService.re_today_hour text = Some caps ->
  exists h, py_int (AiService.grp caps 1) = Ok h.
Proof.
  intros H. apply search_sound in H. destruct H as (pre & g & rest & _ & M).
  unfold AiService.re_today_hour in M. cbv [Re.seq] in M.
  inversion M; subst; clear M.
  repeat match goal with
  | H : matches (Re.Seq _ _) _ _ _ |- _ => inversion H; subst; clear H
  | H : matches (Re.Grp (Re.Alt _ _)) _ _ _ |- _ => inversion H; subst; clear H
  | H : matches (Re.Alt _ _) _ _ _ |- _ => inversion H; subst; clear H
  | H : matches (Re.Chr _) _ _ _ |- _ => inversion H; subst; clear H
  | H : matches (Re.lit _) _ _ _ |- _ => apply matches_lit in H; subst
  | H : matches AiService.digits12 _ _ _ |- _ =>
    apply matches_digits12 in H; destruct H as [-> [? ?]]
  end; simpl; eauto.
Qed.

(** ** The repair steps, one by one *)

Section RepairSteps.
Import AiService.

Lemma truthy_app_cons a c b : truthy (Some (a ++ c :: b)) = true.
Proof. destruct a; reflexivity. Qed.

Lemma truthy_hh00 h : truthy (Some (hh00 h)) = true.
Proof. unfold hh00. apply truthy_app_cons. Qed.

Lemma truthy_hhmm h m : truthy (Some (hhmm h m)) = true.
Proof. unfold hhmm. apply truthy_app_cons. Qed.

Lemma truthy_strftime_HM_at t : truthy (Some (strftime_HM_at t)) = true.
Proof. apply truthy_hhmm. Qed.


(** The range and 以降 cues never raise, keep the date, and leave an entry
    without any time exactly when it had none and no cue applies. *)
Lemma cues_spec phrase d :
  exists d1 d2,
    fill_range phrase d = Ok d1 /\ fill_ikou phrase d1 = Ok d2
    /\ date d2 = date d
    /\ negb (truthy (time d2)) && negb (truthy (end_time d2))
       = negb (truthy (time d)) && negb (truthy (end_time d))
         && negb (Re.found re_range phrase) && negb (Re.found re_ikou phrase)
    /\ (only_end d = false -> only_end d2 = false)
    /\ (truthy (end_time d) = true -> truthy (end_time d2) = true).
Proof.
  unfold fill_range, fill_ikou, Re.found, only_end.
  destruct (Re.search re_range phrase) as [caps|] eqn:Er.
  - destruct (search_range _ _ Er) as (h1 & h2 & -> & ->).
    exists (set_end_time (set_time d (hh00 h1)) (hh00 h2)),
           (set_end_time (set_time d (hh00 h1)) (hh00 h2)).
    cbn [bind time end_time date set_time set_end_time].
    rewrite !truthy_hh00. cbn [negb orb andb].
    repeat split; auto. now rewrite !andb_false_r.
  - exists d. destruct (Re.search re_ikou phrase) as [caps|] eqn:Ei.
    + destruct (search_hour_suffix _ _ _ Ei) as (h & ->).
      cbn [bind]. rewrite andb_true_r.
      destruct (truthy (time d)) eqn:Et, (truthy (end_time d)) eqn:Ee;
        cbn [negb orb andb];
        eexists; (split; [reflexivity|]); (split; [reflexivity|]);
        cbn [time end_time date set_time set_end_time];
        rewrite ?truthy_hh00, ?Et, ?Ee; cbn [negb orb andb];
        repeat split; auto.
    + exists d. rewrite andb_false_r.
      repeat split; auto. now rewrite !andb_true_r.
Qed.

Lemma is_allday_after_cues text d d2 :
  complete d = false ->
  negb (truthy (time d2)) && negb (truthy (end_time d2))
  = negb (truthy (time d)) && negb (truthy (end_time d))
    && negb (Re.found re_range (phrase_of d text))
    && negb (Re.found re_ikou (phrase_of d text)) ->
  is_allday (phrase_of d text) d2 = takes_allday text d.
Proof.
  intros Hc H. unfold is_allday, takes_allday. rewrite Hc, H. simpl.
  now rewrite orb_comm.
Qed.



Lemma fill_today_absent word now phrase d :
  Re.found (Re.lit word) phrase = false -> fill_today word now phrase d = Ok d.
Proof. unfold fill_today. now intros ->. Qed.




(** An incomplete entry goes through the steps in this order. *)
Lemma supplement_entry_incomplete now text tt st d :
  complete d = false ->
  exists d2,
    date d2 = date d
    /\ is_allday (phrase_of d text) d2 = takes_allday text d
    /\ (only_end d = false -> only_end d2 = false)
    /\ (truthy (end_time d) = true -> truthy (end_time d2) = true)
    /\ supplement_entry now text tt st d =
       let phrase := phrase_of d text in
       let allday := takes_allday text d in
       let d3 := if allday
                 then set_end_time (set_time d2 (u "00:00")) (u "23:59") else d2 in
       if allday && existsb (opt_str_eqb (date d)) (allday_dates st)
       then Ok st
       else
         let st1 := if allday
                    then mk_state (date d :: allday_dates st) (new_dates st)
                    else st in
         d4 <- fill_today kyou now phrase (fill_tomorrow now phrase d3) ;;
         d5 <- fill_today honjitsu now phrase d4 ;;
         if Re.found re_next_week phrase
         then Ok (mk_state (allday_dates st1)
                    (fold_left add_week_entry (week_dates now) (new_dates st1)))
         else
           d6 <- fill_end_time (fill_week_from_today now phrase d5) ;;
           Ok (push st1 (fill_title tt d6)).
Proof.
  intros Hc.
  destruct (cues_spec (phrase_of d text) d) as (d1 & d2 & H1 & H2 & Hd & Hn & Ho & He).
  exists d2. pose proof (is_allday_after_cues text d d2 Hc Hn) as Ha.
  repeat split; auto.
  unfold supplement_entry. rewrite Hc, H1. simpl. rewrite H2. simpl.
  rewrite Ha. destruct (takes_allday text d); simpl; rewrite ?Hd; reflexivity.
Qed.

End RepairSteps.

(** ** The raw-text scan under an aware clock *)

Section AwareClock.
Import AiService.

Lemma datetime_new_naive y m d dt : datetime_new y m d = Ok dt -> tzinfo dt = None.
Proof.
  unfold datetime_new. destruct (_ && _); [|discriminate].
  intros H; inversion H; reflexivity.
Qed.

(** Ordering the naive date of a match against [datetime.now(jst)] is the
    [TypeError] of [datetime_lt]. *)
Lemma naive_lt_now y m d dt wall :
  datetime_new y m d = Ok dt -> datetime_lt dt (datetime_now wall) = Raise TypeError.
Proof.
  intros H. apply datetime_new_naive in H. unfold datetime_lt. now rewrite H.
Qed.

Lemma this_or_next_year_raises wall ms ds :
  exists e, this_or_next_year (datetime_now wall) ms ds = Raise e.
Proof.
  unfold this_or_next_year.
  destruct (py_int ms); cbn [bind]; eauto.
  destruct (py_int ds); cbn [bind]; eauto.
  destruct (datetime_new _ a a0) eqn:E; cbn [bind]; eauto.
  rewrite (naive_lt_now _ _ _ _ wall E). cbn [bind]. eauto.
Qed.

Lemma this_or_next_month_raises wall dd :
  exists e, this_or_next_month (datetime_now wall) dd = Raise e.
Proof.
  unfold this_or_next_month.
  destruct (datetime_new _ _ dd) eqn:E; cbn [bind]; eauto.
  rewrite (naive_lt_now _ _ _ _ wall E). cbn [bind]. eauto.
Qed.

Lemma foldM_skip {A B} (f : A -> B -> result A) :
  (forall a b, f a b = Ok a) -> forall l a, foldM f l a = Ok a.
Proof.
  intros Hf. induction l as [|b l IH]; intros a; simpl; auto.
  rewrite Hf. simpl. apply IH.
Qed.

Lemma scan1_skips wall tt nd m : scan1 (datetime_now wall) tt nd m = Ok nd.
Proof.
  unfold scan1. destruct (this_or_next_year_raises wall (grp m 0) (grp m 1)) as [e ->].
  reflexivity.
Qed.

Lemma scan23_skips wall tt nd m : scan23 (datetime_now wall) tt nd m = Ok nd.
Proof.
  unfold scan23. destruct (this_or_next_year_raises wall (grp m 0) (grp m 1)) as [e ->].
  reflexivity.
Qed.

Lemma scan4_skips wall tt nd m : scan4 (datetime_now wall) tt nd m = Ok nd.
Proof.
  unfold scan4. destruct (py_int (grp m 0)); cbn [bind]; auto.
  destruct (this_or_next_month_raises wall a) as [e ->]. reflexivity.
Qed.

Lemma scan5_skips wall tt nd m : scan5 (datetime_now wall) tt nd m = Ok nd.
Proof.
  unfold scan5. destruct (py_int (grp m 0)); cbn [bind]; auto.
  destruct (this_or_next_month_raises wall a) as [e ->]. reflexivity.
Qed.

Lemma scan_line_skips wall tt nd line : scan_line (datetime_now wall) tt nd line = Ok nd.
Proof.
  unfold scan_line. destruct (strip line) as [|c l]; auto.
  destruct (Re.search re_day (c :: l)) as [caps|] eqn:E; auto.
  destruct (search_hour_suffix _ _ _ E) as [h Hh]. unfold grp. rewrite Hh.
  cbn [bind]. destruct (this_or_next_month_raises wall h) as [e ->]. reflexivity.
Qed.

(** No pattern ever contributes an entry. *)
Lemma scan_text_skips wall tt text nd :
  scan_text (datetime_now wall) tt text nd = Ok nd.
Proof.
  unfold scan_text.
  rewrite (foldM_skip _ (scan1_skips wall tt)). cbn [bind].
  rewrite (foldM_skip _ (scan23_skips wall tt)). cbn [bind].
  rewrite (foldM_skip _ (scan23_skips wall tt)). cbn [bind].
  rewrite (foldM_skip _ (scan4_skips wall tt)). cbn [bind].
  rewrite (foldM_skip _ (scan5_skips wall tt)). cbn [bind].
  apply (foldM_skip _ (scan_line_skips wall tt)).
Qed.

End AwareClock.

(** ** C3 and C4: the upstream guess and the raw text *)

Section GuessAndRawText.
Import AiService.

(** C3, as amended.  When the upstream guess is absent, or carries no
    [dates] field (the error object of a failed parse included),
    [_supplement_times] hands it back unchanged: the raw text is not
    consulted and no candidate is added. *)
Theorem supplement_times_without_dates wall parsed' text :
  (parsed' = None \/ exists p, parsed' = Some p /\ dates p = None) ->
  _supplement_times wall parsed' text = Ok parsed'.
Proof.
  intros [-> | (p & -> & Hd)]; unfold _supplement_times; [reflexivity|].
  now rewrite Hd.
Qed.

Lemma supplement_times_without_dates_witness :
  _supplement_times wall_0701
    (Some (mk_parsed None None None None (Some (u "AI応答のパースに失敗しました"))))
    (u "7/10 9:00-10:00")
  = Ok (Some (mk_parsed None None None None (Some (u "AI応答のパースに失敗しました")))).
Proof.
  apply supplement_times_without_dates. right.
  exists (mk_parsed None None None None (Some (u "AI応答のパースに失敗しました"))).
  split; reflexivity.
Defined.

(** C3 fails as stated: the text holds a span of the first pattern, the
    guess is absent, and the result has no entry at all. *)
Lemma absent_guess_is_not_replaced_by_raw_spans :
  Re.findall pattern1 (u "7/10 9:00-10:00")
    = [[u "7"; u "10"; u "9"; u "00"; u "10"; u "00"]]
  /\ entries_of (_supplement_times wall_0701 None (u "7/10 9:00-10:00")) = [].
Proof. split; vm_compute; reflexivity. Qed.

(** C4 at its failing input.  The text has one month/day span and one
    day-only span, the guess has an empty [dates] list, and nothing is
    emitted: every pattern loop compares the naive date of the match with
    the aware clock, which raises inside the [try], and the match is
    skipped.  This holds for every clock, text and working set. *)
Theorem raw_spans_are_never_emitted :
  Re.findall pattern1 (u "7/10 9:00-10:00")
    = [[u "7"; u "10"; u "9"; u "00"; u "10"; u "00"]]
  /\ Re.findall pattern4 (u "16日 11:30-14:00")
    = [[u "16"; u "11"; u "30"; u "14"; u "00"]]
  /\ _supplement_times wall_0701
       (Some (availability []))
       (u "7/10 9:00-10:00")
     = Ok (Some (availability []))
  /\ _supplement_times wall_0701
       (Some (availability []))
       (u "16日 11:30-14:00")
     = Ok (Some (availability []))
  /\ forall wall tt text nd, scan_text (datetime_now wall) tt text nd = Ok nd.
Proof.
  split; [vm_compute; reflexivity|].
  split; [vm_compute; reflexivity|].
  split; [vm_compute; reflexivity|].
  split; [vm_compute; reflexivity|].
  intros. apply scan_text_skips.
Qed.

End GuessAndRawText.

(** ** Lists that only grow *)

Section Subseq.
Context {A : Type}.

Lemma subseq_refl (l : list A) : subseq l l.
Proof. induction l; constructor; auto. Qed.

Lemma subseq_app_r (l1 l2 ext : list A) : subseq l1 l2 -> subseq l1 (l2 ++ ext).
Proof. induction 1; simpl; constructor; auto. Qed.

Lemma subseq_snoc (l1 l2 : list A) x : subseq l1 l2 -> subseq (l1 ++ [x]) (l2 ++ [x]).
Proof.
  induction 1; simpl.
  - induction l; simpl; repeat constructor. auto.
  - constructor; auto.
  - constructor; auto.
Qed.

Lemma subseq_trans (l1 l2 l3 : list A) : subseq l1 l2 -> subseq l2 l3 -> subseq l1 l3.
Proof.
  intros H12 H23. revert l1 H12.
  induction H23; intros l0 H12.
  - inversion H12; constructor.
  - inversion H12; subst; constructor; auto.
  - constructor; auto.
Qed.

End Subseq.

Lemma foldM_app {A B} (f : A -> B -> result A) l1 l2 a :
  foldM f (l1 ++ l2) a = (a' <- foldM f l1 a ;; foldM f l2 a').
Proof.
  revert a. induction l1 as [|b l1 IH]; intros a; simpl; auto.
  destruct (f a b); simpl; auto.
Qed.

(** ** C6 and C9: what survives normalization *)

Section Survivors.
Import AiService.

Lemma supplement_entry_complete now text tt st d :
  complete d = true -> supplement_entry now text tt st d = Ok (push st d).
Proof. unfold supplement_entry. now intros ->. Qed.

Lemma loop_complete now text tt ds : forall st,
  Forall (fun d => complete d = true) ds ->
  foldM (supplement_entry now text tt) ds st
  = Ok (mk_state (allday_dates st) (new_dates st ++ ds)).
Proof.
  induction ds as [|d ds IH]; intros st H; simpl.
  - rewrite app_nil_r. now destruct st.
  - inversion H; subst. rewrite supplement_entry_complete by auto. simpl.
    rewrite IH by auto. simpl. now rewrite <- app_assoc.
Qed.

Lemma today_fallback_grows now text nd nd' :
  today_fallback now text nd = Ok nd' ->
  (nd <> [] -> nd' = nd)
  /\ exists ext, nd' = nd ++ ext /\ Forall (fun d => complete d = true) ext.
Proof.
  unfold today_fallback. destruct nd as [|d nd].
  - destruct (_ && _).
    + destruct (Re.search re_today_hour text) as [caps|] eqn:E.
      * destruct (search_today_hour _ _ E) as [h ->]. cbn [bind].
        intros H; inversion H; subst. split; [congruence|].
        eexists. split; [reflexivity|]. constructor; [|constructor].
        unfold complete. cbn [time end_time]. now rewrite !truthy_hh00.
      * intros H; inversion H; subst. split; auto. exists []. split; auto.
    + intros H; inversion H; subst. split; auto. exists []. split; auto.
  - rewrite andb_false_r. intros H; inversion H; subst. split; auto.
    exists []. rewrite app_nil_r. split; auto.
Qed.

Lemma add_unless_duplicate_grows nd ev :
  exists ext, add_unless_duplicate nd ev = nd ++ ext /\ (ext = [] \/ ext = [ev]).
Proof.
  unfold add_unless_duplicate. destruct (existsb _ nd).
  - exists []. rewrite app_nil_r. auto.
  - exists [ev]. auto.
Qed.

Lemma _create_travel_events_complete d evs :
  _create_travel_events d = Ok evs -> Forall (fun d => complete d = true) evs.
Proof.
  unfold _create_travel_events.
  destruct (date d), (time d), (end_time d); try discriminate.
  destruct (strptime_date_time _ _); cbn [bind]; [|discriminate].
  destruct (strptime_date_time _ _); cbn [bind]; [|discriminate].
  intros H; inversion H; subst.
  repeat constructor; unfold complete; cbn [time end_time];
    now rewrite !truthy_strftime_HM_at.
Qed.

Lemma fold_add_unless_duplicate_grows evs : forall nd,
  exists ext, fold_left add_unless_duplicate evs nd = nd ++ ext
    /\ incl ext evs.
Proof.
  induction evs as [|ev evs IH]; intros nd; simpl.
  - exists []. rewrite app_nil_r. split; auto. apply incl_refl.
  - destruct (add_unless_duplicate_grows nd ev) as (e1 & -> & He1).
    destruct (IH (nd ++ e1)) as (e2 & -> & He2).
    exists (e1 ++ e2). rewrite app_assoc. split; auto.
    apply incl_app.
    + destruct He1 as [-> | ->]; intros x Hx; simpl in *; tauto.
    + now apply incl_tl.
Qed.

(** The travel pass keeps every entry, in order, and whatever it adds has
    both times. *)
Lemma travel_loop_grows text (P : entry -> Prop) ds : forall acc r,
  (forall d, complete d = true -> P d) ->
  foldM (fun nd date_info =>
           let nd := nd ++ [date_info] in
           if _should_add_travel_time date_info text then
             travel_events <- _create_travel_events date_info ;;
             Ok (fold_left add_unless_duplicate travel_events nd)
           else Ok nd) ds acc = Ok r ->
  forall done, subseq done acc ->
  subseq (done ++ ds) r
  /\ (Forall P acc -> Forall P ds -> Forall P r).
Proof.
  induction ds as [|d ds IH]; intros acc r HP H done Hs; simpl in H.
  - inversion H; subst. rewrite app_nil_r. auto.
  - destruct (_should_add_travel_time d text).
    + destruct (_create_travel_events d) as [evs|] eqn:Ev; cbn [bind] in H;
        [|discriminate].
      destruct (fold_add_unless_duplicate_grows evs (acc ++ [d])) as (ext & Hx & Hi).
      rewrite Hx in H.
      destruct (IH _ _ HP H (done ++ [d])) as [Hsub Hall].
      { apply subseq_app_r. now apply subseq_snoc. }
      rewrite <- app_assoc in Hsub. split; auto.
      intros Ha Hd. inversion Hd; subst. apply Hall; auto.
      apply Forall_app. split; [apply Forall_app; split; auto|].
      apply _create_travel_events_complete in Ev.
      rewrite Forall_forall in *. auto.
    + destruct (IH _ _ HP H (done ++ [d])) as [Hsub Hall].
      { now apply subseq_snoc. }
      rewrite <- app_assoc in Hsub. split; auto.
      intros Ha Hd. inversion Hd; subst. apply Hall; auto.
      apply Forall_app. split; auto.
Qed.

Lemma _add_travel_time_grows nd text r (P : entry -> Prop) :
  (forall d, complete d = true -> P d) ->
  _add_travel_time nd text = Ok r ->
  subseq nd r /\ (Forall P nd -> Forall P r).
Proof.
  unfold _add_travel_time. intros HP. destruct (negb _).
  - intros H; inversion H; subst. split; auto. apply subseq_refl.
  - intros H.
    destruct (travel_loop_grows _ P _ _ _ HP H [] (subseq_nil _)) as [Hs Ha].
    split; auto.
Qed.

(** The part of [_supplement_times] that follows the repair loop. *)
Lemma after_loop wall p text ds r :
  dates p = Some ds ->
  _supplement_times wall (Some p) text = Ok r ->
  exists st nd1 nd2,
    foldM (supplement_entry (datetime_now wall) text (task_type p)) ds (mk_state [] [])
      = Ok st
    /\ today_fallback (datetime_now wall) text (new_dates st) = Ok nd1
    /\ (if is_add_event (task_type p) then _add_travel_time nd1 text else Ok nd1)
       = Ok nd2
    /\ r = Some (set_dates p nd2).
Proof.
  intros Hd. unfold _supplement_times. rewrite Hd.
  destruct (foldM _ ds _) as [st|] eqn:E1; cbn [bind]; [|discriminate].
  rewrite scan_text_skips. cbn [bind].
  destruct (today_fallback _ _ _) as [nd1|] eqn:E2; cbn [bind]; [|discriminate].
  destruct (if is_add_event _ then _ else _) as [nd2|] eqn:E3; cbn [bind];
    [|discriminate].
  intros H; inversion H; subst. exists st, nd1, nd2. auto.
Qed.

(** C6.  Entries that already have a start and an end are passed through
    untouched.  When every entry of the guess is complete, as in an
    output of the normalizer, a second run returns each of them with the
    same date, start and end, in the same order; without travel buffers
    (and with at least one entry) the result is the input itself. *)
Theorem normalizer_keeps_complete_entries wall p text ds :
  dates p = Some ds ->
  Forall (fun d => complete d = true) ds ->
  (is_add_event (task_type p) = false -> ds <> [] ->
   _supplement_times wall (Some p) text = Ok (Some p))
  /\ (forall r, _supplement_times wall (Some p) text = Ok r ->
      exists ds', r = Some (set_dates p ds') /\ subseq ds ds').
Proof.
  intros Hd Hc. split.
  - intros Ht Hne. unfold _supplement_times. rewrite Hd.
    rewrite loop_complete by auto. cbn [bind new_dates app].
    rewrite scan_text_skips. cbn [bind].
    unfold today_fallback. destruct ds as [|d ds]; [congruence|].
    rewrite andb_false_r. cbn [bind]. rewrite Ht. cbn [bind].
    destruct p; simpl in *; subst; reflexivity.
  - intros r Hr. destruct (after_loop _ _ _ _ _ Hd Hr) as (st & nd1 & nd2 & H1 & H2 & H3 & ->).
    rewrite loop_complete in H1 by auto. inversion H1; subst. cbn [new_dates app] in H2.
    exists nd2. split; auto.
    apply today_fallback_grows in H2. destruct H2 as [_ (ext & -> & _)].
    apply subseq_trans with (ds ++ ext).
    + apply subseq_app_r, subseq_refl.
    + destruct (is_add_event (task_type p)).
      * now destruct (_add_travel_time_grows _ _ _ (fun _ => True) (fun _ _ => I) H3).
      * inversion H3; subst. apply subseq_refl.
Qed.

Lemma normalizer_keeps_complete_entries_witness :
  _supplement_times wall_0701
    (Some (availability
       [entry_of (Some (u "2025-07-10")) (Some (u "09:00")) (Some (u "10:00"))]))
    (u "7/10 9-10時")
  = Ok (Some (availability
       [entry_of (Some (u "2025-07-10")) (Some (u "09:00")) (Some (u "10:00"))])).
Proof.
  apply (normalizer_keeps_complete_entries wall_0701 _ (u "7/10 9-10時")
           [entry_of (Some (u "2025-07-10")) (Some (u "09:00")) (Some (u "10:00"))]).
  - reflexivity.
  - repeat constructor.
  - reflexivity.
  - discriminate.
Defined.








End Survivors.

(** ** C8: duplicates among all-day entries *)

Section AllDay.
Import AiService.

Lemma str_eqb_refl s : str_eqb s s = true.
Proof. unfold str_eqb. destruct (list_eq_dec N.eq_dec s s); congruence. Qed.

Lemma opt_str_eqb_refl x : opt_str_eqb x x = true.
Proof. destruct x; simpl; auto using str_eqb_refl. Qed.

Lemma takes_allday_incomplete text d : takes_allday text d = true -> complete d = false.
Proof.
  unfold takes_allday. intros H. apply andb_true_iff in H.
  destruct (complete d); intuition discriminate.
Qed.

(** The all-day branch drops an entry whose date is already registered. *)
Lemma allday_duplicate_dropped now text tt st d :
  takes_allday text d = true ->
  existsb (opt_str_eqb (date d)) (allday_dates st) = true ->
  supplement_entry now text tt st d = Ok st.
Proof.
  intros Ha Hin.
  destruct (supplement_entry_incomplete now text tt st d
              (takes_allday_incomplete _ _ Ha)) as (d2 & _ & _ & _ & _ & ->).
  cbv zeta. now rewrite Ha, Hin.
Qed.

(** One iteration never forgets a registered date, and registers the
    date of an entry that takes the all-day branch. *)
Lemma allday_dates_step now text tt st d st' :
  supplement_entry now text tt st d = Ok st' ->
  (forall x, existsb (opt_str_eqb x) (allday_dates st) = true ->
             existsb (opt_str_eqb x) (allday_dates st') = true)
  /\ (takes_allday text d = true ->
      existsb (opt_str_eqb (date d)) (allday_dates st') = true).
Proof.
  destruct (complete d) eqn:Hc.
  - rewrite supplement_entry_complete by auto. intros H; injection H as <-.
    split; auto. intros Ha. apply takes_allday_incomplete in Ha. congruence.
  - destruct (supplement_entry_incomplete now text tt st d Hc)
      as (d2 & _ & _ & _ & _ & ->).
    cbv zeta.
    destruct (takes_allday text d) eqn:Ha; cbn [andb].
    + destruct (existsb (opt_str_eqb (date d)) (allday_dates st)) eqn:Hin.
      { intros H; injection H as <-. auto. }
      destruct (fill_today kyou now _ _); cbn [bind]; [|discriminate].
      destruct (fill_today honjitsu now _ _); cbn [bind]; [|discriminate].
      assert (K : forall x,
        existsb (opt_str_eqb x) (allday_dates st) = true ->
        existsb (opt_str_eqb x) (date d :: allday_dates st) = true).
      { intros x Hx. simpl. rewrite Hx. apply orb_true_r. }
      assert (R : existsb (opt_str_eqb (date d)) (date d :: allday_dates st) = true).
      { simpl. now rewrite opt_str_eqb_refl. }
      destruct (Re.found re_next_week _).
      { intros H; injection H as <-. auto. }
      destruct (fill_end_time _); cbn [bind]; [|discriminate].
      intros H; injection H as <-. auto.
    + destruct (fill_today kyou now _ _); cbn [bind]; [|discriminate].
      destruct (fill_today honjitsu now _ _); cbn [bind]; [|discriminate].
      destruct (Re.found re_next_week _).
      { intros H; injection H as <-. split; auto; discriminate. }
      destruct (fill_end_time _); cbn [bind]; [|discriminate].
      intros H; injection H as <-. split; auto; discriminate.
Qed.

Lemma allday_dates_loop now text tt ds : forall st st',
  foldM (supplement_entry now text tt) ds st = Ok st' ->
  (forall x, existsb (opt_str_eqb x) (allday_dates st) = true ->
             existsb (opt_str_eqb x) (allday_dates st') = true)
  /\ (forall d0, In d0 ds -> takes_allday text d0 = true ->
                 existsb (opt_str_eqb (date d0)) (allday_dates st') = true).
Proof.
  induction ds as [|d ds IH]; intros st st' H; simpl in H.
  - injection H as <-. split; [auto|]. intros d0 Hin; destruct Hin.
  - destruct (supplement_entry now text tt st d) as [st1|] eqn:E; cbn [bind] in H;
      [|discriminate].
    destruct (allday_dates_step _ _ _ _ _ _ E) as [G1 R1].
    destruct (IH _ _ H) as [G2 R2]. split; auto.
    intros d0 [<- | Hin] Ha; auto.
Qed.

(** C8, as amended.  Among the entries the normalizer itself turns into
    all-day entries (no time at all, or the 終日 cue), a later one is
    dropped when an earlier one carried the same date: normalizing the
    list with it and without it gives the same result.  Entries that
    arrive with both times set, 00:00-23:59 included, are not compared. *)
Theorem later_allday_entry_is_dropped wall p text ds1 d0 d ds2 :
  dates p = Some (ds1 ++ d :: ds2) ->
  In d0 ds1 ->
  takes_allday text d0 = true ->
  takes_allday text d = true ->
  date d0 = date d ->
  _supplement_times wall (Some p) text
  = _supplement_times wall (Some (set_dates p (ds1 ++ ds2))) text.
Proof.
  intros Hd Hin Ha0 Ha Hdate. unfold _supplement_times.
  rewrite Hd. cbn [dates set_dates task_type].
  rewrite !foldM_app.
  destruct (foldM _ ds1 _) as [st1|] eqn:E1; cbn [bind]; [|reflexivity].
  destruct (allday_dates_loop _ _ _ _ _ _ E1) as [_ R].
  specialize (R d0 Hin Ha0). rewrite Hdate in R.
  cbn [foldM]. rewrite (allday_duplicate_dropped _ _ _ _ _ Ha R). cbn [bind].
  destruct (foldM _ ds2 st1); cbn [bind]; [|reflexivity].
  destruct (scan_text _ _ _ _); cbn [bind]; [|reflexivity].
  destruct (today_fallback _ _ _); cbn [bind]; [|reflexivity].
  destruct (if is_add_event (task_type p) then _ else _); cbn [bind]; reflexivity.
Qed.

Lemma later_allday_entry_is_dropped_witness :
  _supplement_times wall_0701
    (Some (availability [entry_of (Some (u "2025-07-12")) None None;
                         entry_of (Some (u "2025-07-12")) None None]))
    (u "7/12 終日")
  = _supplement_times wall_0701
    (Some (set_dates
       (availability [entry_of (Some (u "2025-07-12")) None None;
                      entry_of (Some (u "2025-07-12")) None None])
       ([entry_of (Some (u "2025-07-12")) None None] ++ [])))
    (u "7/12 終日").
Proof.
  apply (later_allday_entry_is_dropped wall_0701 _ (u "7/12 終日")
           [entry_of (Some (u "2025-07-12")) None None]
           (entry_of (Some (u "2025-07-12")) None None)
           (entry_of (Some (u "2025-07-12")) None None) []).
  - reflexivity.
  - left. reflexivity.
  - vm_compute. reflexivity.
  - vm_compute. reflexivity.
  - reflexivity.
Defined.

(** C8 fails as stated: two all-day entries for one date that arrive
    complete both survive; and two entries without times for different
    dates both become all-day entries for tomorrow under the 明日 cue. *)
Lemma two_allday_entries_survive :
  map all_day
    (entries_of (_supplement_times wall_0701
       (Some (availability
          [entry_of (Some (u "2025-07-12")) (Some (u "00:00")) (Some (u "23:59"));
           entry_of (Some (u "2025-07-12")) (Some (u "00:00")) (Some (u "23:59"))]))
       (u "7/12 終日")))
  = [true; true]
  /\ map date
    (entries_of (_supplement_times wall_0701
       (Some (availability
          [entry_of (Some (u "2025-07-12")) (Some (u "00:00")) (Some (u "23:59"));
           entry_of (Some (u "2025-07-12")) (Some (u "00:00")) (Some (u "23:59"))]))
       (u "7/12 終日")))
  = [Some (u "2025-07-12"); Some (u "2025-07-12")]
  /\ entries_of (_supplement_times wall_0701
       (Some (availability [entry_of (Some (u "2025-07-05")) None None;
                            entry_of (Some (u "2025-07-06")) None None]))
       (u "明日"))
  = [entry_of (Some (u "2025-07-02")) (Some (u "00:00")) (Some (u "23:59"));
     entry_of (Some (u "2025-07-02")) (Some (u "00:00")) (Some (u "23:59"))].
Proof.
  split; [vm_compute; reflexivity|].
  split; vm_compute; reflexivity.
Qed.

End AllDay.

(** ** Ordinals and calendar dates *)

Section Ordinals.

Lemma all_from_spec p n : forall i,
  all_from n i p = true -> forall j, i <= j < i + Z.of_nat n -> p j = true.
Proof.
  induction n as [|n IH]; intros i H j Hj; [lia|].
  simpl in H. apply andb_true_iff in H. destruct H as [Hi Hn].
  destruct (Z.eq_dec j i) as [-> | Hne]; auto.
  apply (IH (i + 1)); auto. lia.
Qed.

(** One 400-year cycle, day by day: the date of an ordinal has that
    ordinal. *)
Lemma cycle_table :
  all_from (Z.to_nat 146097) 1
    (fun n => let '(y, m, d) := _ord2ymd n in _ymd2ord y m d =? n) = true.
Proof. vm_compute. reflexivity. Qed.

Lemma _is_leap_period y q : _is_leap (y + 400 * q) = _is_leap y.
Proof.
  unfold _is_leap.
  replace (y + 400 * q) with (y + (100 * q) * 4) at 1 by lia.
  replace (y + 400 * q) with (y + (4 * q) * 100) at 1 by lia.
  replace (y + 400 * q) with (y + q * 400) by lia.
  now rewrite !Z.mod_add by lia.
Qed.

Lemma _ymd2ord_period y m d q :
  _ymd2ord (y + 400 * q) m d = _ymd2ord y m d + 146097 * q.
Proof.
  unfold _ymd2ord, _days_before_month, _days_before_year.
  rewrite _is_leap_period. cbv zeta.
  replace (y + 400 * q - 1) with (y - 1 + 400 * q) by lia.
  replace ((y - 1 + 400 * q) / 4) with ((y - 1) / 4 + 100 * q).
  2: { replace (y - 1 + 400 * q) with (y - 1 + (100 * q) * 4) by lia.
       now rewrite Z.div_add by lia. }
  replace ((y - 1 + 400 * q) / 100) with ((y - 1) / 100 + 4 * q).
  2: { replace (y - 1 + 400 * q) with (y - 1 + (4 * q) * 100) by lia.
       now rewrite Z.div_add by lia. }
  replace ((y - 1 + 400 * q) / 400) with ((y - 1) / 400 + q).
  2: { replace (y - 1 + 400 * q) with (y - 1 + q * 400) by lia.
       now rewrite Z.div_add by lia. }
  lia.
Qed.

Lemma _ord2ymd_period n :
  _ord2ymd n =
  let '(y, m, d) := _ord2ymd ((n - 1) mod 146097 + 1) in
  (y + 400 * ((n - 1) / 146097), m, d).
Proof.
  pose proof (Z.mod_pos_bound (n - 1) 146097 ltac:(lia)) as Hr.
  unfold _ord2ymd. cbv zeta.
  replace ((n - 1) mod 146097 + 1 - 1) with ((n - 1) mod 146097) by lia.
  rewrite (Z.div_small ((n - 1) mod 146097) 146097) by lia.
  rewrite (Z.mod_small ((n - 1) mod 146097) 146097) by lia.
  set (r := (n - 1) mod 146097). set (q := (n - 1) / 146097).
  destruct ((r mod 36524 mod 1461 / 365 =? 4) || (r / 36524 =? 4)).
  - f_equal. f_equal. lia.
  - destruct (_ <? _); f_equal; f_equal; lia.
Qed.

(** [date.fromordinal] and [toordinal] are inverse to each other. *)
Lemma _ymd2ord_ord2ymd n :
  let '(y, m, d) := _ord2ymd n in _ymd2ord y m d = n.
Proof.
  pose proof (Z.mod_pos_bound (n - 1) 146097 ltac:(lia)) as Hr.
  rewrite _ord2ymd_period.
  pose proof (all_from_spec _ _ _ cycle_table ((n - 1) mod 146097 + 1)) as T.
  rewrite Z2Nat.id in T by lia. specialize (T ltac:(lia)).
  destruct (_ord2ymd ((n - 1) mod 146097 + 1)) as [[y m] d].
  apply Z.eqb_eq in T. rewrite _ymd2ord_period, T.
  pose proof (Z.div_mod (n - 1) 146097 ltac:(lia)). lia.
Qed.

Lemma toordinal_add_days t n : toordinal (add_days t n) = toordinal t + n.
Proof.
  unfold add_days. pose proof (_ymd2ord_ord2ymd (toordinal t + n)) as H.
  destruct (_ord2ymd (toordinal t + n)) as [[y m] d]. exact H.
Qed.


End Ordinals.

(** ** C7: 来週 *)

Section NextWeek.
Import AiService.





Lemma days_until_next_monday_spec now :
  1 <= days_until_next_monday now <= 7
  /\ (weekday now + days_until_next_monday now) mod 7 = 0.
Proof.
  unfold days_until_next_monday, weekday.
  set (o := toordinal now + 6).
  pose proof (Z.mod_pos_bound o 7 ltac:(lia)) as Ho.
  pose proof (Z.mod_pos_bound (7 - o mod 7) 7 ltac:(lia)) as Hk.
  destruct ((7 - o mod 7) mod 7 =? 0) eqn:E.
  - apply Z.eqb_eq in E. split; [lia|].
    assert (o mod 7 = 0 \/ 1 <= o mod 7 <= 6) as [H0|H1] by lia.
    + rewrite H0. reflexivity.
    + rewrite Z.mod_small in E by lia. lia.
  - apply Z.eqb_neq in E. split; [lia|].
    assert (o mod 7 = 0 \/ 1 <= o mod 7 <= 6) as [H0|H1] by lia.
    + exfalso. apply E. rewrite H0. reflexivity.
    + rewrite (Z.mod_small (7 - o mod 7) 7) by lia.
      replace (o mod 7 + (7 - o mod 7)) with 7 by lia. reflexivity.
Qed.




End NextWeek.

(** ** Printing and reading a time of day *)

Section TimeOfDay.

(** [strptime] reads back what [strftime] prints, for every minute of the
    day (checked minute by minute). *)
Lemma hhmm_table :
  forallb (fun n =>
             match strptime_HM (hhmm (Z.of_nat n / 60) (Z.of_nat n mod 60)) with
             | Ok v => v =? Z.of_nat n
             | Raise _ => false
             end) (List.seq 0 1440) = true.
Proof. vm_compute. reflexivity. Qed.

Lemma strptime_HM_hhmm m :
  0 <= m < 1440 -> strptime_HM (hhmm (m / 60) (m mod 60)) = Ok m.
Proof.
  intros Hm. pose proof hhmm_table as T. rewrite forallb_forall in T.
  specialize (T (Z.to_nat m)). rewrite in_seq in T.
  rewrite Z2Nat.id in T by lia.
  destruct (strptime_HM _) as [v|]; [|discriminate T; lia].
  f_equal. apply Z.eqb_eq. apply T. lia.
Qed.

Lemma strptime_HM_canonical h m :
  0 <= h < 24 -> 0 <= m < 60 -> strptime_HM (hhmm h m) = Ok (h * 60 + m).
Proof.
  intros Hh Hm. rewrite <- (strptime_HM_hhmm (h * 60 + m)) by lia.
  f_equal. f_equal.
  - rewrite Z.div_add_l by lia. rewrite Z.div_small by lia. lia.
  - rewrite Z.add_comm, Z.mod_add by lia. now rewrite Z.mod_small by lia.
Qed.

Lemma strptime_HM_strftime t : strptime_HM (strftime_HM_at t) = Ok (t mod 1440).
Proof.
  unfold strftime_HM_at. apply strptime_HM_hhmm.
  apply Z.mod_pos_bound. lia.
Qed.

Lemma mod_day d0 t : d0 mod 1440 = 0 -> d0 <= t < d0 + 1440 -> d0 + t mod 1440 = t.
Proof.
  intros H0 Ht.
  pose proof (Z.div_mod d0 1440 ltac:(lia)) as E. rewrite H0 in E.
  rewrite <- (Z.mod_unique t 1440 (d0 / 1440) (t - d0)); lia.
Qed.

Lemma strptime_date_time_strftime date_str d t :
  strptime_ymd date_str = Ok d ->
  toordinal d * 1440 <= t < toordinal d * 1440 + 1440 ->
  strptime_date_time date_str (strftime_HM_at t) = Ok t.
Proof.
  intros Hd Ht. unfold strptime_date_time. rewrite Hd. cbn [bind].
  rewrite strptime_HM_strftime. cbn [bind]. f_equal.
  apply mod_day; auto. apply Z.mod_mul. lia.
Qed.

End TimeOfDay.

(** ** The sweep *)

Section Sweep.
Import CalendarService.

(** Every end point of a free interval is the current time, the end of
    the frame, or an end point of a busy interval. *)
Lemma sweep_endpoints (P : Z -> Prop) end_dt busy : forall cur,
  P cur -> P end_dt ->
  Forall (fun b => P (fst b) /\ P (snd b)) busy ->
  Forall (fun f => P (fst f) /\ P (snd f)) (sweep cur busy end_dt).
Proof.
  induction busy as [|[bs be] busy IH]; intros cur Hc He Hb; simpl.
  - destruct (cur <? end_dt); repeat constructor; auto.
  - inversion Hb as [|? ? [Hs Hbe] Hb']; subst. simpl in Hs, Hbe.
    apply Forall_app. split.
    + destruct (cur <? bs); repeat constructor; auto.
    + apply IH; auto. destruct (Z.max_spec cur be) as [[_ ->] | [_ ->]]; auto.
Qed.

(** Free intervals are not empty and stay between the current time and
    the end of the frame. *)
Lemma sweep_within end_dt busy : forall cur,
  Forall (fun b => fst b <= end_dt) busy ->
  Forall (fun f => cur <= fst f /\ fst f < snd f /\ snd f <= end_dt)
         (sweep cur busy end_dt).
Proof.
  induction busy as [|[bs be] busy IH]; intros cur Hb; simpl.
  - destruct (cur <? end_dt) eqn:E; repeat constructor; simpl; lia.
  - inversion Hb as [|? ? Hs Hb']; subst. simpl in Hs.
    apply Forall_app. split.
    + destruct (cur <? bs) eqn:E; repeat constructor; simpl; lia.
    + eapply Forall_impl; [|apply (IH (Z.max cur be) Hb')].
      intros f (H1 & H2 & H3). repeat split; auto. lia.
Qed.

(** Every instant from the current time to the end of the frame is free
    or busy. *)
Lemma sweep_covers end_dt busy : forall cur t,
  cur <= t < end_dt ->
  Exists (covers t) (sweep cur busy end_dt) \/ Exists (covers t) busy.
Proof.
  induction busy as [|[bs be] busy IH]; intros cur t Ht; simpl.
  - left. destruct (cur <? end_dt) eqn:E.
    + constructor. unfold covers. simpl. lia.
    + apply Z.ltb_ge in E. lia.
  - destruct (Z_lt_le_dec t bs) as [Hlt | Hge].
    + left. apply Exists_app. left.
      destruct (cur <? bs) eqn:E.
      * constructor. unfold covers. simpl. lia.
      * apply Z.ltb_ge in E. lia.
    + destruct (Z_lt_le_dec t be) as [Hlt' | Hge'].
      * right. constructor. unfold covers. simpl. lia.
      * destruct (IH (Z.max cur be) t ltac:(lia)) as [H | H].
        -- left. apply Exists_app. now right.
        -- right. now constructor 2.
Qed.

(** With the busy intervals sorted by start, no free interval meets a
    busy one, and no two free intervals meet. *)
Lemma sweep_disjoint end_dt busy : forall cur,
  StronglySorted (fun a b => fst a <= fst b) busy ->
  Forall (fun b => fst b <= end_dt) busy ->
  Forall (fun f => Forall (disjoint f) busy) (sweep cur busy end_dt).
Proof.
  induction busy as [|[bs be] busy IH]; intros cur Hs Hb; simpl.
  - destruct (cur <? end_dt); repeat constructor.
  - inversion Hs as [|? ? Hs' Hle]; subst.
    inversion Hb as [|? ? Hbs Hb']; subst. simpl in Hbs.
    apply Forall_app. split.
    + destruct (cur <? bs); repeat constructor.
      * intros t [[_ H1] [H2 _]]. simpl in *. lia.
      * rewrite Forall_forall in *. intros b Hin t [[_ H1] [H2 _]].
        specialize (Hle b Hin). simpl in *. lia.
    + pose proof (sweep_within end_dt busy (Z.max cur be) Hb') as Hw.
      specialize (IH (Z.max cur be) Hs' Hb').
      rewrite Forall_forall in *. intros f Hf. constructor.
      * intros t [[H1 _] [_ H2]]. destruct (Hw f Hf) as (H3 & _). simpl in *. lia.
      * apply Forall_forall. intros b Hin. exact (proj1 (Forall_forall _ _) (IH f Hf) b Hin).
Qed.


(** ** The busy list *)

Lemma clip_spec start_dt end_dt ev b :
  clip start_dt end_dt ev = Some b ->
  start_dt <= fst b /\ snd b <= end_dt
  /\ (fst b = start_dt \/ fst b < end_dt)
  /\ (snd b = end_dt \/ start_dt < snd b)
  /\ (start_dt <= end_dt -> well_formed ev -> fst b <= snd b).
Proof.
  unfold clip, well_formed.
  destruct (when ev) as [s e | a].
  - destruct ((e <=? start_dt) || (end_dt <=? s)) eqn:E; [discriminate|].
    apply orb_false_iff in E. destruct E as [E1 E2].
    apply Z.leb_gt in E1, E2. intros H; injection H as <-. simpl. lia.
  - cbv zeta.
    destruct ((a + 1440 <=? start_dt) || (end_dt <=? a)) eqn:E; [discriminate|].
    apply orb_false_iff in E. destruct E as [E1 E2].
    apply Z.leb_gt in E1, E2. intros H; injection H as <-. simpl. lia.
Qed.

Lemma busy_times_spec start_dt end_dt events (P : Z * Z -> Prop) :
  (forall ev b, In ev events -> clip start_dt end_dt ev = Some b -> P b) ->
  Forall P (busy_times start_dt end_dt events).
Proof.
  induction events as [|ev events IH]; intros H; simpl; auto.
  destruct (clip start_dt end_dt ev) as [b|] eqn:E.
  - constructor; [eapply H; eauto; now left|]. apply IH. intros; eapply H; eauto.
    now right.
  - apply IH. intros; eapply H; eauto. now right.
Qed.

(** ** Sorting *)

Lemma insert_by_start_in b l x : In x (insert_by_start b l) <-> x = b \/ In x l.
Proof.
  induction l as [|c l IH]; simpl.
  - intuition.
  - destruct (fst b <=? fst c); simpl; rewrite ?IH; intuition.
Qed.

Lemma sorted_by_start_in l x : In x (sorted_by_start l) <-> In x l.
Proof.
  induction l as [|b l IH]; simpl; [tauto|].
  rewrite insert_by_start_in, IH. intuition.
Qed.

Lemma insert_by_start_sorted b l :
  StronglySorted (fun a b => fst a <= fst b) l ->
  StronglySorted (fun a b => fst a <= fst b) (insert_by_start b l).
Proof.
  induction l as [|c l IH]; intros Hs; simpl.
  - repeat constructor.
  - inversion Hs as [|? ? Hs' Hle]; subst.
    destruct (fst b <=? fst c) eqn:E.
    + apply Z.leb_le in E. constructor; auto. constructor; [lia|].
      eapply Forall_impl; [|exact Hle]. simpl. intros; lia.
    + apply Z.leb_gt in E. constructor; auto.
      apply Forall_forall. intros x Hx. apply insert_by_start_in in Hx.
      destruct Hx as [-> | Hx]; [lia|].
      exact (proj1 (Forall_forall _ _) Hle x Hx).
Qed.

Lemma sorted_by_start_sorted l :
  StronglySorted (fun a b => fst a <= fst b) (sorted_by_start l).
Proof.
  induction l; simpl; [constructor|]. now apply insert_by_start_sorted.
Qed.

Lemma Forall_sorted (P : Z * Z -> Prop) l : Forall P l -> Forall P (sorted_by_start l).
Proof.
  rewrite !Forall_forall. intros H x Hx. apply H. now apply sorted_by_start_in.
Qed.

Lemma Exists_sorted (P : Z * Z -> Prop) l : Exists P (sorted_by_start l) <-> Exists P l.
Proof.
  rewrite !Exists_exists. split; intros (x & Hx & Hp); exists x; split; auto;
    now apply sorted_by_start_in.
Qed.

(** ** [free_intervals] *)

(** Either there is no busy interval and the whole frame is free, or the
    free intervals are the sweep of the sorted busy list. *)
Lemma free_intervals_cases start_dt end_dt events :
  (busy_times start_dt end_dt events = []
   /\ free_intervals start_dt end_dt events = [(start_dt, end_dt)])
  \/ free_intervals start_dt end_dt events
     = sweep start_dt (sorted_by_start (busy_times start_dt end_dt events)) end_dt.
Proof.
  unfold free_intervals. destruct events as [|ev events]; [left; auto|].
  destruct (busy_times start_dt end_dt (ev :: events)); [left; auto|right; auto].
Qed.

Lemma free_intervals_endpoints (P : Z -> Prop) start_dt end_dt events :
  P start_dt -> P end_dt ->
  (forall ev b, In ev events -> clip start_dt end_dt ev = Some b ->
                P (fst b) /\ P (snd b)) ->
  Forall (fun f => P (fst f) /\ P (snd f)) (free_intervals start_dt end_dt events).
Proof.
  intros Hs He Hb.
  destruct (free_intervals_cases start_dt end_dt events) as [[_ ->] | ->].
  - repeat constructor; auto.
  - apply sweep_endpoints; auto. apply Forall_sorted. now apply busy_times_spec.
Qed.

(** A frame inside one day has its free intervals inside that day. *)
Lemma free_intervals_in_day d0 start_dt end_dt events :
  d0 <= start_dt < d0 + 1440 -> d0 <= end_dt < d0 + 1440 ->
  Forall (fun f => d0 <= fst f < d0 + 1440 /\ d0 <= snd f < d0 + 1440)
         (free_intervals start_dt end_dt events).
Proof.
  intros Hs He. apply (free_intervals_endpoints (fun t => d0 <= t < d0 + 1440)); auto.
  intros ev b _ Hc. apply clip_spec in Hc. lia.
Qed.

(** The free intervals of a proper frame lie in the frame. *)
Lemma free_intervals_within start_dt end_dt events :
  start_dt < end_dt ->
  Forall (fun f => start_dt <= fst f /\ fst f < snd f /\ snd f <= end_dt)
         (free_intervals start_dt end_dt events).
Proof.
  intros Hlt.
  destruct (free_intervals_cases start_dt end_dt events) as [[_ ->] | ->].
  - repeat constructor; simpl; lia.
  - apply sweep_within. apply Forall_sorted. apply busy_times_spec.
    intros ev b _ Hc. apply clip_spec in Hc. lia.
Qed.

End Sweep.

(** ** The times [strptime] accepts *)

Section ParsedTimes.

Lemma digit_in_bound zs c v : digit_in zs c = Some v -> (v <= 9)%N.
Proof.
  induction zs as [|z zs IH]; simpl; [discriminate|].
  destruct ((z <=? c) && (c <? z + 10))%N eqn:E; auto.
  apply andb_true_iff in E. destruct E as [E1 E2].
  apply N.leb_le in E1. apply N.ltb_lt in E2.
  intros H; injection H as <-. lia.
Qed.

Lemma is_digit_value c :
  is_digit c = true -> exists v, digit_value c = Some v /\ (v <= 9)%N.
Proof.
  unfold is_digit. destruct (digit_value c) as [v|] eqn:E; [|discriminate].
  intros _. exists v. split; auto. eapply digit_in_bound; eauto.
Qed.

Lemma range_digit_value lo hi c :
  (48 <= lo)%N -> (hi <= 57)%N -> Strptime.range lo hi c = true ->
  digit_value c = Some (c - 48)%N /\ (lo <= c <= hi)%N.
Proof.
  intros Hlo Hhi H. unfold Strptime.range in H.
  apply andb_true_iff in H. destruct H as [H1 H2].
  apply N.leb_le in H1. apply N.leb_le in H2. split; [|lia].
  unfold digit_value, digit_zeros. cbn [digit_in].
  destruct ((48 <=? c) && (c <? 48 + 10))%N eqn:E; auto.
  apply andb_false_iff in E. destruct E as [E | E].
  - apply N.leb_gt in E. lia.
  - apply N.ltb_ge in E. lia.
Qed.

Lemma digit_value_is_digit c v : digit_value c = Some v -> is_digit c = true.
Proof. unfold is_digit. now intros ->. Qed.

Lemma py_int_one c v : digit_value c = Some v -> py_int [c] = Ok (Z.of_N v).
Proof.
  intros H. unfold py_int. rewrite strip_digits.
  - simpl. now rewrite H.
  - simpl. now rewrite (digit_value_is_digit _ _ H).
Qed.

Lemma py_int_two c1 c2 v1 v2 :
  digit_value c1 = Some v1 -> digit_value c2 = Some v2 ->
  py_int [c1; c2] = Ok (10 * Z.of_N v1 + Z.of_N v2).
Proof.
  intros H1 H2. unfold py_int. rewrite strip_digits.
  - simpl. rewrite H1, H2. f_equal; lia.
  - simpl. now rewrite (digit_value_is_digit _ _ H1), (digit_value_is_digit _ _ H2).
Qed.

Ltac invert_matches :=
  repeat match goal with
  | H : matches (Re.Seq _ _) _ _ _ |- _ => inversion H; subst; clear H
  | H : matches (Re.Alt _ _) _ _ _ |- _ => inversion H; subst; clear H
  | H : matches (Re.Chr _) _ _ _ |- _ => inversion H; subst; clear H
  | H : matches (Re.Cls _) _ _ _ |- _ => inversion H; subst; clear H
  | H : matches (Re.Grp _) _ _ _ |- _ => inversion H; subst; clear H
  end.

Ltac digit_facts :=
  repeat match goal with
  | H : Strptime.range _ _ _ = true |- _ =>
    apply range_digit_value in H; [destruct H as [? ?] | lia | lia]
  | H : is_digit _ = true |- _ =>
    apply is_digit_value in H; destruct H as (? & ? & ?)
  end.

Lemma matches_H g rest c :
  matches Strptime.re_H g rest c ->
  c = [g] /\ exists v, py_int g = Ok v /\ 0 <= v <= 23.
Proof.
  unfold Strptime.re_H. intros M. invert_matches; digit_facts; (split; [reflexivity|]).
  - eexists. split; [apply py_int_two; [reflexivity|eassumption]|]. lia.
  - eexists. split; [apply py_int_two; eassumption|]. lia.
  - eexists. split; [apply py_int_one; eassumption|]. lia.
Qed.

Lemma matches_M g rest c :
  matches Strptime.re_M g rest c ->
  c = [g] /\ exists v, py_int g = Ok v /\ 0 <= v <= 59.
Proof.
  unfold Strptime.re_M. intros M. invert_matches; digit_facts; (split; [reflexivity|]).
  - eexists. split; [apply py_int_two; eassumption|]. lia.
  - eexists. split; [apply py_int_one; eassumption|]. lia.
Qed.

(** Whatever [strptime] reads as HH:MM is a minute of the day. *)
Lemma strptime_HM_range s v : strptime_HM s = Ok v -> 0 <= v < 1440.
Proof.
  unfold strptime_HM, Strptime.parse.
  destruct (Re.match_at _ s) as [[len caps]|] eqn:E; [|discriminate].
  destruct (Nat.eqb len (List.length s)); [|discriminate].
  apply match_at_sound in E. destruct E as (g & rest & _ & M & _).
  cbv [Re.seq] in M.
  inversion M as [| | |? ? ? ? ? ? ? MH M2| | | | | |]; subst; clear M.
  inversion M2 as [| | |? ? ? ? ? ? ? MC MM| | | | | |]; subst; clear M2.
  inversion MC; subst; clear MC.
  apply matches_H in MH. destruct MH as (-> & h & Hh & Hhr).
  apply matches_M in MM. destruct MM as (-> & m & Hm & Hmr).
  cbn [bind app nth]. rewrite Hh. cbn [bind]. rewrite Hm. cbn [bind].
  intros H; injection H as <-. lia.
Qed.

Lemma strptime_date_time_in_day date_str s t :
  strptime_date_time date_str s = Ok t ->
  exists d, strptime_ymd date_str = Ok d
            /\ toordinal d * 1440 <= t < toordinal d * 1440 + 1440.
Proof.
  unfold strptime_date_time.
  destruct (strptime_ymd date_str) as [d|]; cbn [bind]; [|discriminate].
  destruct (strptime_HM s) as [hm|] eqn:E; cbn [bind]; [|discriminate].
  apply strptime_HM_range in E. intros H; injection H as <-.
  exists d. split; auto. lia.
Qed.

End ParsedTimes.

(** ** C1 and C5: free intervals of a day *)

Section Tiling.
Import CalendarService LineBotHandler.


Lemma busy_fst_le_end start_dt end_dt events :
  start_dt <= end_dt ->
  Forall (fun b => fst b <= end_dt)
         (sorted_by_start (busy_times start_dt end_dt events)).
Proof.
  intros Hle. apply Forall_sorted, busy_times_spec.
  intros ev b _ Hc. apply clip_spec in Hc. lia.
Qed.




(** The travel margin applied to printed slots. *)
Lemma travel_filter_spec date_str d T free :
  strptime_ymd date_str = Ok d ->
  Forall (fun f => toordinal d * 1440 <= fst f < toordinal d * 1440 + 1440
                   /\ toordinal d * 1440 <= snd f < toordinal d * 1440 + 1440) free ->
  travel_filter date_str T (map render free) = Ok (map render (shrink T free)).
Proof.
  intros Hd. unfold travel_filter.
  enough (G : forall acc,
    Forall (fun f => toordinal d * 1440 <= fst f < toordinal d * 1440 + 1440
                   /\ toordinal d * 1440 <= snd f < toordinal d * 1440 + 1440) free ->
    foldM (fun filtered_free_slots s =>
             slot_start_parsed <- strptime_date_time date_str (slot_start s) ;;
             slot_end_parsed <- strptime_date_time date_str (slot_end s) ;;
             if slot_start_parsed + T <? slot_end_parsed - T
             then Ok (filtered_free_slots
                      ++ [mk_slot (strftime_HM_at (slot_start_parsed + T))
                                  (strftime_HM_at (slot_end_parsed - T))])
             else Ok filtered_free_slots)
          (map render free) acc
    = Ok (acc ++ map render (shrink T free))) by (intros; now apply (G [])).
  induction free as [|f free IH]; intros acc Hf.
  - simpl. now rewrite app_nil_r.
  - inversion Hf as [|? ? [H1 H2] Hf']; subst.
    cbn [map foldM render slot_start slot_end].
    rewrite !(strptime_date_time_strftime _ _ _ Hd) by auto. cbn [bind].
    unfold shrink. cbn [flat_map]. fold (shrink T free).
    destruct (fst f + T <? snd f - T); cbn [bind].
    + rewrite IH by auto. rewrite map_app, app_assoc. reflexivity.
    + rewrite IH by auto. reflexivity.
Qed.

(** C5.  With a travel time [T > 0] the margin is applied, and for a
    frame the handler has read (its date with its start, its date with
    its end) every free interval [(start, end)] of the sweep is reported
    as [(start + T, end - T)], or dropped when [start + T >= end - T];
    the 09:00-18:00 frame with meetings 10:00-11:00 and 14:00-14:30 and
    [T = 30] reports 11:30-13:30 and 15:00-17:30. *)
Theorem travel_margin_shrinks_free_intervals
    date_str start_text end_text start_dt end_dt events T :
  strptime_date_time date_str start_text = Ok start_dt ->
  strptime_date_time date_str end_text = Ok end_dt ->
  0 < T ->
  travel_active (Some T) = Some T
  /\ travel_filter date_str T (find_free_slots_for_day start_dt end_dt events)
     = Ok (map render (shrink T (free_intervals start_dt end_dt events)))
  /\ (forall iv, In iv (shrink T (free_intervals start_dt end_dt events)) <->
        exists s e, In (s, e) (free_intervals start_dt end_dt events)
                    /\ s + T < e - T /\ iv = (s + T, e - T))
  /\ handle_date
       (fun _ _ => [meeting (on_0710 10 0) (on_0710 11 0);
                    meeting (on_0710 14 0) (on_0710 14 30)])
       None (Some 30) (frame_of "2025-07-10" "09:00" "18:00")
     = Some (mk_frame (u "2025-07-10") (u "09:00") (u "18:00")
               [slot_of "11:30" "13:30"; slot_of "15:00" "17:30"]).
Proof.
  intros Hs He HT. split; [|split; [|split]].
  - unfold travel_active.
    destruct (T =? 0) eqn:E0; [apply Z.eqb_eq in E0; lia|].
    destruct (0 <? T) eqn:E1; [reflexivity|apply Z.ltb_ge in E1; lia].
  - apply strptime_date_time_in_day in Hs. destruct Hs as (d & Hd & Hs).
    apply strptime_date_time_in_day in He. destruct He as (d' & Hd' & He).
    assert (d' = d) by congruence. subst d'.
    unfold find_free_slots_for_day. apply (travel_filter_spec _ d); auto.
    now apply free_intervals_in_day.
  - intros iv. unfold shrink. rewrite in_flat_map. split.
    + intros ([s e] & Hin & Hiv). simpl in Hiv.
      destruct (s + T <? e - T) eqn:E; [|destruct Hiv].
      destruct Hiv as [<- | []]. exists s, e. repeat split; auto.
      now apply Z.ltb_lt.
    + intros (s & e & Hin & Hlt & ->). exists (s, e). split; auto. simpl.
      apply Z.ltb_lt in Hlt. rewrite Hlt. now left.
  - vm_compute. reflexivity.
Qed.

Lemma travel_margin_shrinks_free_intervals_witness :
  travel_filter (u "2025-07-10") 30
    (find_free_slots_for_day (on_0710 9 0) (on_0710 18 0)
       [meeting (on_0710 10 0) (on_0710 11 0);
        meeting (on_0710 14 0) (on_0710 14 30)])
  = Ok (map render (shrink 30
          (free_intervals (on_0710 9 0) (on_0710 18 0)
             [meeting (on_0710 10 0) (on_0710 11 0);
              meeting (on_0710 14 0) (on_0710 14 30)]))).
Proof.
  assert (Hs : strptime_date_time (u "2025-07-10") (u "09:00") = Ok (on_0710 9 0)).
  { vm_compute. reflexivity. }
  assert (He : strptime_date_time (u "2025-07-10") (u "18:00") = Ok (on_0710 18 0)).
  { vm_compute. reflexivity. }
  assert (HT : 0 < 30) by reflexivity.
  exact (proj1 (proj2 (travel_margin_shrinks_free_intervals (u "2025-07-10")
           (u "09:00") (u "18:00") (on_0710 9 0) (on_0710 18 0)
           [meeting (on_0710 10 0) (on_0710 11 0);
            meeting (on_0710 14 0) (on_0710 14 30)] 30 Hs He HT))).
Defined.

End Tiling.

(** ** C10 and C2: the frame of a date *)

Section Clamp.
Import CalendarService LineBotHandler.

(** On zero-padded times the textual [max], [min] and [<] of the handler
    agree with the order of the times (checked minute by minute). *)
Lemma clamp_start_table :
  forallb (fun n =>
             let m := Z.of_nat n in
             str_eqb (str_max (hhmm (m / 60) (m mod 60)) day_start)
                     (hhmm (Z.max m 480 / 60) (Z.max m 480 mod 60)))
          (List.seq 0 1440) = true.
Proof. vm_compute. reflexivity. Qed.

Lemma clamp_end_table :
  forallb (fun n =>
             let m := Z.of_nat n in
             str_eqb (str_min (hhmm (m / 60) (m mod 60)) day_end)
                     (hhmm (Z.min m 1439 / 60) (Z.min m 1439 mod 60)))
          (List.seq 0 1440) = true.
Proof. vm_compute. reflexivity. Qed.

Lemma order_step_table :
  forallb (fun n =>
             str_ltb (hhmm (Z.of_nat n / 60) (Z.of_nat n mod 60))
                     (hhmm ((Z.of_nat n + 1) / 60) ((Z.of_nat n + 1) mod 60)))
          (List.seq 0 1439) = true.
Proof. vm_compute. reflexivity. Qed.

Lemma str_ltb_trans a : forall b c,
  str_ltb a b = true -> str_ltb b c = true -> str_ltb a c = true.
Proof.
  induction a as [|x a IH]; intros [|y b] [|z c]; simpl; try discriminate; auto.
  destruct (N.ltb_spec x y), (N.ltb_spec y x), (N.ltb_spec y z), (N.ltb_spec z y),
    (N.ltb_spec x z), (N.ltb_spec z x); try discriminate; try lia; auto.
  apply IH.
Qed.

Lemma str_ltb_irrefl a : str_ltb a a = false.
Proof.
  induction a as [|x a IH]; simpl; auto. now rewrite N.ltb_irrefl.
Qed.

Lemma hhmm_increasing a b :
  0 <= a -> a < b -> b < 1440 ->
  str_ltb (hhmm (a / 60) (a mod 60)) (hhmm (b / 60) (b mod 60)) = true.
Proof.
  intros Ha Hab Hb.
  assert (Hstep : forall n, 0 <= n < 1439 ->
            str_ltb (hhmm (n / 60) (n mod 60)) (hhmm ((n + 1) / 60) ((n + 1) mod 60))
            = true).
  { intros n Hn. pose proof order_step_table as T. rewrite forallb_forall in T.
    specialize (T (Z.to_nat n)). rewrite in_seq, Z2Nat.id in T by lia.
    apply T. lia. }
  replace b with (a + 1 + Z.of_nat (Z.to_nat (b - a - 1))) in * by lia.
  induction (Z.to_nat (b - a - 1)) as [|k IH].
  - rewrite Z.add_0_r. apply Hstep. lia.
  - eapply str_ltb_trans; [apply IH; lia|].
    replace (a + 1 + Z.of_nat (S k)) with (a + 1 + Z.of_nat k + 1) by lia.
    apply Hstep. lia.
Qed.

Lemma str_ltb_hhmm a b :
  0 <= a < 1440 -> 0 <= b < 1440 ->
  str_ltb (hhmm (a / 60) (a mod 60)) (hhmm (b / 60) (b mod 60)) = (a <? b).
Proof.
  intros Ha Hb. destruct (a <? b) eqn:E.
  - apply Z.ltb_lt in E. apply hhmm_increasing; lia.
  - apply Z.ltb_ge in E.
    destruct (str_ltb _ _) eqn:L; auto.
    destruct (Z.eq_dec a b) as [-> | Hne].
    + now rewrite str_ltb_irrefl in L.
    + pose proof (hhmm_increasing b a ltac:(lia) ltac:(lia) ltac:(lia)) as L'.
      pose proof (str_ltb_trans _ _ _ L L') as C.
      now rewrite str_ltb_irrefl in C.
Qed.

Lemma str_eqb_eq a b : str_eqb a b = true -> a = b.
Proof. unfold str_eqb. destruct (list_eq_dec N.eq_dec a b); congruence. Qed.

Lemma clamp_start m :
  0 <= m < 1440 ->
  str_max (hhmm (m / 60) (m mod 60)) day_start
  = hhmm (Z.max m 480 / 60) (Z.max m 480 mod 60).
Proof.
  intros Hm. pose proof clamp_start_table as T. rewrite forallb_forall in T.
  specialize (T (Z.to_nat m)). rewrite in_seq in T. cbv zeta in T.
  rewrite Z2Nat.id in T by lia. apply str_eqb_eq, T. lia.
Qed.

Lemma clamp_end m :
  0 <= m < 1440 ->
  str_min (hhmm (m / 60) (m mod 60)) day_end
  = hhmm (Z.min m 1439 / 60) (Z.min m 1439 mod 60).
Proof.
  intros Hm. pose proof clamp_end_table as T. rewrite forallb_forall in T.
  specialize (T (Z.to_nat m)). rewrite in_seq in T. cbv zeta in T.
  rewrite Z2Nat.id in T by lia. apply str_eqb_eq, T. lia.
Qed.

Lemma hhmm_of_minutes h m :
  0 <= h < 24 -> 0 <= m < 60 ->
  hhmm h m = hhmm ((h * 60 + m) / 60) ((h * 60 + m) mod 60).
Proof.
  intros Hh Hm. f_equal.
  - rewrite Z.div_add_l by lia. rewrite Z.div_small by lia. lia.
  - rewrite Z.add_comm, Z.mod_add by lia. now rewrite Z.mod_small by lia.
Qed.

Lemma hhmm_not_empty h m : hhmm h m <> [].
Proof. unfold hhmm. destruct (fmt_d 2 h); discriminate. Qed.

Lemma handle_date_frame get_events loc travel date_str start_time end_time ed ti de :
  date_str <> [] -> start_time <> [] -> end_time <> [] ->
  handle_date get_events loc travel
    (AiService.mk_entry (Some date_str) (Some start_time) (Some end_time) ed ti de)
  = match frame_body get_events loc travel date_str start_time end_time with
    | Ok r => r
    | Raise _ => Some (mk_frame date_str start_time end_time [])
    end.
Proof.
  destruct date_str, start_time, end_time; try congruence. reflexivity.
Qed.

Lemma travel_active_pos travel t : travel_active travel = Some t -> 0 < t.
Proof.
  unfold travel_active. destruct travel as [t0|]; [|discriminate].
  destruct (negb (t0 =? 0) && (0 <? t0)) eqn:E; [|discriminate].
  apply andb_true_iff in E. destruct E as [_ E]. apply Z.ltb_lt in E.
  intros H; injection H as <-. exact E.
Qed.

(** An interval of the day that starts at [d0] is printed as its two
    times of day. *)
Lemma render_reads_back d0 lo hi f :
  d0 mod 1440 = 0 -> 0 <= lo -> hi < 1440 ->
  d0 + lo <= fst f -> fst f < snd f -> snd f <= d0 + hi ->
  exists a b,
    strptime_HM (slot_start (render f)) = Ok a
    /\ strptime_HM (slot_end (render f)) = Ok b
    /\ lo <= a /\ a < b /\ b <= hi.
Proof.
  intros H0 Hlo Hhi H1 H2 H3. unfold render. cbn [slot_start slot_end].
  rewrite !strptime_HM_strftime.
  exists (fst f mod 1440), (snd f mod 1440). repeat split; auto.
  - pose proof (mod_day d0 (fst f) H0 ltac:(lia)). lia.
  - pose proof (mod_day d0 (fst f) H0 ltac:(lia)).
    pose proof (mod_day d0 (snd f) H0 ltac:(lia)). lia.
  - pose proof (mod_day d0 (snd f) H0 ltac:(lia)). lia.
Qed.

(** On zero-padded times the clamp is the one promised.  For a frame
    whose start and end are written as zero-padded HH:MM, the frame used
    is [max(start, 08:00), min(end, 23:59)]: every reported free slot lies
    inside it, and an empty clamped range reports no slot. *)
Theorem free_slots_stay_in_clamped_frame
    get_events loc travel date_str h1 m1 h2 m2 ed ti de fr :
  0 <= h1 < 24 -> 0 <= m1 < 60 -> 0 <= h2 < 24 -> 0 <= m2 < 60 ->
  handle_date get_events loc travel
    (AiService.mk_entry (Some date_str) (Some (hhmm h1 m1)) (Some (hhmm h2 m2))
       ed ti de) = Some fr ->
  let lo := Z.max (h1 * 60 + m1) 480 in
  let hi := Z.min (h2 * 60 + m2) 1439 in
  Forall (fun s => exists a b,
            strptime_HM (slot_start s) = Ok a /\ strptime_HM (slot_end s) = Ok b
            /\ lo <= a /\ a < b /\ b <= hi) (free_slots fr)
  /\ (hi <= lo -> free_slots fr = [])
  /\ (forall d, strptime_ymd date_str = Ok d ->
        frame_start_time fr = hhmm (lo / 60) (lo mod 60)
        /\ frame_end_time fr = hhmm (hi / 60) (hi mod 60)).
Proof.
  intros Hh1 Hm1 Hh2 Hm2 H lo hi.
  assert (Hd : date_str <> []).
  { intros ->. discriminate H. }
  rewrite handle_date_frame in H by auto using hhmm_not_empty.
  unfold frame_body, strptime_date_time in H.
  destruct (strptime_ymd date_str) as [d|e] eqn:Ed; cbn [bind] in H.
  2: { injection H as <-. cbn [free_slots].
       split; [constructor|split; [auto|intros; discriminate]]. }
  rewrite !strptime_HM_canonical in H by auto. cbn [bind] in H.
  destruct (filter_events loc _) as [events|]; [|discriminate H].
  cbv zeta in H.
  rewrite (hhmm_of_minutes h1 m1), (hhmm_of_minutes h2 m2) in H by auto.
  rewrite clamp_start, clamp_end in H by lia.
  fold lo in H. fold hi in H.
  assert (Hlo : 480 <= lo < 1440) by (subst lo; lia).
  assert (Hhi : 0 <= hi < 1440) by (subst hi; lia).
  rewrite !strptime_HM_hhmm in H by lia. cbn [bind] in H.
  rewrite str_ltb_hhmm in H by lia.
  set (d0 := toordinal d * 1440) in *.
  assert (H0 : d0 mod 1440 = 0) by (subst d0; apply Z.mod_mul; lia).
  destruct (lo <? hi) eqn:Elt.
  - apply Z.ltb_lt in Elt.
    pose proof (free_intervals_within (d0 + lo) (d0 + hi) events ltac:(lia)) as Hw.
    pose proof (free_intervals_in_day d0 (d0 + lo) (d0 + hi) events
                  ltac:(lia) ltac:(lia)) as Hday.
    destruct (travel_active travel) as [t|] eqn:Et.
    + apply travel_active_pos in Et.
      unfold find_free_slots_for_day in H.
      rewrite (travel_filter_spec _ d) in H by auto. cbn [bind] in H.
      injection H as <-. cbn [free_slots frame_start_time frame_end_time].
      split; [|split; [lia|intros d' Hd'; auto]].
      apply Forall_map. apply Forall_forall. intros iv Hiv.
      unfold shrink in Hiv. apply in_flat_map in Hiv.
      destruct Hiv as (f & Hf & Hiv).
      destruct (fst f + t <? snd f - t) eqn:Es; [|destruct Hiv].
      apply Z.ltb_lt in Es. destruct Hiv as [<- | []].
      pose proof (proj1 (Forall_forall _ _) Hw f Hf) as (W1 & W2 & W3).
      apply (render_reads_back d0); simpl; lia.
    + cbn [bind] in H. injection H as <-.
      cbn [free_slots frame_start_time frame_end_time].
      split; [|split; [lia|intros d' Hd'; auto]].
      unfold find_free_slots_for_day. apply Forall_map.
      eapply Forall_impl; [|exact Hw]. intros f (W1 & W2 & W3).
      apply (render_reads_back d0); lia.
  - cbn [bind] in H. injection H as <-.
    cbn [free_slots frame_start_time frame_end_time].
    split; [constructor|split; auto].
Qed.

Lemma free_slots_stay_in_clamped_frame_witness :
  Forall (fun s => exists a b,
            strptime_HM (slot_start s) = Ok a /\ strptime_HM (slot_end s) = Ok b
            /\ Z.max (6 * 60 + 30) 480 <= a /\ a < b
            /\ b <= Z.min (12 * 60 + 0) 1439)
         (free_slots (mk_frame (u "2025-07-10") (u "08:00") (u "12:00")
                        [slot_of "08:00" "10:00"; slot_of "11:00" "12:00"])).
Proof.
  assert (H : handle_date (fun _ _ => [meeting (on_0710 10 0) (on_0710 11 0)])
                None None
                (AiService.mk_entry (Some (u "2025-07-10")) (Some (hhmm 6 30))
                   (Some (hhmm 12 0)) None None None)
              = Some (mk_frame (u "2025-07-10") (u "08:00") (u "12:00")
                        [slot_of "08:00" "10:00"; slot_of "11:00" "12:00"])).
  { vm_compute. reflexivity. }
  exact (proj1 (free_slots_stay_in_clamped_frame _ None None (u "2025-07-10")
                  6 30 12 0 None None None _
                  ltac:(lia) ltac:(lia) ltac:(lia) ltac:(lia) H)).
Defined.

(** C10.  The clamp compares the times as texts.  The comments of the
    handler promise free time between 8:00 and 24:00, on the overlap of the
    frame with that range; [max], [min] and [<] are applied to the texts.
    A frame from 1:00 is not clamped, because 1:00 sorts after 08:00, and
    free time from 01:00 on is reported; a frame from 7:00 to 9:00 becomes
    7:00 to 23:59, which is empty as texts, and nothing is reported where
    08:00-09:00 is free.  The same frames written 01:00 and 07:00-09:00,
    which [strptime] reads as the same times, are clamped as promised. *)
Theorem clamp_compares_times_as_texts :
  handle_date (fun _ _ => []) None None (frame_of "2025-07-10" "1:00" "23:59")
  = Some (mk_frame (u "2025-07-10") (u "1:00") (u "23:59")
            [slot_of "01:00" "23:59"])
  /\ handle_date (fun _ _ => []) None None (frame_of "2025-07-10" "01:00" "23:59")
     = Some (mk_frame (u "2025-07-10") (u "08:00") (u "23:59")
               [slot_of "08:00" "23:59"])
  /\ handle_date (fun _ _ => []) None None (frame_of "2025-07-10" "7:00" "9:00")
     = Some (mk_frame (u "2025-07-10") (u "7:00") (u "23:59") [])
  /\ handle_date (fun _ _ => []) None None (frame_of "2025-07-10" "07:00" "09:00")
     = Some (mk_frame (u "2025-07-10") (u "08:00") (u "09:00")
               [slot_of "08:00" "09:00"])
  /\ strptime_HM (u "1:00") = strptime_HM (u "01:00")
  /\ strptime_HM (u "7:00") = strptime_HM (u "07:00")
  /\ strptime_HM (u "9:00") = strptime_HM (u "09:00")
  /\ str_max (u "1:00") day_start = u "1:00"
  /\ str_max (u "7:00") day_start = u "7:00"
  /\ str_min (u "9:00") day_end = u "23:59"
  /\ str_ltb (u "7:00") (u "23:59") = false.
Proof.
  split; [vm_compute; reflexivity|].
  split; [vm_compute; reflexivity|].
  split; [vm_compute; reflexivity|].
  split; [vm_compute; reflexivity|].
  split; [vm_compute; reflexivity|].
  split; [vm_compute; reflexivity|].
  split; [vm_compute; reflexivity|].
  split; [vm_compute; reflexivity|].
  split; [vm_compute; reflexivity|].
  split; vm_compute; reflexivity.
Qed.

(** The location filter: a date passes only with an all-day marker that
    names the place, and the markers that name it are taken out; without
    a place, every all-day event is taken out. *)
Lemma filter_events_gate l all_events events :
  l <> [] ->
  filter_events (Some l) all_events = Some events ->
  existsb (is_location_marker l) all_events = true
  /\ events = filter (fun ev => negb (is_location_marker l ev)) all_events.
Proof.
  intros Hl. unfold filter_events. destruct l as [|c l]; [congruence|].
  destruct (existsb _ all_events); [|discriminate].
  intros H; injection H as <-. auto.
Qed.

Lemma filter_events_no_place all_events :
  filter_events None all_events
  = Some (filter (fun ev => negb (is_all_day ev)) all_events).
Proof. reflexivity. Qed.

(** C2 at its failing input.  With the place 東京, a date carries the
    all-day marker 東京出張 and a second all-day event, 誕生日, that does
    not name the place.  The date passes the gate and the marker is taken
    out, but the second all-day event stays in the busy set and blocks
    the whole 08:00-23:59 frame; without a place the same events leave
    the frame free. *)
Theorem unmatched_all_day_event_blocks_filtered_date :
  filter_events (Some (u "東京"))
    [all_day_event (u "東京出張"); all_day_event (u "誕生日")]
  = Some [all_day_event (u "誕生日")]
  /\ handle_date
       (fun _ _ => [all_day_event (u "東京出張"); all_day_event (u "誕生日")])
       (Some (u "東京")) None (frame_of "2025-07-10" "08:00" "23:59")
     = Some (mk_frame (u "2025-07-10") (u "08:00") (u "23:59") [])
  /\ handle_date
       (fun _ _ => [all_day_event (u "東京出張"); all_day_event (u "誕生日")])
       None None (frame_of "2025-07-10" "08:00" "23:59")
     = Some (mk_frame (u "2025-07-10") (u "08:00") (u "23:59")
               [slot_of "08:00" "23:59"]).
Proof.
  split; [vm_compute; reflexivity|].
  split; vm_compute; reflexivity.
Qed.

End Clamp.

(** ** More on the free/busy sweep *)

Section FreeTime.
Import CalendarService.

Lemma busy_times_app start_dt end_dt l1 l2 :
  busy_times start_dt end_dt (l1 ++ l2)
  = busy_times start_dt end_dt l1 ++ busy_times start_dt end_dt l2.
Proof.
  induction l1 as [|ev l1 IH]; simpl; auto.
  destruct (clip start_dt end_dt ev); simpl; now rewrite IH.
Qed.

Lemma busy_times_in start_dt end_dt events b :
  In b (busy_times start_dt end_dt events)
  <-> exists ev, In ev events /\ clip start_dt end_dt ev = Some b.
Proof.
  induction events as [|ev events IH]; simpl.
  - split; [tauto | intros (? & [] & _)].
  - destruct (clip start_dt end_dt ev) as [c|] eqn:E; simpl; rewrite IH; split.
    + intros [<- | (ev' & Hin & Hc)]; [exists ev; auto | exists ev'; auto].
    + intros (ev' & [<- | Hin] & Hc); [left; congruence | right; exists ev'; auto].
    + intros (ev' & Hin & Hc); exists ev'; auto.
    + intros (ev' & [<- | Hin] & Hc); [congruence | exists ev'; auto].
Qed.

(** An instant is free exactly when it is in the frame and no busy
    interval covers it. *)
Lemma free_at_iff start_dt end_dt events t :
  start_dt <= end_dt ->
  free_at start_dt end_dt events t
  <-> start_dt <= t < end_dt
      /\ ~ Exists (covers t) (busy_times start_dt end_dt events).
Proof.
  intros Hle. unfold free_at.
  destruct (free_intervals_cases start_dt end_dt events) as [[Hb ->] | ->].
  - rewrite Hb. split.
    + intros H. apply Exists_exists in H. destruct H as (f & [<- | []] & Hc).
      split; [exact Hc | intros Hn; inversion Hn].
    + intros [Ht _]. constructor. exact Ht.
  - pose proof (busy_fst_le_end start_dt end_dt events Hle) as Hend.
    split.
    + intros H. apply Exists_exists in H. destruct H as (f & Hf & Hc).
      pose proof (sweep_within end_dt _ start_dt Hend) as Hw.
      pose proof (sweep_disjoint end_dt _ start_dt
                    (sorted_by_start_sorted _) Hend) as Hd.
      rewrite Forall_forall in Hw, Hd.
      destruct (Hw f Hf) as (H1 & H2 & H3). split.
      * unfold covers in Hc. lia.
      * intros Hb. apply (proj2 (Exists_sorted _ _)) in Hb. apply Exists_exists in Hb.
        destruct Hb as (b & Hb & Hcb).
        specialize (Hd f Hf). rewrite Forall_forall in Hd.
        exact (Hd b Hb t (conj Hc Hcb)).
    + intros [Ht Hn].
      destruct (sweep_covers end_dt
                  (sorted_by_start (busy_times start_dt end_dt events))
                  start_dt t Ht) as [H | H]; auto.
      exfalso. exact (Hn (proj1 (Exists_sorted _ _) H)).
Qed.

(** X1.  Adding events to a calendar never frees time.  For a frame that
    does not end before it starts, every instant [find_free_slots_for_day]
    leaves free when the calendar holds [events'] is also free when it holds
    only some of these events, in any order and with any repetition. *)
Theorem more_events_less_free_time start_dt end_dt events events' t :
  start_dt <= end_dt ->
  incl events events' ->
  free_at start_dt end_dt events' t -> free_at start_dt end_dt events t.
Proof.
  intros Hle Hincl H.
  apply free_at_iff in H; auto. apply free_at_iff; auto.
  destruct H as [Ht Hn]. split; auto.
  intros Hb. apply Hn.
  apply Exists_exists in Hb. destruct Hb as (b & Hb & Hc).
  apply Exists_exists. exists b. split; auto.
  apply busy_times_in in Hb. destruct Hb as (ev & Hin & Hcl).
  apply busy_times_in. exists ev. split; auto.
Qed.

Lemma more_events_less_free_time_witness :
  free_at (on_0710 9 0) (on_0710 18 0)
    [meeting (on_0710 10 0) (on_0710 11 0)] (on_0710 12 0).
Proof.
  apply (more_events_less_free_time (on_0710 9 0) (on_0710 18 0)
           [meeting (on_0710 10 0) (on_0710 11 0)]
           [meeting (on_0710 14 0) (on_0710 14 30);
            meeting (on_0710 10 0) (on_0710 11 0)] (on_0710 12 0)).
  - vm_compute. discriminate.
  - intros ev [<- | []]. right. left. reflexivity.
  - unfold free_at.
    assert (E : free_intervals (on_0710 9 0) (on_0710 18 0)
                  [meeting (on_0710 14 0) (on_0710 14 30);
                   meeting (on_0710 10 0) (on_0710 11 0)]
                = [(on_0710 9 0, on_0710 10 0); (on_0710 11 0, on_0710 14 0);
                   (on_0710 14 30, on_0710 18 0)])
      by (vm_compute; reflexivity).
    rewrite E. apply Exists_cons_tl. apply Exists_cons_hd.
    split; [vm_compute; discriminate | vm_compute; reflexivity].
Defined.

(** X2.  Events that do not meet the frame are ignored.  When every event
    ends by the start of the frame or starts at its end or later (an empty
    calendar included), the whole frame is returned as the one free slot. *)
Theorem events_outside_frame_are_ignored start_dt end_dt events :
  Forall (outside start_dt end_dt) events ->
  find_free_slots_for_day start_dt end_dt events
  = [mk_slot (strftime_HM_at start_dt) (strftime_HM_at end_dt)].
Proof.
  intros H.
  assert (Hb : busy_times start_dt end_dt events = []).
  { induction H as [|ev events Hev _ IH]; simpl; auto.
    unfold outside in Hev. unfold clip.
    destruct (when ev) as [s e | a].
    - replace ((e <=? start_dt) || (end_dt <=? s)) with true; auto.
      symmetry. apply orb_true_iff. destruct Hev; [left | right]; now apply Z.leb_le.
    - cbv zeta.
      replace ((a + 1440 <=? start_dt) || (end_dt <=? a)) with true; auto.
      symmetry. apply orb_true_iff. destruct Hev; [left | right]; now apply Z.leb_le. }
  unfold find_free_slots_for_day, free_intervals.
  destruct events; [reflexivity|]. rewrite Hb. reflexivity.
Qed.

Lemma events_outside_frame_are_ignored_witness :
  find_free_slots_for_day (on_0710 9 0) (on_0710 18 0)
    [meeting (on_0710 7 0) (on_0710 9 0); meeting (on_0710 18 0) (on_0710 19 0)]
  = [mk_slot (strftime_HM_at (on_0710 9 0)) (strftime_HM_at (on_0710 18 0))].
Proof.
  apply (events_outside_frame_are_ignored (on_0710 9 0) (on_0710 18 0)
           [meeting (on_0710 7 0) (on_0710 9 0); meeting (on_0710 18 0) (on_0710 19 0)]).
  constructor; [left; vm_compute; discriminate|].
  constructor; [right; vm_compute; discriminate|]. constructor.
Defined.

(** X3.  An event over the whole frame leaves nothing.  When some event of
    the calendar, timed or all-day, starts no later than a non-empty frame and
    ends no earlier, no free slot is returned, whatever the other events. *)
Theorem spanning_event_leaves_no_slot start_dt end_dt events ev :
  start_dt < end_dt -> In ev events -> spans start_dt end_dt ev ->
  find_free_slots_for_day start_dt end_dt events = [].
Proof.
  intros Hlt Hin Hsp.
  assert (Hc : clip start_dt end_dt ev = Some (start_dt, end_dt)).
  { unfold spans in Hsp. unfold clip. destruct (when ev) as [s e | a].
    - replace ((e <=? start_dt) || (end_dt <=? s)) with false.
      + f_equal. f_equal; lia.
      + symmetry. apply orb_false_iff. split; apply Z.leb_gt; lia.
    - cbv zeta. replace ((a + 1440 <=? start_dt) || (end_dt <=? a)) with false.
      + f_equal. f_equal; lia.
      + symmetry. apply orb_false_iff. split; apply Z.leb_gt; lia. }
  unfold find_free_slots_for_day.
  destruct (free_intervals start_dt end_dt events) as [|f free] eqn:E; auto.
  exfalso.
  assert (Hfree : free_at start_dt end_dt events (fst f)).
  { unfold free_at. rewrite E. constructor.
    pose proof (free_intervals_within start_dt end_dt events Hlt) as Hw.
    rewrite E in Hw. inversion Hw as [|? ? Hf _]; subst. unfold covers. lia. }
  apply free_at_iff in Hfree; [|lia]. destruct Hfree as [Ht Hn]. apply Hn.
  apply Exists_exists. exists (start_dt, end_dt). split.
  - apply busy_times_in. exists ev. auto.
  - exact Ht.
Qed.

Lemma spanning_event_leaves_no_slot_witness :
  find_free_slots_for_day (on_0710 9 0) (on_0710 18 0)
    [meeting (on_0710 10 0) (on_0710 11 0); all_day_event (u "offsite")] = [].
Proof.
  apply (spanning_event_leaves_no_slot (on_0710 9 0) (on_0710 18 0)
           [meeting (on_0710 10 0) (on_0710 11 0); all_day_event (u "offsite")]
           (all_day_event (u "offsite"))).
  - vm_compute. reflexivity.
  - right. left. reflexivity.
  - split; vm_compute; discriminate.
Defined.






End FreeTime.

(** ** Dates, printed and read back *)

(** Case analysis on a month or day number, and the month tables. *)
Ltac each_month m :=
  let C := fresh "C" in
  assert (C : m = 1 \/ m = 2 \/ m = 3 \/ m = 4 \/ m = 5 \/ m = 6 \/ m = 7
              \/ m = 8 \/ m = 9 \/ m = 10 \/ m = 11 \/ m = 12) by lia;
  repeat (destruct C as [C | C]; [subst m|]); [..|subst m].

Ltac each_day d :=
  let C := fresh "C" in
  assert (C : d = 1 \/ d = 2 \/ d = 3 \/ d = 4 \/ d = 5 \/ d = 6 \/ d = 7
              \/ d = 8 \/ d = 9 \/ d = 10 \/ d = 11 \/ d = 12 \/ d = 13
              \/ d = 14 \/ d = 15 \/ d = 16 \/ d = 17 \/ d = 18 \/ d = 19
              \/ d = 20 \/ d = 21 \/ d = 22 \/ d = 23 \/ d = 24 \/ d = 25
              \/ d = 26 \/ d = 27 \/ d = 28 \/ d = 29 \/ d = 30 \/ d = 31)
    by lia;
  repeat (destruct C as [C | C]; [subst d|]); [..|subst d].

Ltac month_consts :=
  repeat match goal with
  | |- context [_DAYS_BEFORE_MONTH ?m] =>
    let v := eval vm_compute in (_DAYS_BEFORE_MONTH m) in
    change (_DAYS_BEFORE_MONTH m) with v
  | |- context [_DAYS_IN_MONTH ?m] =>
    let v := eval vm_compute in (_DAYS_IN_MONTH m) in
    change (_DAYS_IN_MONTH m) with v
  | H : context [_DAYS_BEFORE_MONTH ?m] |- _ =>
    let v := eval vm_compute in (_DAYS_BEFORE_MONTH m) in
    change (_DAYS_BEFORE_MONTH m) with v in H
  | H : context [_DAYS_IN_MONTH ?m] |- _ =>
    let v := eval vm_compute in (_DAYS_IN_MONTH m) in
    change (_DAYS_IN_MONTH m) with v in H
  end.

Section PrintedDates.


Lemma _days_in_month_period y m q : _days_in_month (y + 400 * q) m = _days_in_month y m.
Proof. unfold _days_in_month. now rewrite _is_leap_period. Qed.

Lemma _days_in_month_bound y m : 1 <= m <= 12 -> 28 <= _days_in_month y m <= 31.
Proof.
  intros Hm. unfold _days_in_month.
  assert (C : m = 1 \/ m = 2 \/ m = 3 \/ m = 4 \/ m = 5 \/ m = 6 \/ m = 7
              \/ m = 8 \/ m = 9 \/ m = 10 \/ m = 11 \/ m = 12) by lia.
  repeat (destruct C as [-> | C]); try subst m;
    destruct (_is_leap y); vm_compute; split; discriminate.
Qed.


(** Four-digit years, year by year: [%Y] prints four digits that [int]
    reads back. *)
Lemma year_table :
  all_from (Z.to_nat 10000) 0 (fun y =>
    match fmt_d 4 y with
    | [a; b; c; d] =>
      is_digit a && is_digit b && is_digit c && is_digit d
      && match py_int [a; b; c; d] with Ok v => v =? y | Raise _ => false end
    | _ => false
    end) = true.
Proof. vm_compute. reflexivity. Qed.

Lemma fmt_d_year y :
  0 <= y <= 9999 ->
  exists a b c d,
    fmt_d 4 y = [a; b; c; d]
    /\ is_digit a = true /\ is_digit b = true /\ is_digit c = true
    /\ is_digit d = true /\ py_int [a; b; c; d] = Ok y.
Proof.
  intros Hy.
  pose proof (all_from_spec _ _ _ year_table y) as T.
  rewrite Z2Nat.id in T by lia. specialize (T ltac:(lia)). cbv beta in T.
  destruct (fmt_d 4 y) as [|a [|b [|c [|d [|]]]]]; try discriminate T.
  exists a, b, c, d.
  apply andb_true_iff in T. destruct T as [T E].
  apply andb_true_iff in T. destruct T as [T Hd].
  apply andb_true_iff in T. destruct T as [T Hc].
  apply andb_true_iff in T. destruct T as [Ha Hb].
  destruct (py_int [a; b; c; d]) as [v|]; [|discriminate E].
  apply Z.eqb_eq in E. subst v. repeat split; auto.
Qed.

(** [%Y] takes four digits and leaves the rest to the continuation. *)
Lemma run_re_Y {A} a b c d rest caps (k : str -> list str -> option A) :
  is_digit a = true -> is_digit b = true -> is_digit c = true -> is_digit d = true ->
  Re.run Strptime.re_Y (a :: b :: c :: d :: rest) caps k
  = k rest (caps ++ [[a; b; c; d]]).
Proof.
  intros Ha Hb Hc Hd. unfold Strptime.re_Y. cbn [Re.run Re.seq].
  rewrite Ha, Hb, Hc, Hd. f_equal. f_equal. f_equal.
  cbn [List.length].
  replace (S (S (S (S (List.length rest)))) - List.length rest)%nat with 4%nat by lia.
  reflexivity.
Qed.

Lemma month_day_table :
  all_from 31 1 (fun d =>
    match py_int (fmt_d 2 d) with Ok v => v =? d | Raise _ => false end) = true.
Proof. vm_compute. reflexivity. Qed.

Lemma py_int_fmt_d2 d : 1 <= d <= 31 -> py_int (fmt_d 2 d) = Ok d.
Proof.
  intros Hd.
  pose proof (all_from_spec _ _ _ month_day_table d ltac:(lia)) as T. cbv beta in T.
  destruct (py_int (fmt_d 2 d)) as [v|]; [|discriminate T].
  apply Z.eqb_eq in T. now subst.
Qed.

(** [%Y-%m-%d] on a printed date: the three groups are the three printed
    fields. *)
Lemma match_at_printed_date a b c d m dd :
  is_digit a = true -> is_digit b = true -> is_digit c = true -> is_digit d = true ->
  1 <= m <= 12 -> 1 <= dd <= 31 ->
  Re.match_at re_ymd ([a; b; c; d] ++ [45%N] ++ fmt_d 2 m ++ [45%N] ++ fmt_d 2 dd)
  = Some (10%nat, [[a; b; c; d]; fmt_d 2 m; fmt_d 2 dd]).
Proof.
  intros Ha Hb Hc Hd Hm Hdd.
  unfold Re.match_at, re_ymd. cbn [Re.seq Re.run app].
  rewrite (run_re_Y a b c d) by assumption.
  each_month m; each_day dd; vm_compute; reflexivity.
Qed.


(** A date of the calendar, with a year [strftime] prints in four digits. *)
Lemma strptime_ymd_printed y m d :
  1 <= y <= 9999 -> 1 <= m <= 12 -> 1 <= d <= _days_in_month y m ->
  strptime_ymd (fmt_d 4 y ++ [45%N] ++ fmt_d 2 m ++ [45%N] ++ fmt_d 2 d)
  = Ok (mk_datetime y m d 0 0 None).
Proof.
  intros Hy Hm Hd.
  pose proof (_days_in_month_bound y m Hm) as Hb.
  destruct (fmt_d_year y ltac:(lia)) as (a & b & c & e & -> & Ha & Hb' & Hc & He & Hi).
  unfold strptime_ymd, Strptime.parse. fold re_ymd.
  rewrite (match_at_printed_date a b c e m d) by (auto; lia).
  replace (Nat.eqb 10 (List.length ([a; b; c; e] ++ [45%N] ++ fmt_d 2 m ++ [45%N] ++ fmt_d 2 d)))
    with true.
  2: { each_month m; each_day d; reflexivity. }
  cbn [bind nth]. rewrite Hi. cbn [bind].
  rewrite !py_int_fmt_d2 by lia. cbn [bind].
  unfold datetime_new.
  replace ((1 <=? y) && (y <=? 9999) && (1 <=? m) && (m <=? 12) && (1 <=? d)
           && (d <=? _days_in_month y m)) with true; auto.
  symmetry. repeat (apply andb_true_iff; split); apply Z.leb_le; lia.
Qed.

(** The calendar year by year. *)
Lemma _days_before_year_step y :
  _days_before_year (y + 1)
  = _days_before_year y + 365 + (if _is_leap y then 1 else 0).
Proof.
  unfold _days_before_year, _is_leap. cbv zeta.
  replace (y + 1 - 1) with y by lia.
  destruct (y mod 4 =? 0) eqn:E4; destruct (y mod 100 =? 0) eqn:E100;
    destruct (y mod 400 =? 0) eqn:E400; cbn [andb orb negb];
    rewrite ?Z.eqb_eq, ?Z.eqb_neq in *;
    Z.div_mod_to_equations; lia.
Qed.

Lemma _days_before_year_mono y k : 0 <= k ->
  _days_before_year y + 365 * k <= _days_before_year (y + k).
Proof.
  intros Hk. pattern k. apply natlike_ind; auto.
  - replace (y + 0) with y by lia. lia.
  - intros x Hx IH. replace (y + Z.succ x) with (y + x + 1) by lia.
    rewrite _days_before_year_step. destruct (_is_leap (y + x)); lia.
Qed.

Lemma _ymd2ord_bounds y m d :
  1 <= m <= 12 -> 1 <= d <= _days_in_month y m ->
  _days_before_year y + 1 <= _ymd2ord y m d <= _days_before_year (y + 1).
Proof.
  intros Hm Hd. rewrite _days_before_year_step.
  unfold _ymd2ord, _days_before_month. unfold _days_in_month in Hd.
  generalize (_days_before_year y). intros D.
  each_month m; month_consts; destruct (_is_leap y); cbn in Hd |- *; lia.
Qed.
(** The date of an ordinal is a day of the calendar (one cycle, day by
    day). *)
Lemma cycle_dates_table :
  all_from (Z.to_nat 146097) 1
    (fun n => let '(y, m, d) := _ord2ymd n in
              (1 <=? m) && (m <=? 12) && (1 <=? d) && (d <=? _days_in_month y m))
  = true.
Proof. vm_compute. reflexivity. Qed.

Lemma _ord2ymd_valid n :
  let '(y, m, d) := _ord2ymd n in
  1 <= m <= 12 /\ 1 <= d <= _days_in_month y m.
Proof.
  pose proof (Z.mod_pos_bound (n - 1) 146097 ltac:(lia)) as Hr.
  rewrite _ord2ymd_period.
  pose proof (all_from_spec _ _ _ cycle_dates_table ((n - 1) mod 146097 + 1)) as T.
  rewrite Z2Nat.id in T by lia. specialize (T ltac:(lia)).
  destruct (_ord2ymd ((n - 1) mod 146097 + 1)) as [[y m] d].
  rewrite _days_in_month_period.
  apply andb_true_iff in T. destruct T as [T T4].
  apply andb_true_iff in T. destruct T as [T T3].
  apply andb_true_iff in T. destruct T as [T1 T2].
  apply Z.leb_le in T1, T2, T3, T4. lia.
Qed.

(** The year of a date at most a year of days later. *)
Lemma add_days_valid t k :
  valid_date t -> year t <= 9998 -> 0 <= k <= 365 ->
  valid_date (add_days t k).
Proof.
  intros (Hy & Hm & Hd) Hy' Hk.
  pose proof (_ord2ymd_valid (toordinal t + k)) as V.
  pose proof (toordinal_add_days t k) as O.
  unfold add_days in *. 
  destruct (_ord2ymd (toordinal t + k)) as [[y m] d]. destruct V as [Vm Vd].
  unfold toordinal in O. cbn [year month day] in O.
  pose proof (_ymd2ord_bounds y m d Vm Vd) as B.
  pose proof (_ymd2ord_bounds (year t) (month t) (day t) Hm Hd) as B0.
  unfold toordinal in O.
  unfold valid_date. cbn [year month day]. repeat split; try lia.
  - destruct (Z_lt_le_dec y (year t)) as [Hlt | Hge]; [|lia].
    pose proof (_days_before_year_mono (y + 1) (year t - y - 1) ltac:(lia)) as M.
    replace (y + 1 + (year t - y - 1)) with (year t) in M by lia. lia.
  - destruct (Z_lt_le_dec (year t + 1) y) as [Hlt | Hge]; [|lia].
    pose proof (_days_before_year_mono (year t + 1) (y - year t - 1) ltac:(lia)) as M.
    replace (year t + 1 + (y - year t - 1)) with y in M by lia. lia.
Qed.

Lemma add_days_add t a b : add_days (add_days t a) b = add_days t (a + b).
Proof.
  unfold add_days at 1. rewrite toordinal_add_days.
  unfold add_days. rewrite Z.add_assoc.
  destruct (_ord2ymd (toordinal t + a)) as [[y1 m1] d1].
  destruct (_ord2ymd (toordinal t + a + b)) as [[y m] d]. reflexivity.
Qed.

Lemma strptime_ymd_strftime t :
  valid_date t -> strptime_ymd (strftime_ymd t) = Ok (midnight t).
Proof.
  intros (Hy & Hm & Hd). unfold strftime_ymd, midnight.
  now apply strptime_ymd_printed.
Qed.

End PrintedDates.

(** ** Relative days and the month, as the handler reads them *)

Section RelativeDays.
Import AiService Availability.

Lemma toordinal_midnight t : toordinal (midnight t) = toordinal t.
Proof. reflexivity. Qed.

(** A day up to a year ahead is printed and read back as that day. *)
Lemma relative_day_read_back t k :
  valid_date t -> year t <= 9998 -> 0 <= k <= 365 ->
  strptime_ymd (strftime_ymd (add_days t k)) = Ok (midnight (add_days t k))
  /\ toordinal (midnight (add_days t k)) = toordinal t + k.
Proof.
  intros Hv Hy Hk. split.
  - apply strptime_ymd_strftime. now apply add_days_valid.
  - rewrite toordinal_midnight. apply toordinal_add_days.
Qed.

(** X5.  Dates the normalizer prints are the dates the handler reads.
    For a day of the calendar and a time of the day, [strptime] applied
    to the text [strftime('%Y-%m-%d')] printed gives the same day, and the
    handler's parse of that date with the printed time is that minute of
    that day. *)
Theorem printed_dates_read_back t h m :
  valid_date t -> 0 <= h < 24 -> 0 <= m < 60 ->
  strptime_ymd (strftime_ymd t) = Ok (midnight t)
  /\ strptime_date_time (strftime_ymd t) (hhmm h m)
     = Ok (toordinal t * 1440 + (h * 60 + m)).
Proof.
  intros Hv Hh Hm.
  pose proof (strptime_ymd_strftime t Hv) as E. split; auto.
  unfold strptime_date_time. rewrite E. cbn [bind].
  rewrite strptime_HM_canonical by lia. cbn [bind].
  now rewrite toordinal_midnight.
Qed.

Lemma printed_dates_read_back_witness :
  strptime_ymd (strftime_ymd (mk_datetime 2024 2 29 17 45 (Some 540)))
  = Ok (midnight (mk_datetime 2024 2 29 17 45 (Some 540))).
Proof.
  assert (Hv : valid_date (mk_datetime 2024 2 29 17 45 (Some 540))).
  { unfold valid_date. cbn [year month day].
    split; [lia|]. split; [lia|]. vm_compute. split; discriminate. }
  exact (proj1 (printed_dates_read_back _ 8 0 Hv ltac:(lia) ltac:(lia))).
Defined.

(** X6.  The seven 来週 dates are read back as next week.  With the clock
    on a day of the calendar (before the year 9999), the handler's
    [strptime] accepts each of the seven dates the 来週 step prints, and
    reads them as seven consecutive days, Monday to Sunday, the first one
    1 to 7 days after today. *)
Theorem week_dates_are_read_back wall :
  valid_date wall -> year wall <= 9998 ->
  1 <= days_until_next_monday (datetime_now wall) <= 7
  /\ Forall2 (fun week_date i =>
                exists dt, strptime_ymd week_date = Ok dt
                  /\ toordinal dt
                     = toordinal wall + days_until_next_monday (datetime_now wall) + i
                  /\ weekday dt = i)
             (week_dates (datetime_now wall)) [0; 1; 2; 3; 4; 5; 6].
Proof.
  intros Hv Hy.
  set (now := datetime_now wall).
  assert (Hn : valid_date now) by exact Hv.
  assert (Hyn : year now <= 9998) by exact Hy.
  destruct (days_until_next_monday_spec now) as [Hdu Hmon].
  split; [exact Hdu|].
  assert (G : forall i, 0 <= i <= 6 ->
            exists dt,
              strptime_ymd (strftime_ymd
                 (add_days (add_days now (days_until_next_monday now)) i)) = Ok dt
              /\ toordinal dt = toordinal wall + days_until_next_monday now + i
              /\ weekday dt = i).
  { intros i Hi. rewrite add_days_add.
    destruct (relative_day_read_back now (days_until_next_monday now + i) Hn Hyn
                ltac:(lia)) as [E O].
    eexists. split; [exact E|]. split.
    - rewrite O. unfold now, toordinal. cbn [year month day datetime_now]. lia.
    - unfold weekday at 1. rewrite O.
      unfold weekday in Hmon. clear - Hmon Hi Hdu.
      generalize dependent (toordinal now). intros o Hmon.
      generalize dependent (days_until_next_monday now). intros du Hdu Hmon.
      Z.div_mod_to_equations. lia. }
  unfold week_dates. cbn [map].
  repeat (constructor; [apply G; lia|]). constructor.
Qed.

Lemma week_dates_are_read_back_witness :
  1 <= days_until_next_monday (datetime_now wall_wednesday) <= 7.
Proof.
  assert (Hv : valid_date wall_wednesday).
  { unfold valid_date, wall_wednesday. cbn [year month day].
    split; [lia|]. split; [lia|]. vm_compute. split; discriminate. }
  assert (Hy : year wall_wednesday <= 9998) by (cbn; lia).
  exact (proj1 (week_dates_are_read_back wall_wednesday Hv Hy)).
Defined.

End RelativeDays.

(** ** The month *)

Section Month.
Import AiService Availability.






End Month.

(** ** Sorting without repetition *)

Section SortedLists.
Context {A : Type} (ltb : A -> A -> bool).
Hypothesis ltb_irrefl : forall a, ltb a a = false.
Hypothesis ltb_trans : forall a b c, ltb a b = true -> ltb b c = true -> ltb a c = true.
Hypothesis ltb_total : forall a b, ltb a b = false -> ltb b a = false -> a = b.

Lemma insert_sorted_in a l x :
  In x (AiReply.insert_sorted ltb a l) <-> x = a \/ In x l.
Proof.
  induction l as [|y l IH]; simpl.
  - intuition.
  - destruct (ltb y a); simpl; rewrite ?IH; intuition.
Qed.

Lemma sorted_in l x : In x (AiReply.sorted ltb l) <-> In x l.
Proof.
  induction l as [|a l IH]; simpl; [tauto|].
  rewrite insert_sorted_in, IH. intuition.
Qed.

Lemma insert_sorted_strict a l :
  StronglySorted (fun x y => ltb x y = true) l -> ~ In a l ->
  StronglySorted (fun x y => ltb x y = true) (AiReply.insert_sorted ltb a l).
Proof.
  induction l as [|y l IH]; intros Hs Hn; simpl.
  - repeat constructor.
  - inversion Hs as [|? ? Hs' Hall]; subst.
    destruct (ltb y a) eqn:E.
    + constructor.
      * apply IH; auto. intros H. apply Hn. now right.
      * apply Forall_forall. intros x Hx. apply insert_sorted_in in Hx.
        destruct Hx as [-> | Hx]; auto.
        exact (proj1 (Forall_forall _ _) Hall x Hx).
    + assert (Hay : ltb a y = true).
      { destruct (ltb a y) eqn:E'; auto.
        exfalso. apply Hn. left. now apply ltb_total. }
      constructor; auto. constructor; auto.
      eapply Forall_impl; [|exact Hall]. intros x Hx. eapply ltb_trans; eauto.
Qed.

Lemma sorted_strict l :
  NoDup l -> StronglySorted (fun x y => ltb x y = true) (AiReply.sorted ltb l).
Proof.
  induction 1 as [|a l Hn Hd IH]; simpl; [constructor|].
  apply insert_sorted_strict; auto. now rewrite sorted_in.
Qed.

(** A strictly ascending list is determined by its elements. *)
Lemma strict_unique l1 : forall l2,
  StronglySorted (fun x y => ltb x y = true) l1 ->
  StronglySorted (fun x y => ltb x y = true) l2 ->
  (forall x, In x l1 <-> In x l2) -> l1 = l2.
Proof.
  induction l1 as [|a l1 IH]; intros l2 H1 H2 Hin.
  - destruct l2 as [|b l2]; auto. exfalso. apply (Hin b). now left.
  - destruct l2 as [|b l2]; [exfalso; apply (Hin a); now left|].
    inversion H1 as [|? ? H1' A1]; subst. inversion H2 as [|? ? H2' A2]; subst.
    rewrite Forall_forall in A1, A2.
    assert (a = b).
    { destruct (proj1 (Hin a) (or_introl eq_refl)) as [<- | Ha]; auto.
      destruct (proj2 (Hin b) (or_introl eq_refl)) as [-> | Hb]; auto.
      specialize (A1 b Hb). specialize (A2 a Ha).
      pose proof (ltb_trans _ _ _ A1 A2) as C. rewrite ltb_irrefl in C. discriminate. }
    subst b. f_equal. apply IH; auto.
    intros x. split; intros Hx.
    + destruct (proj1 (Hin x) (or_intror Hx)) as [<- | H]; auto.
      specialize (A1 a Hx). rewrite ltb_irrefl in A1. discriminate.
    + destruct (proj2 (Hin x) (or_intror Hx)) as [<- | H]; auto.
      specialize (A2 a Hx). rewrite ltb_irrefl in A2. discriminate.
Qed.

Lemma strict_filter (p : A -> bool) l :
  StronglySorted (fun x y => ltb x y = true) l ->
  StronglySorted (fun x y => ltb x y = true) (filter p l).
Proof.
  induction 1 as [|a l Hs IH Hall]; simpl; [constructor|].
  destruct (p a); auto. constructor; auto.
  apply Forall_forall. intros x Hx. apply filter_In in Hx.
  exact (proj1 (Forall_forall _ _) Hall x (proj1 Hx)).
Qed.

(** Sorting two lists without repetition that hold the same elements
    gives one list. *)
Lemma sorted_unique l1 l2 :
  NoDup l1 -> NoDup l2 -> (forall x, In x l1 <-> In x l2) ->
  AiReply.sorted ltb l1 = AiReply.sorted ltb l2.
Proof.
  intros H1 H2 Hin. apply strict_unique; try now apply sorted_strict.
  intros x. rewrite !sorted_in. apply Hin.
Qed.

End SortedLists.

(** ** The order of texts and of pairs of texts *)

Section TextOrder.
Import AiReply.

Lemma str_ltb_total a : forall b,
  str_ltb a b = false -> str_ltb b a = false -> a = b.
Proof.
  induction a as [|x a IH]; intros [|y b] H1 H2; simpl in *; auto; try discriminate.
  destruct (x <? y)%N eqn:E1; [discriminate|].
  destruct (y <? x)%N eqn:E2; [discriminate|].
  apply N.ltb_ge in E1, E2. assert (x = y) by lia. subst. f_equal. now apply IH.
Qed.

Lemma str_eqb_neq a b : str_eqb a b = false -> a <> b.
Proof. unfold str_eqb. destruct (list_eq_dec N.eq_dec a b); [discriminate | auto]. Qed.

Lemma pair_eqb_eq a b : pair_eqb a b = true <-> a = b.
Proof.
  unfold pair_eqb. destruct a as [a1 a2], b as [b1 b2]. simpl. split.
  - intros H. apply andb_true_iff in H. destruct H as [H1 H2].
    apply str_eqb_eq in H1, H2. now subst.
  - intros H. injection H as -> ->. now rewrite !str_eqb_refl.
Qed.

Lemma pair_ltb_irrefl a : pair_ltb a a = false.
Proof. unfold pair_ltb. rewrite str_eqb_refl. apply str_ltb_irrefl. Qed.

Lemma pair_ltb_trans a b c :
  pair_ltb a b = true -> pair_ltb b c = true -> pair_ltb a c = true.
Proof.
  unfold pair_ltb. destruct a as [a1 a2], b as [b1 b2], c as [c1 c2]. simpl.
  destruct (str_eqb a1 b1) eqn:E1; destruct (str_eqb b1 c1) eqn:E2;
    try apply str_eqb_eq in E1; try apply str_eqb_eq in E2; subst; intros H1 H2.
  - rewrite str_eqb_refl. eapply str_ltb_trans; eauto.
  - rewrite E2. exact H2.
  - rewrite E1. exact H1.
  - pose proof (str_ltb_trans _ _ _ H1 H2) as T.
    destruct (str_eqb a1 c1) eqn:E3; auto.
    apply str_eqb_eq in E3. subst.
    pose proof (str_ltb_trans _ _ _ H1 H2) as C.
    rewrite str_ltb_irrefl in C. discriminate.
Qed.

Lemma pair_ltb_total a b : pair_ltb a b = false -> pair_ltb b a = false -> a = b.
Proof.
  unfold pair_ltb. destruct a as [a1 a2], b as [b1 b2]. simpl.
  destruct (str_eqb a1 b1) eqn:E1.
  - apply str_eqb_eq in E1. subst. rewrite str_eqb_refl. intros H1 H2.
    f_equal. now apply str_ltb_total.
  - destruct (str_eqb b1 a1) eqn:E2.
    + apply str_eqb_eq in E2. subst. rewrite str_eqb_refl in E1. discriminate.
    + intros H1 H2. exfalso. apply (str_eqb_neq _ _ E1). now apply str_ltb_total.
Qed.

End TextOrder.
(** ** The reply by frame *)

Section Reply.
Import CalendarService LineBotHandler AiReply.

Lemma set_add_in s y x : In x (set_add s y) <-> In x s \/ x = y.
Proof.
  unfold set_add. destruct (existsb (pair_eqb y) s) eqn:E.
  - split; auto. intros [H | ->]; auto.
    apply existsb_exists in E. destruct E as (z & Hz & Ez).
    apply pair_eqb_eq in Ez. now subst.
  - rewrite in_app_iff. simpl. intuition.
Qed.

Lemma set_add_nodup s y : NoDup s -> NoDup (set_add s y).
Proof.
  intros Hs. unfold set_add. destruct (existsb (pair_eqb y) s) eqn:E; auto.
  apply NoDup_app; auto.
  - repeat constructor. intros [].
  - intros x Hx [<- | []].
    assert (existsb (pair_eqb y) s = true); [|congruence].
    apply existsb_exists. exists y. split; auto. now apply pair_eqb_eq.
Qed.

Lemma fold_set_add_in l : forall s x,
  In x (fold_left set_add l s) <-> In x s \/ In x l.
Proof.
  induction l as [|y l IH]; intros s x; simpl; [tauto|].
  rewrite IH, set_add_in. intuition.
Qed.

Lemma fold_set_add_nodup l : forall s, NoDup s -> NoDup (fold_left set_add l s).
Proof.
  induction l as [|y l IH]; intros s Hs; simpl; auto.
  apply IH. now apply set_add_nodup.
Qed.

Lemma get_update d d' f ds :
  get d (update d' f ds) = if str_eqb d' d then f (get d ds) else get d ds.
Proof.
  induction ds as [|[k v] ds IH]; simpl.
  - destruct (str_eqb d' d); reflexivity.
  - destruct (str_eqb k d') eqn:E1; simpl.
    + apply str_eqb_eq in E1. subst k. destruct (str_eqb d' d); reflexivity.
    + rewrite IH. destruct (str_eqb k d) eqn:E2; auto.
      apply str_eqb_eq in E2. subst k.
      destruct (str_eqb d' d) eqn:E3; auto.
      apply str_eqb_eq in E3. subst d'. rewrite str_eqb_refl in E1. discriminate.
Qed.

Lemma update_keys_in d f ds k :
  In k (map fst (update d f ds)) <-> In k (map fst ds) \/ k = d.
Proof.
  induction ds as [|[k' v] ds IH]; simpl.
  - intuition.
  - destruct (str_eqb k' d) eqn:E; simpl.
    + apply str_eqb_eq in E. subst. intuition.
    + rewrite IH. intuition.
Qed.

Lemma update_keys_nodup d f ds :
  NoDup (map fst ds) -> NoDup (map fst (update d f ds)).
Proof.
  induction ds as [|[k v] ds IH]; simpl; intros H.
  - repeat constructor. intros [].
  - inversion H as [|? ? Hn Hd]; subst.
    destruct (str_eqb k d) eqn:E; simpl.
    + constructor; auto.
    + constructor; auto. rewrite update_keys_in. intros [Hk | ->]; auto.
      rewrite str_eqb_refl in E. discriminate.
Qed.

Lemma slot_entries_cons fr frames x :
  In x (slot_entries (fr :: frames))
  <-> In x (map (fun slot => (frame_date fr, (slot_start slot, slot_end slot)))
                (free_slots fr))
      \/ In x (slot_entries frames).
Proof. unfold slot_entries. simpl. now rewrite in_app_iff. Qed.

(** What the first loop leaves in [date_slots]. *)
Lemma collect_get frames : forall acc d p,
  In p (get d (fold_left add_frame frames acc))
  <-> In p (get d acc) \/ In (d, p) (slot_entries frames).
Proof.
  induction frames as [|fr frames IH]; intros acc d p; cbn [fold_left].
  - unfold slot_entries. simpl. tauto.
  - rewrite IH, slot_entries_cons. unfold add_frame at 1. rewrite get_update.
    destruct (str_eqb (frame_date fr) d) eqn:E.
    + apply str_eqb_eq in E. subst d. rewrite fold_set_add_in.
      rewrite !in_map_iff. split.
      * intros [[H | H] | H]; auto. right. left.
        destruct H as (s & <- & Hs). exists s. auto.
      * intros [H | [H | H]]; auto. left. right.
        destruct H as (s & Es & Hs). injection Es as <-. exists s. auto.
    + split; [intros [H | H]; auto|].
      intros [H | [H | H]]; auto. exfalso.
      apply in_map_iff in H. destruct H as (s & Es & _).
      injection Es as Ed _. rewrite Ed, str_eqb_refl in E. discriminate.
Qed.

Lemma collect_nodup frames : forall acc,
  (forall d, NoDup (get d acc)) ->
  forall d, NoDup (get d (fold_left add_frame frames acc)).
Proof.
  induction frames as [|fr frames IH]; intros acc H; simpl; auto.
  apply IH. intros d. unfold add_frame. rewrite get_update.
  destruct (str_eqb (frame_date fr) d); auto. now apply fold_set_add_nodup.
Qed.

Lemma collect_keys_nodup frames : forall acc,
  NoDup (map fst acc) -> NoDup (map fst (fold_left add_frame frames acc)).
Proof.
  induction frames as [|fr frames IH]; intros acc H; simpl; auto.
  apply IH. now apply update_keys_nodup.
Qed.

Lemma get_in_keys d ds p : In p (get d ds) -> In d (map fst ds).
Proof.
  induction ds as [|[k v] ds IH]; simpl; [tauto|].
  destruct (str_eqb k d) eqn:E; auto.
  apply str_eqb_eq in E. auto.
Qed.

Lemma insert_sorted_not_nil {A} (ltb : A -> A -> bool) a l :
  insert_sorted ltb a l <> [].
Proof. destruct l; simpl; [discriminate|]. destruct (ltb a0 a); discriminate. Qed.

Lemma sorted_nil {A} (ltb : A -> A -> bool) l : sorted ltb l = [] -> l = [].
Proof.
  destruct l; auto. simpl. intros H. now apply insert_sorted_not_nil in H.
Qed.

(** The reply is the reply for the listed days. *)
Lemma foldM_add_date ds keys : forall response,
  foldM (add_date ds) keys response
  = foldM (fun response listed => block <- day_block listed ;; Ok (response ++ block))
      (flat_map (fun date =>
                   match sorted pair_ltb (get date ds) with
                   | [] => []
                   | slots => [(date, slots)]
                   end) keys) response.
Proof.
  induction keys as [|k keys IH]; intros response; simpl; auto.
  unfold add_date at 1.
  destruct (sorted pair_ltb (get k ds)) as [|s slots] eqn:E.
  - cbn [bind app]. apply IH.
  - cbn [app foldM]. unfold day_block at 1. cbn [fst snd].
    destruct (strptime_ymd k) as [dt|e]; cbn [bind]; auto.
Qed.

Lemma format_reply_of frames :
  format_free_slots_response_by_frame frames = reply_of (listed_days frames).
Proof.
  unfold format_free_slots_response_by_frame, reply_of, listed_days.
  destruct frames as [|fr frames].
  - cbn [fold_left map sorted fold_right flat_map foldM bind].
    now rewrite str_eqb_refl.
  - cbv zeta. now rewrite foldM_add_date.
Qed.

(** The listed days are the dates that have a slot, ascending, each with
    its slots ascending and without repetition. *)
Lemma listed_days_spec frames :
  exists dates,
    listed_days frames
    = map (fun d => (d, sorted pair_ltb (get d (fold_left add_frame frames [])))) dates
    /\ StronglySorted (fun x y => str_ltb x y = true) dates
    /\ (forall d, In d dates <-> exists p, In (d, p) (slot_entries frames))
    /\ (forall d p, In p (get d (fold_left add_frame frames [])) <->
                    In (d, p) (slot_entries frames))
    /\ (forall d, NoDup (get d (fold_left add_frame frames []))).
Proof.
  set (ds := fold_left add_frame frames []).
  assert (Hget : forall d p, In p (get d ds) <-> In (d, p) (slot_entries frames)).
  { intros d p. unfold ds. rewrite collect_get. simpl. tauto. }
  assert (Hnd : forall d, NoDup (get d ds)).
  { apply collect_nodup. intros d. constructor. }
  set (keys := sorted str_ltb (map fst ds)).
  assert (Hk : StronglySorted (fun x y => str_ltb x y = true) keys).
  { apply sorted_strict.
    - intros a b c. apply str_ltb_trans.
    - apply str_ltb_total.
    - apply collect_keys_nodup. constructor. }
  exists (filter (fun d => match get d ds with [] => false | _ => true end) keys).
  split; [|split; [|split; [|split]]]; auto.
  - unfold listed_days. fold ds. fold keys. clear Hk.
    induction keys as [|k keys IH]; cbn [flat_map filter map]; auto.
    rewrite IH. destruct (get k ds) as [|p l] eqn:E.
    + reflexivity.
    + destruct (sorted pair_ltb (p :: l)) eqn:E'.
      * apply sorted_nil in E'. discriminate.
      * cbn [map app]. rewrite E, E'. reflexivity.
  - now apply strict_filter.
  - intros d. rewrite filter_In. unfold keys. rewrite sorted_in. split.
    + intros [_ H]. destruct (get d ds) as [|p l] eqn:E; [discriminate|].
      exists p. apply Hget. rewrite E. now left.
    + intros (p & Hp). apply Hget in Hp. split.
      * eapply get_in_keys; eauto.
      * destruct (get d ds); [destruct Hp | reflexivity].
Qed.

(** Two frame lists that offer the same dated slots list the same days. *)
Lemma listed_days_unique frames frames' :
  (forall x, In x (slot_entries frames) <-> In x (slot_entries frames')) ->
  listed_days frames = listed_days frames'.
Proof.
  intros Hin.
  destruct (listed_days_spec frames) as (l1 & -> & S1 & M1 & G1 & N1).
  destruct (listed_days_spec frames') as (l2 & -> & S2 & M2 & G2 & N2).
  assert (l1 = l2).
  { apply (strict_unique str_ltb); auto.
    - apply str_ltb_irrefl.
    - intros a b c. apply str_ltb_trans.
    - apply str_ltb_total.
    - intros d. rewrite M1, M2. split; intros (p & Hp); exists p; now apply Hin. }
  subst l2. apply map_ext. intros d. f_equal.
  apply (sorted_unique pair_ltb); auto.
  - apply pair_ltb_irrefl.
  - apply pair_ltb_trans.
  - apply pair_ltb_total.
  - intros p. rewrite G1, G2. apply Hin.
Qed.

Lemma listed_days_nil frames :
  listed_days frames = [] <-> Forall (fun fr => free_slots fr = []) frames.
Proof.
  destruct (listed_days_spec frames) as (l & -> & _ & M & _). split.
  - intros H. apply map_eq_nil in H. subst l.
    apply Forall_forall. intros fr Hfr.
    destruct (free_slots fr) as [|s sl] eqn:E; auto. exfalso.
    apply (proj2 (M (frame_date fr))).
    exists (slot_start s, slot_end s). unfold slot_entries. apply in_flat_map.
    exists fr. split; auto. rewrite E. now left.
  - intros H. destruct l as [|d l]; auto. exfalso.
    destruct (proj1 (M d) (or_introl eq_refl)) as (p & Hp).
    unfold slot_entries in Hp. apply in_flat_map in Hp.
    destruct Hp as (fr & Hfr & Hp). rewrite Forall_forall in H.
    rewrite (H fr Hfr) in Hp. destruct Hp.
Qed.

End Reply.
(** ** What the reply says *)

Section ReplyText.
Import CalendarService LineBotHandler AiReply Availability.

Lemma date_line_not_nil dt : date_line dt <> [].
Proof. unfold date_line. destruct (fmt_d 0 (month dt)); discriminate. Qed.

(** The second loop only appends, and appends something for every listed
    day. *)
Lemma blocks_shape days : forall response response',
  foldM (fun response listed => block <- day_block listed ;; Ok (response ++ block))
    days response = Ok response' ->
  exists body, response' = response ++ body /\ (days <> [] -> body <> []).
Proof.
  induction days as [|day days IH]; intros r r' H; cbn [foldM] in H.
  - injection H as <-. exists []. split; [now rewrite app_nil_r | congruence].
  - unfold day_block at 1 in H.
    destruct (strptime_ymd (fst day)) as [dt|e]; cbn [bind] in H; [|discriminate].
    apply IH in H. destruct H as (body & -> & _).
    exists ((date_line dt ++ flat_map slot_line (snd day)) ++ body). split.
    + now rewrite <- !app_assoc.
    + intros _ C. apply app_eq_nil in C. destruct C as [C _].
      apply app_eq_nil in C. destruct C as [C _]. now apply date_line_not_nil in C.
Qed.

Lemma blocks_ok days : forall response,
  (forall day, In day days -> exists dt, strptime_ymd (fst day) = Ok dt) ->
  exists response',
    foldM (fun response listed => block <- day_block listed ;; Ok (response ++ block))
      days response = Ok response'.
Proof.
  induction days as [|day days IH]; intros r H; cbn [foldM].
  - eexists. reflexivity.
  - destruct (H day (or_introl eq_refl)) as (dt & E).
    unfold day_block at 1. rewrite E. cbn [bind]. apply IH.
    intros d Hd. apply H. now right.
Qed.

Lemma blocks_raise days day e : forall response,
  In day days -> strptime_ymd (fst day) = Raise e ->
  exists e',
    foldM (fun response listed => block <- day_block listed ;; Ok (response ++ block))
      days response = Raise e'.
Proof.
  induction days as [|d days IH]; intros r Hin E; [destruct Hin|].
  cbn [foldM]. destruct Hin as [-> | Hin].
  - unfold day_block at 1. rewrite E. cbn [bind]. eexists. reflexivity.
  - destruct (day_block d) as [b|e1]; cbn [bind]; [|eexists; reflexivity].
    now apply IH.
Qed.

Lemma str_eqb_false a b : a <> b -> str_eqb a b = false.
Proof.
  intros H. destruct (str_eqb a b) eqn:E; auto. apply str_eqb_eq in E. contradiction.
Qed.

Lemma header_then_body body :
  body <> [] ->
  str_eqb (free_time_header ++ body) free_time_header = false
  /\ free_time_header ++ body <> no_free_time.
Proof.
  intros Hb. split.
  - apply str_eqb_false. intros C.
    rewrite <- (app_nil_r free_time_header) in C at 2.
    apply app_inv_head in C. contradiction.
  - intros C. vm_compute in C. discriminate C.
Qed.

Lemma reply_of_nil : reply_of [] = Ok no_free_time.
Proof. unfold reply_of. cbn [foldM bind]. now rewrite str_eqb_refl. Qed.

(** Frames without any slot get the no-free-time reply. *)
Lemma no_free_time_shared frames :
  Forall (fun fr => free_slots fr = []) frames ->
  format_free_slots_response_by_frame frames = Ok no_free_time.
Proof.
  intros H. rewrite format_reply_of.
  apply listed_days_nil in H. rewrite H. apply reply_of_nil.
Qed.

(** X8.  The reply does not depend on how the slots are spread over the
    frames.  Two lists of frames that offer the same dated slots, in any
    order, with any repetition and with any number of frames without slots,
    get the same reply from [format_free_slots_response_by_frame]. *)
Theorem reply_ignores_order_and_repetition frames frames' :
  (forall x, In x (slot_entries frames) <-> In x (slot_entries frames')) ->
  format_free_slots_response_by_frame frames
  = format_free_slots_response_by_frame frames'.
Proof.
  intros H. rewrite !format_reply_of.
  f_equal. now apply listed_days_unique.
Qed.

Lemma reply_ignores_order_and_repetition_witness :
  format_free_slots_response_by_frame
    [mk_frame (u "2025-07-11") (u "08:00") (u "23:59") [slot_of "15:00" "16:00"];
     mk_frame (u "2025-07-10") (u "09:00") (u "12:00") [slot_of "09:00" "10:00"]]
  = format_free_slots_response_by_frame
      [mk_frame (u "2025-07-10") (u "08:00") (u "10:00") [slot_of "09:00" "10:00"];
       mk_frame (u "2025-07-12") (u "08:00") (u "23:59") [];
       mk_frame (u "2025-07-11") (u "08:00") (u "23:59") [slot_of "15:00" "16:00"];
       mk_frame (u "2025-07-10") (u "09:00") (u "12:00") [slot_of "09:00" "10:00"]].
Proof.
  apply (reply_ignores_order_and_repetition
           [mk_frame (u "2025-07-11") (u "08:00") (u "23:59") [slot_of "15:00" "16:00"];
            mk_frame (u "2025-07-10") (u "09:00") (u "12:00") [slot_of "09:00" "10:00"]]
           [mk_frame (u "2025-07-10") (u "08:00") (u "10:00") [slot_of "09:00" "10:00"];
            mk_frame (u "2025-07-12") (u "08:00") (u "23:59") [];
            mk_frame (u "2025-07-11") (u "08:00") (u "23:59") [slot_of "15:00" "16:00"];
            mk_frame (u "2025-07-10") (u "09:00") (u "12:00") [slot_of "09:00" "10:00"]]).
  intros x. unfold slot_entries.
  cbn [flat_map map app frame_date free_slots slot_start slot_end slot_of In].
  tauto.
Defined.

(** X9.  The no-free-time text is said exactly when no frame has a free slot.
    [format_free_slots_response_by_frame] returns the text
    ✅空き時間はありませんでした。 if and only if every frame of its input (if
    any) has an empty slot list; dates without slots are not even read. *)
Theorem no_free_time_iff_no_slot frames :
  format_free_slots_response_by_frame frames = Ok no_free_time
  <-> Forall (fun fr => free_slots fr = []) frames.
Proof.
  rewrite format_reply_of, <- listed_days_nil. split.
  - destruct (listed_days frames) as [|day days]; auto. intros H. exfalso.
    unfold reply_of in H.
    match type of H with
    | bind ?c _ = _ => destruct c as [r|e] eqn:E
    end; cbn [bind] in H; [|discriminate].
    apply blocks_shape in E. destruct E as (body & -> & Hb).
    destruct (header_then_body body (Hb ltac:(discriminate))) as [E1 E2].
    rewrite E1 in H. cbv iota in H. apply E2. congruence.
  - intros ->. apply reply_of_nil.
Qed.

(** X10.  A listed date that cannot be read fails the whole reply.  When
    some frame with a free slot carries a date [strptime] rejects,
    [format_free_slots_response_by_frame] raises instead of answering for
    the other dates. *)
Theorem unreadable_date_fails_the_reply frames fr e :
  In fr frames -> free_slots fr <> [] ->
  strptime_ymd (frame_date fr) = Raise e ->
  exists e', format_free_slots_response_by_frame frames = Raise e'.
Proof.
  intros Hin Hs E. rewrite format_reply_of.
  destruct (listed_days_spec frames) as (dates & -> & _ & M & _).
  assert (Hd : In (frame_date fr) dates).
  { apply M. destruct (free_slots fr) as [|s sl] eqn:Es; [contradiction|].
    exists (slot_start s, slot_end s). unfold slot_entries. apply in_flat_map.
    exists fr. split; auto. rewrite Es. now left. }
  unfold reply_of.
  destruct (blocks_raise
              (map (fun d => (d, sorted pair_ltb
                                   (get d (fold_left add_frame frames [])))) dates)
              (frame_date fr,
               sorted pair_ltb (get (frame_date fr) (fold_left add_frame frames [])))
              e free_time_header) as (e' & E'); auto.
  - apply in_map_iff. exists (frame_date fr). auto.
  - exists e'. rewrite E'. reflexivity.
Qed.

Lemma unreadable_date_fails_the_reply_witness :
  exists e',
    format_free_slots_response_by_frame
      [mk_frame (u "2025-07-10") (u "09:00") (u "12:00") [slot_of "09:00" "10:00"];
       mk_frame (u "7/11") (u "09:00") (u "12:00") [slot_of "09:00" "12:00"]]
    = Raise e'.
Proof.
  apply (unreadable_date_fails_the_reply
           [mk_frame (u "2025-07-10") (u "09:00") (u "12:00") [slot_of "09:00" "10:00"];
            mk_frame (u "7/11") (u "09:00") (u "12:00") [slot_of "09:00" "12:00"]]
           (mk_frame (u "7/11") (u "09:00") (u "12:00") [slot_of "09:00" "12:00"])
           ValueError).
  - right. left. reflexivity.
  - discriminate.
  - vm_compute. reflexivity.
Defined.

(** A frame with a free slot has a date the handler has read. *)
Lemma handle_date_readable get_events loc travel date_info fr :
  handle_date get_events loc travel date_info = Some fr ->
  free_slots fr <> [] ->
  exists dt, strptime_ymd (frame_date fr) = Ok dt.
Proof.
  unfold handle_date.
  destruct (AiService.date date_info) as [[|c1 s1]|]; try discriminate.
  destruct (AiService.time date_info) as [[|c2 s2]|]; try discriminate.
  destruct (AiService.end_time date_info) as [[|c3 s3]|]; try discriminate.
  destruct (frame_body get_events loc travel (c1 :: s1) (c2 :: s2) (c3 :: s3))
    as [r|e] eqn:E.
  - intros -> Hs. unfold frame_body in E.
    destruct (strptime_date_time (c1 :: s1) (c2 :: s2)) as [t|] eqn:E1;
      cbn [bind] in E; [|discriminate].
    apply strptime_date_time_in_day in E1. destruct E1 as (dt & Hd & _).
    destruct (strptime_date_time (c1 :: s1) (c3 :: s3)); cbn [bind] in E; [|discriminate].
    destruct (filter_events loc _); [|discriminate].
    destruct (strptime_date_time (c1 :: s1) (str_max _ _)); cbn [bind] in E; [|discriminate].
    destruct (strptime_date_time (c1 :: s1) (str_min _ _)); cbn [bind] in E; [|discriminate].
    match type of E with
    | bind ?c _ = _ => destruct c; cbn [bind] in E; [|discriminate]
    end.
    injection E as <-. exists dt. exact Hd.
  - intros H Hs. injection H as <-. contradiction.
Qed.

Lemma free_slots_by_frame_in get_events loc travel dates_info fr :
  In fr (free_slots_by_frame get_events loc travel dates_info) ->
  exists date_info, In date_info dates_info
    /\ handle_date get_events loc travel date_info = Some fr.
Proof.
  unfold free_slots_by_frame. rewrite in_flat_map. intros (d & Hd & H).
  exists d. split; auto.
  destruct (handle_date get_events loc travel d); [|destruct H].
  destruct H as [-> | []]. reflexivity.
Qed.

(** X11.  The availability check always answers.  For entries whose date
    and times hold no white space (where the handler's joined parse is the
    parse of the two fields), [_handle_availability_check] never falls into
    its error reply: a frame gets free slots only after its date was read,
    so the formatter reads every date it lists. *)
Theorem availability_check_always_answers get_events dates_info loc travel :
  Forall (fun d => blank_free (AiService.date d) /\ blank_free (AiService.time d)
                   /\ blank_free (AiService.end_time d)) dates_info ->
  exists text,
    _handle_availability_check get_events dates_info loc travel = Text text.
Proof.
  intros _. unfold _handle_availability_check.
  destruct dates_info as [|d0 ds]; [eexists; reflexivity|].
  rewrite format_reply_of.
  destruct (listed_days_spec (free_slots_by_frame get_events loc travel (d0 :: ds)))
    as (dates & -> & _ & M & _).
  unfold reply_of.
  destruct (blocks_ok
              (map (fun d => (d, sorted pair_ltb
                                   (get d (fold_left add_frame
                                             (free_slots_by_frame get_events loc travel
                                                (d0 :: ds)) [])))) dates)
              free_time_header) as (r & E).
  - intros day Hday. apply in_map_iff in Hday. destruct Hday as (d & <- & Hd).
    cbn [fst]. apply M in Hd. destruct Hd as (p & Hp).
    unfold slot_entries in Hp. apply in_flat_map in Hp.
    destruct Hp as (fr & Hfr & Hp).
    apply in_map_iff in Hp. destruct Hp as (s & Es & Hs). injection Es as <- _.
    apply free_slots_by_frame_in in Hfr. destruct Hfr as (di & _ & Hh).
    apply (handle_date_readable _ _ _ _ _ Hh). intros C. rewrite C in Hs. destruct Hs.
  - rewrite E. cbn [bind]. destruct (str_eqb r free_time_header); eexists; reflexivity.
Qed.

Lemma availability_check_always_answers_witness :
  exists text,
    _handle_availability_check (fun _ _ => [])
      [frame_of "2025-07-10" "09:00" "18:00"; frame_of "7/11" "09:00" "18:00"]
      None None = Text text.
Proof.
  apply (availability_check_always_answers (fun _ _ => [])
           [frame_of "2025-07-10" "09:00" "18:00"; frame_of "7/11" "09:00" "18:00"]
           None None).
  repeat constructor; vm_compute; reflexivity.
Defined.

(** X12.  A place nobody is at gives the no-free-time text.  With a place given
    and no all-day event naming it on any of the dates asked about,
    [_handle_availability_check] skips every date, and its reply is
    ✅空き時間はありませんでした。 whatever the calendar holds. *)
Theorem place_without_marker_reports_no_free_time get_events dates_info l travel :
  l <> [] -> dates_info <> [] ->
  (forall start_dt end_dt,
     existsb (is_location_marker l) (get_events start_dt end_dt) = false) ->
  _handle_availability_check get_events dates_info (Some l) travel
  = Text no_free_time.
Proof.
  intros Hl Hd Hno. unfold _handle_availability_check.
  destruct dates_info as [|d0 ds]; [contradiction|].
  assert (F : Forall (fun fr => free_slots fr = [])
                (free_slots_by_frame get_events (Some l) travel (d0 :: ds))).
  { apply Forall_forall. intros fr Hfr.
    apply free_slots_by_frame_in in Hfr. destruct Hfr as (di & _ & Hh).
    unfold handle_date in Hh.
    destruct (AiService.date di) as [[|c1 s1]|]; try discriminate.
    destruct (AiService.time di) as [[|c2 s2]|]; try discriminate.
    destruct (AiService.end_time di) as [[|c3 s3]|]; try discriminate.
    destruct (frame_body get_events (Some l) travel (c1 :: s1) (c2 :: s2) (c3 :: s3))
      as [r|e] eqn:E; [|injection Hh as <-; reflexivity].
    subst r. exfalso. unfold frame_body in E.
    destruct (strptime_date_time (c1 :: s1) (c2 :: s2)); cbn [bind] in E; [|discriminate].
    destruct (strptime_date_time (c1 :: s1) (c3 :: s3)); cbn [bind] in E; [|discriminate].
    unfold filter_events in E. destruct l as [|c l]; [contradiction|].
    rewrite Hno in E. discriminate. }
  apply no_free_time_shared in F. rewrite F. reflexivity.
Qed.

Lemma place_without_marker_reports_no_free_time_witness :
  _handle_availability_check
    (fun _ _ => [meeting (on_0710 10 0) (on_0710 11 0)])
    [frame_of "2025-07-10" "09:00" "18:00"] (Some (u "東京")) None
  = Text no_free_time.
Proof.
  apply (place_without_marker_reports_no_free_time
           (fun _ _ => [meeting (on_0710 10 0) (on_0710 11 0)])
           [frame_of "2025-07-10" "09:00" "18:00"] (u "東京") None).
  - vm_compute. discriminate.
  - discriminate.
  - intros start_dt end_dt. reflexivity.
Defined.

End ReplyText.

(** ** More on the repair of the upstream entries *)

Section Repair.
Import AiService AiReply.

Lemma found_false r s : Re.found r s = false -> Re.search r s = None.
Proof. unfold Re.found. destruct (Re.search r s); [discriminate | auto]. Qed.

Lemma strptime_HM_not_empty s m : strptime_HM s = Ok m -> truthy (Some s) = true.
Proof. destruct s; [discriminate | reflexivity]. Qed.

Lemma plus_one_hour m :
  0 <= m < 1440 ->
  (m < 1380 -> (m + 60) mod 1440 = m + 60)
  /\ (1380 <= m -> (m + 60) mod 1440 = m - 1380).
Proof.
  intros Hm. split; intros H.
  - apply Z.mod_small. lia.
  - symmetry. apply (Z.mod_unique (m + 60) 1440 1); lia.
Qed.

Lemma foldM_raises {A B} (f : A -> B -> result A) l b :
  In b l -> (forall a, exists e, f a b = Raise e) ->
  forall a, exists e, foldM f l a = Raise e.
Proof.
  induction l as [|x l IH]; intros Hin Hb a; [destruct Hin|].
  cbn [foldM]. destruct Hin as [-> | Hin].
  - destruct (Hb a) as (e & ->). cbn [bind]. eauto.
  - destruct (f a x) as [a'|e]; cbn [bind]; eauto.
Qed.

(** The steps of the repair for an entry with a start, no end and no cue. *)
Lemma supplement_entry_no_cue now text tt st d :
  truthy (time d) = true -> truthy (end_time d) = false ->
  no_cue (phrase_of d text) = true ->
  supplement_entry now text tt st d
  = (d' <- fill_end_time d ;; Ok (push st (fill_title tt d'))).
Proof.
  intros Ht He Hc. unfold no_cue in Hc.
  repeat (apply andb_true_iff in Hc; destruct Hc as [Hc ?]).
  repeat match goal with
  | H : negb _ = true |- _ => apply negb_true_iff in H
  end.
  unfold supplement_entry. cbv zeta.
  unfold complete. rewrite Ht, He. cbn [andb].
  unfold fill_range. rewrite (found_false _ _ Hc). cbn [bind].
  unfold fill_ikou.
  match goal with H : Re.found re_ikou _ = false |- _ => rewrite H end.
  rewrite andb_false_r. cbn [bind].
  unfold is_allday. rewrite Ht.
  match goal with H : Re.found re_allday _ = false |- _ => rewrite H end.
  cbn [negb andb orb].
  unfold fill_tomorrow.
  match goal with H : Re.found re_tomorrow _ = false |- _ => rewrite H end.
  rewrite (fill_today_absent kyou) by assumption. cbn [bind].
  rewrite (fill_today_absent honjitsu) by assumption. cbn [bind].
  match goal with H : Re.found re_next_week _ = false |- _ => rewrite H end.
  unfold fill_week_from_today.
  match goal with H : Re.found re_week_from_today _ = false |- _ => rewrite H end.
  reflexivity.
Qed.

(** X13.  A start without an end lasts one hour on the clock.  For an
    upstream entry with a readable start, no end and no cue word in its
    phrase, the repair keeps the entry, its date included, and gives it the
    end one hour after the start as a time of day: past 23:00 the end wraps
    round midnight and so precedes the start on the same date. *)
Theorem start_only_entry_lasts_one_hour now text tt st d s m :
  time d = Some s -> strptime_HM s = Ok m -> truthy (end_time d) = false ->
  no_cue (phrase_of d text) = true ->
  exists e,
    supplement_entry now text tt st d
      = Ok (push st (fill_title tt (set_end_time d e)))
    /\ strptime_HM e = Ok ((m + 60) mod 1440)
    /\ (m < 1380 -> (m + 60) mod 1440 = m + 60)
    /\ (1380 <= m -> (m + 60) mod 1440 = m - 1380).
Proof.
  intros Ht Hs He Hc.
  assert (Htt : truthy (time d) = true) by (rewrite Ht; eapply strptime_HM_not_empty; eauto).
  exists (strftime_HM_at (m + 60)). split; [|split].
  - rewrite supplement_entry_no_cue by assumption.
    unfold fill_end_time. rewrite Htt, He. cbn [andb negb].
    rewrite Ht. unfold one_hour_later. rewrite Hs. reflexivity.
  - apply strptime_HM_strftime.
  - apply plus_one_hour. eapply strptime_HM_range; eauto.
Qed.

Lemma start_only_entry_lasts_one_hour_witness :
  exists e,
    supplement_entry (datetime_now wall_0701) (u "7/10 23:30") None (mk_state [] [])
      (entry_of (Some (u "2025-07-10")) (Some (u "23:30")) None)
      = Ok (push (mk_state [] [])
              (fill_title None
                 (set_end_time
                    (entry_of (Some (u "2025-07-10")) (Some (u "23:30")) None) e)))
    /\ strptime_HM e = Ok ((1410 + 60) mod 1440)
    /\ (1410 < 1380 -> (1410 + 60) mod 1440 = 1410 + 60)
    /\ (1380 <= 1410 -> (1410 + 60) mod 1440 = 1410 - 1380).
Proof.
  apply (start_only_entry_lasts_one_hour (datetime_now wall_0701) (u "7/10 23:30")
           None (mk_state [] [])
           (entry_of (Some (u "2025-07-10")) (Some (u "23:30")) None)
           (u "23:30") 1410).
  - reflexivity.
  - vm_compute. reflexivity.
  - reflexivity.
  - vm_compute. reflexivity.
Defined.

(** X14.  今日 and 本日 force a one-hour entry for today.  Whenever the
    step for one of these words runs and returns, the entry is dated today,
    has a start, and its end is the start plus one hour as a time of day,
    whatever end the upstream guess carried. *)
Theorem today_cue_forces_one_hour word now phrase d d' :
  Re.found (Re.lit word) phrase = true ->
  fill_today word now phrase d = Ok d' ->
  date d' = Some (strftime_ymd now)
  /\ exists s e m,
       time d' = Some s /\ end_time d' = Some e
       /\ strptime_HM s = Ok m /\ strptime_HM e = Ok ((m + 60) mod 1440).
Proof.
  intros Hf. unfold fill_today. rewrite Hf.
  assert (G : forall d1 : entry,
            date d1 = Some (strftime_ymd now) -> truthy (time d1) = true ->
            (if truthy (time d1)
             then e <- one_hour_later (time d1) ;; Ok (set_end_time d1 e)
             else Ok d1) = Ok d' ->
            date d' = Some (strftime_ymd now)
            /\ exists s e m,
                 time d' = Some s /\ end_time d' = Some e
                 /\ strptime_HM s = Ok m /\ strptime_HM e = Ok ((m + 60) mod 1440)).
  { intros d1 Hd Ht H. rewrite Ht in H.
    destruct (time d1) as [s|] eqn:Es; [|discriminate].
    unfold one_hour_later in H.
    destruct (strptime_HM s) as [m|] eqn:Em; cbn [bind] in H; [|discriminate].
    injection H as <-. cbn [date time end_time set_end_time]. split; auto.
    exists s, (strftime_HM_at (m + 60)), m. repeat split; auto.
    apply strptime_HM_strftime. }
  cbv zeta.
  destruct (Re.search _ phrase) as [caps|].
  - destruct (py_int (nth 0 caps [])) as [h|]; cbn [bind]; [|discriminate].
    apply G; [reflexivity|]. cbn [time set_time set_end_time]. apply truthy_hh00.
  - cbn [bind]. cbn [time set_date].
    destruct (truthy (time d)) eqn:Et; cbn [negb].
    + apply G; [reflexivity | exact Et].
    + apply G; [reflexivity|]. cbn [time set_time]. apply truthy_hhmm.
Qed.

Lemma today_cue_forces_one_hour_witness :
  date (mk_entry (Some (u "2025-07-01")) (Some (u "15:00")) (Some (u "16:00"))
          None None None)
  = Some (strftime_ymd (datetime_now wall_0701))
  /\ exists s e m,
       time (mk_entry (Some (u "2025-07-01")) (Some (u "15:00")) (Some (u "16:00"))
               None None None) = Some s
       /\ end_time (mk_entry (Some (u "2025-07-01")) (Some (u "15:00"))
                      (Some (u "16:00")) None None None) = Some e
       /\ strptime_HM s = Ok m /\ strptime_HM e = Ok ((m + 60) mod 1440).
Proof.
  apply (today_cue_forces_one_hour kyou (datetime_now wall_0701) (u "今日15時")
           (entry_of (Some (u "2025-07-05")) None (Some (u "23:59")))).
  - vm_compute. reflexivity.
  - vm_compute. reflexivity.
Defined.

(** One or two digits are a number up to 99. *)
Lemma matches_digits12_bound g rest c :
  matches digits12 g rest c ->
  c = [g] /\ exists v, py_int g = Ok v /\ 0 <= v <= 99.
Proof.
  intros M. inversion M; subst.
  match goal with H : matches (Re.Rep _ _ _) _ _ _ |- _ => inversion H; subst end.
  split; auto.
  destruct g as [|a [|b [|]]]; cbn [List.length] in *; try lia.
  - match goal with H : forallb _ _ = true |- _ =>
      cbn [forallb] in H; rewrite andb_true_r in H;
      destruct (is_digit_value _ H) as (v & Hv & Hb)
    end.
    exists (Z.of_N v). split; [now apply py_int_one | lia].
  - match goal with H : forallb _ _ = true |- _ =>
      cbn [forallb] in H; rewrite andb_true_r in H;
      apply andb_true_iff in H; destruct H as [Ha Hb]
    end.
    destruct (is_digit_value _ Ha) as (v1 & Hv1 & B1).
    destruct (is_digit_value _ Hb) as (v2 & Hv2 & B2).
    exists (10 * Z.of_N v1 + Z.of_N v2). split; [now apply py_int_two | lia].
Qed.

Lemma search_today_hour_bound text caps :
  Re.search re_today_hour text = Some caps ->
  exists h, py_int (grp caps 1) = Ok h /\ 0 <= h <= 99.
Proof.
  intros H. apply search_sound in H. destruct H as (pre & g & rest & _ & M).
  unfold re_today_hour in M. cbv [Re.seq] in M.
  inversion M; subst; clear M.
  repeat match goal with
  | H : matches (Re.Seq _ _) _ _ _ |- _ => inversion H; subst; clear H
  | H : matches (Re.Grp (Re.Alt _ _)) _ _ _ |- _ => inversion H; subst; clear H
  | H : matches (Re.Alt _ _) _ _ _ |- _ => inversion H; subst; clear H
  | H : matches (Re.Chr _) _ _ _ |- _ => inversion H; subst; clear H
  | H : matches (Re.lit _) _ _ _ |- _ => apply matches_lit in H; subst
  | H : matches digits12 _ _ _ |- _ =>
    apply matches_digits12_bound in H; destruct H as [-> [? [? ?]]]
  end; simpl; eauto.
Qed.

(** The texts [HH:00] for the hours 1 to 100: [strptime] reads those up
    to 23 and rejects the others. *)
Lemma hh00_table :
  all_from 100 1 (fun k =>
    match strptime_HM (hh00 k) with
    | Ok v => (k <=? 23) && (v =? k * 60)
    | Raise _ => 24 <=? k
    end) = true.
Proof. vm_compute. reflexivity. Qed.

Lemma build_title_default title0 :
  (match title0 with [] => u "予定" | _ => title0 end) <> [].
Proof. destruct title0; discriminate. Qed.

Lemma matches_lit_text w : forall g rest c, matches (Re.lit w) g rest c -> g = w.
Proof.
  induction w as [|a w IH]; intros g rest c M.
  - inversion M; subst. reflexivity.
  - destruct w as [|b w].
    + inversion M; subst. reflexivity.
    + change (Re.lit (a :: b :: w)) with (Re.Seq (Re.Chr a) (Re.lit (b :: w))) in M.
      inversion M as [| | |? ? g1 g2 ? ? ? M1 M2| | | | | |]; subst.
      inversion M1; subst. apply IH in M2. subst. reflexivity.
Qed.

Lemma prefixb_app w rest : prefixb w (w ++ rest) = true.
Proof. induction w as [|a w IH]; simpl; auto. now rewrite N.eqb_refl. Qed.

Lemma contains_app w pre rest : contains w (pre ++ w ++ rest) = true.
Proof.
  induction pre as [|a pre IH].
  - destruct (w ++ rest) eqn:E; simpl.
    + destruct w; [reflexivity | discriminate].
    + rewrite <- E, prefixb_app. reflexivity.
  - cbn [app]. cbn [contains]. rewrite IH. apply orb_true_r.
Qed.

Lemma matches_seq_inv r1 r2 g rest c :
  matches (Re.Seq r1 r2) g rest c ->
  exists g1 g2 c1 c2,
    g = g1 ++ g2 /\ c = c1 ++ c2
    /\ matches r1 g1 (g2 ++ rest) c1 /\ matches r2 g2 rest c2.
Proof. intros M. inversion M; subst. eauto 10. Qed.

Lemma matches_grp_inv r g rest c :
  matches (Re.Grp r) g rest c -> exists c', c = c' ++ [g] /\ matches r g rest c'.
Proof. intros M. inversion M; subst. eauto. Qed.

Lemma matches_alt_inv r1 r2 g rest c :
  matches (Re.Alt r1 r2) g rest c -> matches r1 g rest c \/ matches r2 g rest c.
Proof. intros M. inversion M; subst; auto. Qed.

(** Where 本日N時 or 今日N時 is found, the text holds the word, one or two
    digits and 時, and the second group is the digits. *)
Lemma search_today_hour_parts text caps :
  Re.search re_today_hour text = Some caps ->
  exists pre word ds rest h,
    text = pre ++ word ++ ds ++ u "時" ++ rest
    /\ (word = honjitsu \/ word = kyou)
    /\ caps = [word; ds]
    /\ forallb is_digit ds = true /\ (1 <= List.length ds <= 2)%nat
    /\ py_int ds = Ok h /\ 0 <= h <= 99.
Proof.
  intros H. apply search_sound in H. destruct H as (pre & g & rest & -> & M).
  change re_today_hour
    with (Re.Seq (Re.Grp (Re.Alt (Re.lit honjitsu) (Re.lit kyou)))
            (Re.Seq digits12 (Re.lit (u "時")))) in M.
  apply matches_seq_inv in M. destruct M as (g1 & g23 & c1 & c23 & -> & -> & M1 & M23).
  apply matches_seq_inv in M23. destruct M23 as (g2 & g3 & c2 & c3 & -> & -> & M2 & M3).
  pose proof (matches_lit_text _ _ _ _ M3) as E3. apply matches_lit in M3. subst g3 c3.
  assert (Hd : forallb is_digit g2 = true /\ (1 <= List.length g2 <= 2)%nat).
  { unfold digits12 in M2. apply matches_grp_inv in M2. destruct M2 as (c' & _ & M2).
    inversion M2; subst. auto. }
  destruct Hd as [Hd Hl].
  apply matches_digits12_bound in M2. destruct M2 as (-> & h & Hh & Hb).
  apply matches_grp_inv in M1. destruct M1 as (c' & -> & M1).
  assert (Hw : (g1 = honjitsu \/ g1 = kyou) /\ c' = []).
  { apply matches_alt_inv in M1. destruct M1 as [M1 | M1];
      pose proof (matches_lit_text _ _ _ _ M1); apply matches_lit in M1; auto. }
  destruct Hw as [Hw ->].
  exists pre, g1, g2, rest, h.
  rewrite <- !app_assoc. repeat split; auto; lia.
Qed.

(** X15.  The fallback entry for 今日/本日 and its end.  When the last
    step of the normalizer finds 本日N時 or 今日N時 in the text, the text
    holds that word followed by the one or two digits of N and 時; if no
    entry was found before, exactly one titled entry is added, for today,
    from N:00 to (N+1):00, and a list that already has an entry is returned
    as it is.  The end is not wrapped: for N = 23 and above it is a text
    such as 24:00, which [strptime] rejects. *)
Theorem today_fallback_entry now text caps :
  Re.search re_today_hour text = Some caps ->
  exists pre word ds rest h title',
    text = pre ++ word ++ ds ++ u "時" ++ rest
    /\ (word = honjitsu \/ word = kyou)
    /\ forallb is_digit ds = true /\ (1 <= List.length ds <= 2)%nat
    /\ py_int ds = Ok h /\ 0 <= h <= 99 /\ title' <> []
    /\ today_fallback now text []
       = Ok [mk_entry (Some (strftime_ymd now)) (Some (hh00 h))
               (Some (hh00 (h + 1))) None (Some title') (Some [])]
    /\ (forall d nd, today_fallback now text (d :: nd) = Ok (d :: nd))
    /\ (h <= 22 -> strptime_HM (hh00 (h + 1)) = Ok ((h + 1) * 60))
    /\ (23 <= h -> exists e, strptime_HM (hh00 (h + 1)) = Raise e).
Proof.
  intros E.
  destruct (search_today_hour_parts text caps E)
    as (pre & word & ds & rest & h & Ht & Hw & -> & Hd & Hl & Hh & Hb).
  exists pre, word, ds, rest, h.
  exists (match build_title [] (split_ws text) with
          | [] => u "予定"
          | _ => build_title [] (split_ws text)
          end).
  split; [exact Ht|]. split; [exact Hw|]. split; [exact Hd|]. split; [exact Hl|].
  split; [exact Hh|]. split; [exact Hb|]. split; [apply build_title_default|].
  split; [|split].
  - unfold today_fallback.
    assert (Hc : contains honjitsu text || contains kyou text = true).
    { rewrite Ht. destruct Hw as [-> | ->].
      - rewrite contains_app. reflexivity.
      - rewrite (contains_app kyou). apply orb_true_r. }
    rewrite Hc, E. cbn [andb grp nth]. rewrite Hh. cbn [bind app]. reflexivity.
  - intros d nd. unfold today_fallback. rewrite andb_false_r. reflexivity.
  - pose proof (all_from_spec _ _ _ hh00_table (h + 1) ltac:(lia)) as T.
    cbv beta in T.
    destruct (strptime_HM (hh00 (h + 1))) as [v|e]; split; intros Hb'.
    + apply andb_true_iff in T. destruct T as [_ T]. apply Z.eqb_eq in T. now subst.
    + apply andb_true_iff in T. destruct T as [T _]. apply Z.leb_le in T. lia.
    + apply Z.leb_le in T. lia.
    + eauto.
Qed.

Lemma today_fallback_entry_witness :
  exists pre word ds rest h title',
    u "今日23時 会議" = pre ++ word ++ ds ++ u "時" ++ rest
    /\ (word = honjitsu \/ word = kyou)
    /\ forallb is_digit ds = true /\ (1 <= List.length ds <= 2)%nat
    /\ py_int ds = Ok h /\ 0 <= h <= 99 /\ title' <> []
    /\ today_fallback (datetime_now wall_0701) (u "今日23時 会議") []
       = Ok [mk_entry (Some (strftime_ymd (datetime_now wall_0701))) (Some (hh00 h))
               (Some (hh00 (h + 1))) None (Some title') (Some [])]
    /\ (forall d nd,
          today_fallback (datetime_now wall_0701) (u "今日23時 会議") (d :: nd)
          = Ok (d :: nd))
    /\ (h <= 22 -> strptime_HM (hh00 (h + 1)) = Ok ((h + 1) * 60))
    /\ (23 <= h -> exists e, strptime_HM (hh00 (h + 1)) = Raise e).
Proof.
  apply (today_fallback_entry (datetime_now wall_0701) (u "今日23時 会議")
           [u "今日"; u "23"]).
  vm_compute. reflexivity.
Defined.

End Repair.

(** ** Travel buffers *)

Section Travel.
Import AiService AiReply.

Lemma opt_str_eqb_eq a b : opt_str_eqb a b = true -> a = b.
Proof.
  destruct a, b; simpl; try discriminate; auto.
  intros H. apply str_eqb_eq in H. now subst.
Qed.

Lemma add_unless_duplicate_has nd ev :
  incl nd (add_unless_duplicate nd ev)
  /\ exists x, In x (add_unless_duplicate nd ev) /\ same_frame x ev.
Proof.
  unfold add_unless_duplicate.
  destruct (existsb _ nd) eqn:E.
  - split; [apply incl_refl|].
    apply existsb_exists in E. destruct E as (x & Hx & Ex).
    apply andb_true_iff in Ex. destruct Ex as [Ex E3].
    apply andb_true_iff in Ex. destruct Ex as [E1 E2].
    exists x. split; auto. unfold same_frame.
    repeat split; now apply opt_str_eqb_eq.
  - split; [apply incl_appl, incl_refl|].
    exists ev. split; [apply in_or_app; right; now left|].
    unfold same_frame. auto.
Qed.

Lemma fold_add_unless_duplicate_has evs : forall nd,
  incl nd (fold_left add_unless_duplicate evs nd)
  /\ forall ev, In ev evs ->
       exists x, In x (fold_left add_unless_duplicate evs nd) /\ same_frame x ev.
Proof.
  induction evs as [|ev0 evs IH]; intros nd; cbn [fold_left].
  - split; [apply incl_refl | intros ev []].
  - destruct (IH (add_unless_duplicate nd ev0)) as [I1 I2].
    destruct (add_unless_duplicate_has nd ev0) as [J1 (x & Hx & Sx)].
    split; [eapply incl_tran; eauto|].
    intros ev [<- | Hin]; auto.
    exists x. split; auto.
Qed.

(** The travel loop: what it returns holds every entry and, for every
    entry, an entry on each of the two buffer frames. *)
Lemma travel_loop_has text ds : forall acc r,
  mentions_travel text = true ->
  foldM (fun nd date_info =>
           let nd := nd ++ [date_info] in
           if _should_add_travel_time date_info text then
             travel_events <- _create_travel_events date_info ;;
             Ok (fold_left add_unless_duplicate travel_events nd)
           else Ok nd) ds acc = Ok r ->
  incl acc r
  /\ forall d, In d ds ->
       In d r
       /\ exists evs, _create_travel_events d = Ok evs
            /\ forall ev, In ev evs -> exists x, In x r /\ same_frame x ev.
Proof.
  induction ds as [|d0 ds IH]; intros acc r Hk H; simpl in H.
  - injection H as <-. split; [apply incl_refl | intros d []].
  - destruct (_should_add_travel_time d0 text) eqn:Es.
    2: { unfold _should_add_travel_time in Es. unfold mentions_travel in Hk.
         congruence. }
    destruct (_create_travel_events d0) as [evs|] eqn:E; cbn [bind] in H; [|discriminate].
    apply IH in H; auto. destruct H as [I1 I2].
    destruct (fold_add_unless_duplicate_has evs (acc ++ [d0])) as [J1 J2].
    split.
    + intros x Hx. apply I1, J1. apply in_or_app. now left.
    + intros d [<- | Hin]; auto.
      split.
      * apply I1, J1. apply in_or_app. right. now left.
      * exists evs. split; auto. intros ev Hev.
        destruct (J2 ev Hev) as (x & Hx & Sx). exists x. split; auto.
Qed.

Lemma strptime_date_time_parts date_str s t :
  strptime_date_time date_str s = Ok t ->
  exists dt m, strptime_ymd date_str = Ok dt /\ strptime_HM s = Ok m
               /\ t = toordinal dt * 1440 + m /\ 0 <= m < 1440.
Proof.
  unfold strptime_date_time.
  destruct (strptime_ymd date_str) as [dt|]; cbn [bind]; [|discriminate].
  destruct (strptime_HM s) as [m|] eqn:E; cbn [bind]; [|discriminate].
  intros H. injection H as <-. exists dt, m. repeat split; auto;
    eapply strptime_HM_range; eauto.
Qed.

Lemma strptime_HM_shifted o m k :
  strptime_HM (strftime_HM_at (o * 1440 + m + k)) = Ok ((m + k) mod 1440).
Proof.
  rewrite strptime_HM_strftime. f_equal.
  replace (o * 1440 + m + k) with (m + k + o * 1440) by lia.
  apply Z.mod_add. lia.
Qed.

(** X16.  Travel buffers flank every entry.  When the text mentions
    travel and [_add_travel_time] returns, every entry it was given is in
    the result, had a date and readable start and end, and the result holds
    an entry on the same date that ends at its start and begins an hour
    earlier on the clock, and one that begins at its end and ends an hour
    later on the clock (a buffer, or an entry already on that frame). *)
Theorem travel_buffers_flank_each_entry dates' text r d :
  mentions_travel text = true ->
  _add_travel_time dates' text = Ok r -> In d dates' ->
  In d r
  /\ exists date_str s e sm em,
       date d = Some date_str /\ time d = Some s /\ end_time d = Some e
       /\ strptime_HM s = Ok sm /\ strptime_HM e = Ok em
       /\ (exists before a b,
             In before r /\ date before = Some date_str
             /\ time before = Some a /\ end_time before = Some b
             /\ strptime_HM a = Ok ((sm - 60) mod 1440) /\ strptime_HM b = Ok sm)
       /\ (exists after a b,
             In after r /\ date after = Some date_str
             /\ time after = Some a /\ end_time after = Some b
             /\ strptime_HM a = Ok em /\ strptime_HM b = Ok ((em + 60) mod 1440)).
Proof.
  intros Hk H Hin. unfold _add_travel_time in H.
  pose proof Hk as Hk'. unfold mentions_travel in Hk'. rewrite Hk' in H. cbn [negb] in H.
  destruct (travel_loop_has text dates' [] r Hk H) as [_ L].
  destruct (L d Hin) as (Hd & evs & E & Hev). split; auto.
  unfold _create_travel_events in E.
  destruct (date d) as [date_str|]; [|discriminate].
  destruct (time d) as [s|]; [|discriminate].
  destruct (end_time d) as [e|]; [|discriminate].
  destruct (strptime_date_time date_str s) as [start_dt|] eqn:E1; cbn [bind] in E;
    [|discriminate].
  destruct (strptime_date_time date_str e) as [end_dt|] eqn:E2; cbn [bind] in E;
    [|discriminate].
  injection E as <-.
  apply strptime_date_time_parts in E1. destruct E1 as (dt & sm & Hdt & Hs & -> & Bs).
  apply strptime_date_time_parts in E2. destruct E2 as (dt' & em & Hdt' & He & -> & Be).
  exists date_str, s, e, sm, em. repeat split; auto.
  - destruct (Hev _ (or_introl eq_refl)) as (x & Hx & S1 & S2 & S3).
    cbn [date time end_time] in S1, S2, S3.
    exists x. eexists. eexists. repeat split; eauto.
    + replace (toordinal dt * 1440 + sm - 60) with (toordinal dt * 1440 + sm + (-60)) by lia.
      rewrite strptime_HM_shifted. f_equal.
    + replace (toordinal dt * 1440 + sm) with (toordinal dt * 1440 + sm + 0) by lia.
      rewrite strptime_HM_shifted. f_equal. rewrite Z.add_0_r. apply Z.mod_small. lia.
  - destruct (Hev _ (or_intror (or_introl eq_refl))) as (x & Hx & S1 & S2 & S3).
    cbn [date time end_time] in S1, S2, S3.
    exists x. eexists. eexists. repeat split; eauto.
    + replace (toordinal dt' * 1440 + em) with (toordinal dt' * 1440 + em + 0) by lia.
      rewrite strptime_HM_shifted. f_equal. rewrite Z.add_0_r. apply Z.mod_small. lia.
    + apply strptime_HM_shifted.
Qed.

Lemma travel_buffers_flank_each_entry_witness :
  In (mk_entry (Some (u "2025-07-10")) (Some (u "10:00")) (Some (u "11:00")) None
        (Some (u "会議")) None)
     [mk_entry (Some (u "2025-07-10")) (Some (u "10:00")) (Some (u "11:00")) None
        (Some (u "会議")) None;
      mk_entry (Some (u "2025-07-10")) (Some (u "09:00")) (Some (u "10:00")) None
        (Some (u "移動時間（往路）")) (Some (u "移動のための時間"));
      mk_entry (Some (u "2025-07-10")) (Some (u "11:00")) (Some (u "12:00")) None
        (Some (u "移動時間（復路）")) (Some (u "移動のための時間"))].
Proof.
  assert (H1 : mentions_travel (u "7/10 10時 会議 移動あり") = true)
    by (vm_compute; reflexivity).
  assert (H2 : _add_travel_time
                 [mk_entry (Some (u "2025-07-10")) (Some (u "10:00"))
                    (Some (u "11:00")) None (Some (u "会議")) None]
                 (u "7/10 10時 会議 移動あり")
               = Ok [mk_entry (Some (u "2025-07-10")) (Some (u "10:00"))
                       (Some (u "11:00")) None (Some (u "会議")) None;
                     mk_entry (Some (u "2025-07-10")) (Some (u "09:00"))
                       (Some (u "10:00")) None
                       (Some (u "移動時間（往路）")) (Some (u "移動のための時間"));
                     mk_entry (Some (u "2025-07-10")) (Some (u "11:00"))
                       (Some (u "12:00")) None
                       (Some (u "移動時間（復路）")) (Some (u "移動のための時間"))])
    by (vm_compute; reflexivity).
  exact (proj1 (travel_buffers_flank_each_entry _ _ _ _ H1 H2 (or_introl eq_refl))).
Defined.

(** The normalizer up to the travel step, for entries that came complete. *)
Lemma supplement_times_complete wall p text d0 ds :
  dates p = Some (d0 :: ds) ->
  Forall (fun d => complete d = true) (d0 :: ds) ->
  _supplement_times wall (Some p) text
  = (nd <- (if is_add_event (task_type p)
            then _add_travel_time (d0 :: ds) text else Ok (d0 :: ds)) ;;
     Ok (Some (set_dates p nd))).
Proof.
  intros Hd Hc. unfold _supplement_times. cbv zeta. rewrite Hd.
  rewrite loop_complete by assumption. cbn [bind new_dates app].
  rewrite scan_text_skips. cbn [bind].
  unfold today_fallback. rewrite andb_false_r. cbn [bind]. reflexivity.
Qed.

(** X17.  A request to add events with travel fails as a whole when an
    entry has no date.  For a guess that stays an add-event request, whose
    entries all came with both times, and a text that mentions travel: if
    some entry has no date, building its buffers raises, and
    [extract_dates_and_times] returns its error dictionary, the entries
    with a date included. *)
Theorem travel_request_without_date_fails wall p text ds d :
  dates p = Some ds -> is_add_event (task_type p) = true ->
  has_title_or_description ds = true ->
  Forall (fun d => complete d = true) ds ->
  In d ds -> date d = None -> mentions_travel text = true ->
  extract_dates_and_times wall (Some p) text = Some error_guess.
Proof.
  intros Hd Ha Ht Hc Hin Hnone Hk.
  unfold extract_dates_and_times, force_task_type. rewrite Hd, Ht.
  destruct ds as [|d0 ds]; [destruct Hin|].
  rewrite (supplement_times_complete wall p text d0 ds Hd Hc). rewrite Ha.
  unfold _add_travel_time. unfold mentions_travel in Hk. rewrite Hk. cbn [negb].
  match goal with
  | |- context [foldM ?f ?l ?a0] =>
    let R := fresh "R" in
    assert (R : forall acc, exists e, f acc d = Raise e);
      [|destruct (foldM_raises f l d Hin R a0) as (e & ->); reflexivity]
  end.
  intros acc. cbv zeta. unfold _should_add_travel_time. rewrite Hk.
  unfold _create_travel_events. rewrite Hnone. cbn [bind]. eauto.
Qed.

Lemma travel_request_without_date_fails_witness :
  extract_dates_and_times wall_0701
    (Some (mk_parsed (Some (u "add_event"))
             (Some [mk_entry None (Some (u "10:00")) (Some (u "11:00")) None
                      (Some (u "会議")) None]) None None None))
    (u "10時 会議 移動あり")
  = Some error_guess.
Proof.
  apply (travel_request_without_date_fails wall_0701
           (mk_parsed (Some (u "add_event"))
              (Some [mk_entry None (Some (u "10:00")) (Some (u "11:00")) None
                       (Some (u "会議")) None]) None None None)
           (u "10時 会議 移動あり")
           [mk_entry None (Some (u "10:00")) (Some (u "11:00")) None
              (Some (u "会議")) None]
           (mk_entry None (Some (u "10:00")) (Some (u "11:00")) None
              (Some (u "会議")) None)).
  - reflexivity.
  - vm_compute. reflexivity.
  - vm_compute. reflexivity.
  - constructor; [vm_compute; reflexivity | constructor].
  - left. reflexivity.
  - reflexivity.
  - vm_compute. reflexivity.
Defined.

Lemma force_task_type_dates p ds :
  dates p = Some ds ->
  exists p', force_task_type (Some p) = Some p' /\ dates p' = Some ds
    /\ task_type p'
       = (if has_title_or_description ds then task_type p
          else Some (u "availability_check")).
Proof.
  intros Hd. unfold force_task_type. rewrite Hd.
  destruct (has_title_or_description ds); eexists; split; try reflexivity; auto.
Qed.

(** X18.  A start that is not a time fails the whole request.  When some
    upstream entry has a start [strptime] rejects, no end and no cue word in
    its phrase, the repair raises on it, and [extract_dates_and_times]
    returns its error dictionary, whatever the other entries are. *)
Theorem unreadable_start_fails_the_request wall p text ds d s e :
  dates p = Some ds -> In d ds ->
  time d = Some s -> s <> [] -> strptime_HM s = Raise e ->
  truthy (end_time d) = false -> no_cue (phrase_of d text) = true ->
  extract_dates_and_times wall (Some p) text = Some error_guess.
Proof.
  intros Hd Hin Ht Hs He Hend Hc.
  destruct (force_task_type_dates p ds Hd) as (p' & Hf & Hd' & _).
  unfold extract_dates_and_times. rewrite Hf.
  unfold _supplement_times. cbv zeta. rewrite Hd'.
  assert (Htt : truthy (time d) = true) by (rewrite Ht; destruct s; [contradiction | reflexivity]).
  match goal with
  | |- context [foldM ?f ?l ?a0] =>
    let R := fresh "R" in
    assert (R : forall acc, exists e, f acc d = Raise e);
      [|destruct (foldM_raises f l d Hin R a0) as (e' & ->); reflexivity]
  end.
  intros st. rewrite supplement_entry_no_cue by assumption.
  unfold fill_end_time. rewrite Htt, Hend. cbn [andb negb].
  rewrite Ht. unfold one_hour_later. rewrite He. cbn [bind]. eauto.
Qed.

Lemma unreadable_start_fails_the_request_witness :
  extract_dates_and_times wall_0701
    (Some (availability [entry_of (Some (u "2025-07-10")) (Some (u "25:00")) None]))
    (u "7/10 25:00")
  = Some error_guess.
Proof.
  apply (unreadable_start_fails_the_request wall_0701
           (availability [entry_of (Some (u "2025-07-10")) (Some (u "25:00")) None])
           (u "7/10 25:00")
           [entry_of (Some (u "2025-07-10")) (Some (u "25:00")) None]
           (entry_of (Some (u "2025-07-10")) (Some (u "25:00")) None)
           (u "25:00") ValueError).
  - reflexivity.
  - left. reflexivity.
  - reflexivity.
  - vm_compute. discriminate.
  - vm_compute. reflexivity.
  - reflexivity.
  - vm_compute. reflexivity.
Defined.

(** X19.  Titles decide between asking and adding.  For a guess with a
    dates list, [extract_dates_and_times] returns its error dictionary or a
    result whose task type is the model's when some entry has a title or a
    description, and availability_check otherwise: a message of dates and
    times only is never an add-event request. *)
Theorem task_type_follows_titles wall p text ds :
  dates p = Some ds ->
  exists r,
    extract_dates_and_times wall (Some p) text = Some r
    /\ (r = error_guess
        \/ task_type r
           = (if has_title_or_description ds then task_type p
              else Some (u "availability_check"))).
Proof.
  intros Hd.
  destruct (force_task_type_dates p ds Hd) as (p' & Hf & Hd' & Ht).
  unfold extract_dates_and_times. rewrite Hf.
  destruct (_supplement_times wall (Some p') text) as [r|e] eqn:E.
  - destruct (after_loop wall p' text ds r Hd' E) as (st & nd1 & nd2 & _ & _ & _ & ->).
    eexists. split; [reflexivity|]. right. exact Ht.
  - eexists. split; [reflexivity|]. now left.
Qed.

Lemma task_type_follows_titles_witness :
  exists r,
    extract_dates_and_times wall_0701
      (Some (mk_parsed (Some (u "add_event"))
               (Some [entry_of (Some (u "2025-07-10")) (Some (u "09:00"))
                        (Some (u "10:00"))]) None None None))
      (u "7/10 9-10時") = Some r
    /\ (r = error_guess
        \/ task_type r
           = (if has_title_or_description
                   [entry_of (Some (u "2025-07-10")) (Some (u "09:00"))
                      (Some (u "10:00"))]
              then task_type
                     (mk_parsed (Some (u "add_event"))
                        (Some [entry_of (Some (u "2025-07-10")) (Some (u "09:00"))
                                 (Some (u "10:00"))]) None None None)
              else Some (u "availability_check"))).
Proof.
  apply (task_type_follows_titles wall_0701
           (mk_parsed (Some (u "add_event"))
              (Some [entry_of (Some (u "2025-07-10")) (Some (u "09:00"))
                       (Some (u "10:00"))]) None None None)
           (u "7/10 9-10時")
           [entry_of (Some (u "2025-07-10")) (Some (u "09:00")) (Some (u "10:00"))]).
  reflexivity.
Defined.

(** X20.  明日 is the day after the clock's.  With the clock on a day of
    the calendar (before the year 9999), the 明日 step replaces the date of
    the entry by a text the handler reads back as the day after today, and
    fills a missing start with 08:00 and a missing end with 23:59. *)
Theorem tomorrow_cue_sets_next_day wall phrase d :
  valid_date wall -> year wall <= 9998 ->
  Re.found re_tomorrow phrase = true ->
  exists w dt,
    date (fill_tomorrow (datetime_now wall) phrase d) = Some w
    /\ strptime_ymd w = Ok dt /\ toordinal dt = toordinal wall + 1
    /\ time (fill_tomorrow (datetime_now wall) phrase d)
       = (if truthy (time d) then time d else Some (u "08:00"))
    /\ end_time (fill_tomorrow (datetime_now wall) phrase d)
       = (if truthy (end_time d) then end_time d else Some (u "23:59")).
Proof.
  intros Hv Hy Hf.
  destruct (relative_day_read_back (datetime_now wall) 1 Hv Hy ltac:(lia)) as [E O].
  exists (strftime_ymd (add_days (datetime_now wall) 1)).
  exists (midnight (add_days (datetime_now wall) 1)).
  unfold fill_tomorrow. rewrite Hf. cbv zeta. cbn [time set_date].
  destruct (truthy (time d)) eqn:Et; cbn [negb];
    cbn [end_time set_date set_time];
    destruct (truthy (end_time d)) eqn:Ee; cbn [negb];
    cbn [date time end_time set_date set_time set_end_time];
    repeat split; auto.
Qed.

Lemma tomorrow_cue_sets_next_day_witness :
  exists w dt,
    date (fill_tomorrow (datetime_now wall_0701) (u "明日の空き時間")
            (entry_of None None None)) = Some w
    /\ strptime_ymd w = Ok dt /\ toordinal dt = toordinal wall_0701 + 1
    /\ time (fill_tomorrow (datetime_now wall_0701) (u "明日の空き時間")
               (entry_of None None None))
       = (if truthy (time (entry_of None None None))
          then time (entry_of None None None) else Some (u "08:00"))
    /\ end_time (fill_tomorrow (datetime_now wall_0701) (u "明日の空き時間")
                   (entry_of None None None))
       = (if truthy (end_time (entry_of None None None))
          then end_time (entry_of None None None) else Some (u "23:59")).
Proof.
  apply (tomorrow_cue_sets_next_day wall_0701 (u "明日の空き時間")
           (entry_of None None None)).
  - unfold valid_date, wall_0701. cbn [year month day].
    split; [lia|]. split; [lia|]. vm_compute. split; discriminate.
  - cbn. lia.
  - vm_compute. reflexivity.
Defined.

End Travel.

(** ** Entries the handler cannot read *)

Section Unreadable.
Import CalendarService LineBotHandler AiReply Availability.

(** X21.  Entries that cannot be read give the no-free-time text, not an error.
    For entries whose date and times hold no white space (where the
    handler's joined parse is the parse of the two fields): when every
    entry of a non-empty list lacks a field or has a date, start or end
    that [strptime] rejects, [_handle_availability_check] answers
    ✅空き時間はありませんでした。 without looking at the calendar's events. *)
Theorem unreadable_entries_report_no_free_time get_events dates_info loc travel :
  dates_info <> [] ->
  Forall (fun d => blank_free (AiService.date d) /\ blank_free (AiService.time d)
                   /\ blank_free (AiService.end_time d)) dates_info ->
  Forall unreadable dates_info ->
  _handle_availability_check get_events dates_info loc travel = Text no_free_time.
Proof.
  intros Hne _ Hall. unfold _handle_availability_check.
  destruct dates_info as [|d0 ds]; [contradiction|].
  assert (F : Forall (fun fr => free_slots fr = [])
                (free_slots_by_frame get_events loc travel (d0 :: ds))).
  { apply Forall_forall. intros fr Hfr.
    apply free_slots_by_frame_in in Hfr. destruct Hfr as (di & Hdi & Hh).
    rewrite Forall_forall in Hall. specialize (Hall di Hdi).
    unfold unreadable in Hall. unfold handle_date in Hh.
    destruct (AiService.date di) as [[|c1 s1]|]; try discriminate.
    destruct (AiService.time di) as [[|c2 s2]|]; try discriminate.
    destruct (AiService.end_time di) as [[|c3 s3]|]; try discriminate.
    destruct (frame_body get_events loc travel (c1 :: s1) (c2 :: s2) (c3 :: s3))
      as [r|e] eqn:E; [|injection Hh as <-; reflexivity].
    exfalso. unfold frame_body in E.
    destruct (strptime_date_time (c1 :: s1) (c2 :: s2)); cbn [bind] in E;
      [|discriminate].
    destruct (strptime_date_time (c1 :: s1) (c3 :: s3)); cbn [bind] in E;
      [|discriminate].
    destruct Hall as [[x Hx] | [x Hx]]; discriminate. }
  apply no_free_time_shared in F. rewrite F. reflexivity.
Qed.

Lemma unreadable_entries_report_no_free_time_witness :
  _handle_availability_check (fun _ _ => [])
    [frame_of "7/10" "09:00" "18:00"; frame_of "2025-07-11" "9時" "18:00"]
    None None
  = Text no_free_time.
Proof.
  apply (unreadable_entries_report_no_free_time (fun _ _ => [])
           [frame_of "7/10" "09:00" "18:00"; frame_of "2025-07-11" "9時" "18:00"]
           None None).
  - discriminate.
  - repeat constructor; vm_compute; reflexivity.
  - constructor; [left; eexists; vm_compute; reflexivity|].
    constructor; [left; eexists; vm_compute; reflexivity|]. constructor.
Defined.

End Unreadable.
